(** * appbus.py: telemetry pipeline of the school bus dashboard

    A shallow embedding of [process_data], [calculate_scores],
    [maintenance_system] and [get_maintenance_recommendations], and of the
    [try]/[except] block that chains them.

    Numbers.  pandas columns hold IEEE doubles.  The development keeps the
    special values of that format (the missing marker and the two
    infinities) and replaces the finite doubles by exact rationals, so a
    finite result is the value the double computation rounds.  Where a
    difference goes on to a threshold or a floor (the two increases and the
    braking delta) the rounding decides the outcome, and the difference is
    rounded to the nearest double as the format does ([F.sub64]).

    Frames.  A frame is its number of rows and its labelled columns, in
    order; read_csv builds every frame on the range index 0..n-1, so a
    column is the list of its cells.  Text columns (timestamp) take no part
    in any computation of the pipeline and are left out.

    Scope.  Every column is read as a column of doubles (an integer column
    as the doubles of its values).  Labels are lowercased on the ASCII
    letters.  An upload that repeats a label the pipeline writes is
    rejected at the list selections [df[[...]]] as at every other access,
    where pandas selects each of the repeated columns.  A rolling window
    keeps an infinite reading as a value, where pandas' rolling takes it
    as missing. *)

From Stdlib Require Import QArith Qround Qabs Qminmax Qpower Lqa Ascii String.
From stdpp Require Import base list strings pretty.

Open Scope Q_scope.

(** ** Doubles *)

Inductive float64 : Type :=
  | Fin (q : Q)
  | PInf
  | NInf
  | NaN.

#[global] Instance float64_inhabited : Inhabited float64 := populate NaN.

(** The integer nearest to a rational, a tie going to the even one. *)
Definition round_half_even (r : Q) : Z :=
  let f := Qfloor r in
  match Qcompare (r - inject_Z f) (1 # 2) with
  | Lt => f
  | Gt => (f + 1)%Z
  | Eq => if Z.even f then f else (f + 1)%Z
  end.

Module F.

Definition isna (x : float64) : bool :=
  match x with NaN => true | _ => false end.

Definition notna (x : float64) : bool := negb (isna x).

Definition neg (x : float64) : float64 :=
  match x with
  | Fin q => Fin (- q)
  | PInf => NInf
  | NInf => PInf
  | NaN => NaN
  end.

Definition add (x y : float64) : float64 :=
  match x, y with
  | NaN, _ | _, NaN => NaN
  | Fin a, Fin b => Fin (a + b)
  | PInf, NInf | NInf, PInf => NaN
  | PInf, _ | _, PInf => PInf
  | NInf, _ | _, NInf => NInf
  end.

Definition sub (x y : float64) : float64 := add x (neg y).

(** [floor (log2 q)] for a positive [q]. *)
Definition ilog2 (q : Q) : Z :=
  let e := (Z.log2 (Qnum q) - Z.log2 (Zpos (Qden q)))%Z in
  if Qle_bool (2 ^ e) q then e else (e - 1)%Z.

(** The double nearest to a rational, as every operation of the format
    rounds its exact result: 53 significant bits (fewer below 2^-1022,
    where the spacing stays 2^-1074), a tie going to the even
    significand, and an infinity from 2^1024 on. *)
Definition round64 (q : Q) : float64 :=
  if Qeq_bool q 0 then Fin 0
  else
    let a := Qabs q in
    let e := Z.max (ilog2 a - 52) (-1074) in
    let m := round_half_even (a / 2 ^ e) in
    let r := Qred (inject_Z m * 2 ^ e) in
    if Qle_bool (2 ^ 1024) r then (if Qle_bool 0 q then PInf else NInf)
    else Fin (if Qle_bool 0 q then r else - r).

(** [x - y] on doubles: the double nearest to the difference. *)
Definition sub64 (x y : float64) : float64 :=
  match sub x y with
  | Fin d => round64 d
  | v => v
  end.

(** Sign of a rational as an infinity: the value of [q * inf]. *)
Definition signed_inf (q : Q) (pos : float64) : float64 :=
  match Qcompare q 0 with
  | Gt => pos
  | Lt => neg pos
  | Eq => NaN
  end.

Definition mul (x y : float64) : float64 :=
  match x, y with
  | NaN, _ | _, NaN => NaN
  | Fin a, Fin b => Fin (a * b)
  | Fin a, PInf | PInf, Fin a => signed_inf a PInf
  | Fin a, NInf | NInf, Fin a => signed_inf a NInf
  | PInf, PInf | NInf, NInf => PInf
  | PInf, NInf | NInf, PInf => NInf
  end.

(** Division as numpy does it: a zero divisor gives an infinity of the
    sign of the dividend, and 0/0 is the missing marker. *)
Definition div (x y : float64) : float64 :=
  match x, y with
  | NaN, _ | _, NaN => NaN
  | Fin a, Fin b =>
      if Qeq_bool b 0 then signed_inf a PInf else Fin (a / b)
  | Fin _, (PInf | NInf) => Fin 0
  | PInf, Fin b => if Qle_bool 0 b then PInf else NInf
  | NInf, Fin b => if Qle_bool 0 b then NInf else PInf
  | (PInf | NInf), (PInf | NInf) => NaN
  end.

(** [x < y]; every comparison with the missing marker is false. *)
Definition lt (x y : float64) : bool :=
  match x, y with
  | NaN, _ | _, NaN => false
  | Fin a, Fin b => negb (Qle_bool b a)
  | NInf, (Fin _ | PInf) => true
  | Fin _, PInf => true
  | _, _ => false
  end.

Definition gt (x y : float64) : bool := lt y x.

Definition le (x y : float64) : bool :=
  match x, y with
  | NaN, _ | _, NaN => false
  | _, _ => negb (lt y x)
  end.

Definition abs (x : float64) : float64 :=
  match x with
  | Fin q => Fin (Qabs q)
  | PInf | NInf => PInf
  | NaN => NaN
  end.

Definition fillna (v : Q) (x : float64) : float64 :=
  if isna x then Fin v else x.

(** [Series.clip(lo, hi)]: the missing marker stays. *)
Definition clip (lo hi : Q) (x : float64) : float64 :=
  if isna x then NaN
  else if lt x (Fin lo) then Fin lo
  else if lt (Fin hi) x then Fin hi
  else x.

(** Python's [x // d] on floats, for a positive divisor [d]. *)
Definition floordiv (x : float64) (d : Q) : float64 :=
  match x with
  | Fin a => Fin (inject_Z (Qfloor (a / d)))
  | _ => NaN
  end.

(** Python's builtin [min(a, b)]: [b] when [b < a], else [a]. *)
Definition py_min (a b : float64) : float64 :=
  if lt b a then b else a.

End F.

#[global] Arguments F.round64 : simpl never.
#[global] Arguments F.sub64 : simpl never.

(** A finite value inside a closed interval. *)
Definition within (lo hi : Q) (x : float64) : Prop :=
  match x with
  | Fin q => lo <= q /\ q <= hi
  | _ => False
  end.

Definition is_fin (x : float64) : Prop :=
  match x with
  | Fin _ => True
  | _ => False
  end.

(** A number or the -inf of a division by zero. *)
Definition fin_or_ninf (x : float64) : Prop :=
  match x with
  | Fin _ | NInf => True
  | _ => False
  end.

Definition finite_or_nan (x : float64) : Prop :=
  match x with
  | Fin _ | NaN => True
  | _ => False
  end.

(** ** Series *)

(** A column on the range index: its cells, in row order. *)
Abbreviation Series := (list float64).

Module S.

(** [Series.shift(1)] *)
Definition shift1 (s : Series) : Series := take (length s) (NaN :: s).

(** [Series.bfill()]: a missing cell takes the next known value. *)
Fixpoint bfill (s : Series) : Series :=
  match s with
  | [] => []
  | x :: r =>
      let r' := bfill r in
      (if F.isna x then hd NaN r' else x) :: r'
  end.

(** [Series.ffill()]: a missing cell takes the last known value. *)
Fixpoint ffill_from (last : float64) (s : Series) : Series :=
  match s with
  | [] => []
  | x :: r =>
      let y := if F.isna x then last else x in
      y :: ffill_from y r
  end.

Definition ffill (s : Series) : Series := ffill_from NaN s.

Definition fillna (v : Q) (s : Series) : Series := F.fillna v <$> s.

Definition clip (lo hi : Q) (s : Series) : Series := F.clip lo hi <$> s.

Definition sub (a b : Series) : Series := zip_with F.sub a b.
Definition sub64 (a b : Series) : Series := zip_with F.sub64 a b.
Definition mul (a b : Series) : Series := zip_with F.mul a b.
Definition div (a b : Series) : Series := zip_with F.div a b.
Definition gt (a b : Series) : list bool := zip_with F.gt a b.

(** [Series.where(mask, other)] *)
Definition where_ (s : Series) (mask : list bool) (other : Q) : Series :=
  zip_with (fun x (m : bool) => if m then x else Fin other) s mask.

(** *** Windows *)

(** The cells of the window of width [w] that ends at position [i]. *)
Definition window (w i : nat) (s : Series) : list float64 :=
  take (min w (S i)) (drop (S i - w) s).

(** [Series.rolling(w, min_periods=minp).agg()]: the aggregate of the
    known cells of each window, missing when there are fewer than
    [minp] of them. *)
Definition rolling (w minp : nat) (agg : list float64 -> float64)
    (s : Series) : Series :=
  imap (fun i _ =>
          let obs := filter (fun x => F.notna x = true) (window w i s) in
          if (minp <=? length obs)%nat then agg obs else NaN) s.

Fixpoint insert_sorted (x : float64) (l : list float64) : list float64 :=
  match l with
  | [] => [x]
  | y :: r => if F.le x y then x :: l else y :: insert_sorted x r
  end.

Definition sort (l : list float64) : list float64 :=
  foldr insert_sorted [] l.

(** Quantile with linear interpolation, as roll_quantile computes it. *)
Definition quantile (p : Q) (obs : list float64) : float64 :=
  let sorted := sort obs in
  let pos := p * inject_Z (Z.of_nat (length obs - 1)) in
  let idx := Qfloor pos in
  let vlow := sorted !!! Z.to_nat idx in
  if Qeq_bool pos (inject_Z idx) then vlow
  else
    let vhigh := sorted !!! S (Z.to_nat idx) in
    F.add vlow (F.mul (F.sub vhigh vlow) (Fin (pos - inject_Z idx))).

Definition sum (obs : list float64) : float64 :=
  foldl F.add (Fin 0) obs.

Definition count (obs : list float64) : float64 :=
  Fin (inject_Z (Z.of_nat (length obs))).

Definition mean (obs : list float64) : float64 :=
  F.div (sum obs) (count obs).

(** Sample variance (ddof = 1). *)
Definition var (obs : list float64) : float64 :=
  if (length obs <=? 1)%nat then NaN
  else
    let m := mean obs in
    let sq := (fun x => let d := F.sub x m in F.mul d d) <$> obs in
    F.div (sum sq) (Fin (inject_Z (Z.of_nat (length obs - 1)))).

(** Standard deviation; [sqrt] is the square root of the number format. *)
Definition std (sqrt : Q -> Q) (obs : list float64) : float64 :=
  match var obs with
  | Fin v => Fin (sqrt v)
  | PInf => PInf
  | _ => NaN
  end.

(** *** Series on part of the index *)

(** [s.loc[mask]]: the cells selected by [mask], each with its row
    label. *)
Fixpoint loc_from (i : nat) (mask : list bool) (s : Series)
    : list (nat * float64) :=
  match mask, s with
  | b :: mask', x :: s' =>
      (if b then [(i, x)] else []) ++ loc_from (S i) mask' s'
  | _, _ => []
  end.

Definition loc (mask : list bool) (s : Series) : list (nat * float64) :=
  loc_from 0 mask s.

(** Apply a positional operation to the cells, keeping the labels. *)
Definition on_values (f : Series -> Series) (ix : list (nat * float64))
    : list (nat * float64) :=
  zip (fst <$> ix) (f (snd <$> ix)).

Fixpoint at_label (i : nat) (ix : list (nat * float64)) : float64 :=
  match ix with
  | [] => NaN
  | (j, x) :: r => if Nat.eqb i j then x else at_label i r
  end.

(** Assigning a labelled series to a frame of [n] rows aligns it on the
    row labels; rows it has no cell for are missing. *)
Definition align (n : nat) (ix : list (nat * float64)) : Series :=
  (fun i => at_label i ix) <$> seq 0 n.

End S.

(** ** Exceptions *)

Inductive Exception : Type :=
  | KeyError (label : string)
  | ValueError
  | IndexError.

Inductive result (A : Type) : Type :=
  | Ok (a : A)
  | Raise (e : Exception).

Arguments Ok {A} a.
Arguments Raise {A} e.

#[global] Instance result_ret : MRet result := fun A a => Ok a.
#[global] Instance result_bind : MBind result := fun A B f m =>
  match m with
  | Ok a => f a
  | Raise e => Raise e
  end.

(** ** Frames *)

Record DataFrame : Type := mkFrame {
  nrows : nat;
  columns : list (string * Series)
}.

(** The frames pandas builds: every column has one cell per row. *)
Definition well_formed (df : DataFrame) : Prop :=
  Forall (fun c => length c.2 = nrows df) (columns df).

Definition lower_ascii (c : ascii) : ascii :=
  let n := nat_of_ascii c in
  if (65 <=? n)%nat && (n <=? 90)%nat then ascii_of_nat (n + 32) else c.

(** [str.lower()], on the ASCII letters. *)
Fixpoint lower (s : string) : string :=
  match s with
  | EmptyString => EmptyString
  | String c r => String (lower_ascii c) (lower r)
  end.

Module DF.

(** All the columns that carry the label [k]. *)
Definition labelled (k : string) (df : DataFrame) : list Series :=
  snd <$> filter (fun c => c.1 = k) (columns df).

(** [df[k]].  A label that occurs twice selects a frame and not a
    series; the column arithmetic and assignments of the pipeline reject
    that with a ValueError. *)
Definition getitem (df : DataFrame) (k : string) : result Series :=
  match labelled k df with
  | [] => Raise (KeyError k)
  | [s] => Ok s
  | _ => Raise ValueError
  end.

(** [df[k] = s]: replaces the column(s) labelled [k]; a new label is
    appended. *)
Definition replace_label (k : string) (s : Series)
    (cs : list (string * Series)) : list (string * Series) :=
  (fun c => if decide (c.1 = k) then (k, s) else c) <$> cs.

Definition setitem (df : DataFrame) (k : string) (s : Series) : DataFrame :=
  mkFrame (nrows df)
    (match labelled k df with
     | [] => columns df ++ [(k, s)]
     | _ => replace_label k s (columns df)
     end).

(** [df[k] = a] for a bare numpy array: its length has to be the
    number of rows. *)
Definition setitem_array (df : DataFrame) (k : string) (a : Series)
    : result DataFrame :=
  if (length a =? nrows df)%nat then Ok (setitem df k a)
  else Raise ValueError.

(** [df.columns = df.columns.str.lower()] *)
Definition lower_columns (df : DataFrame) : DataFrame :=
  mkFrame (nrows df) ((fun c => (lower c.1, c.2)) <$> columns df).

Definition map_columns (f : Series -> Series) (df : DataFrame) : DataFrame :=
  mkFrame (nrows df) ((fun c => (c.1, f c.2)) <$> columns df).

Definition bfill : DataFrame -> DataFrame := map_columns S.bfill.
Definition ffill : DataFrame -> DataFrame := map_columns S.ffill.

End DF.

(** ** process_data *)

Definition process_data (df : DataFrame) : result DataFrame :=
  let df := DF.lower_columns df in
  let df := DF.ffill (DF.bfill df) in
  (* feature engineering *)
  speed ← DF.getitem df "speed";
  let df := DF.setitem df "speed_prev" (S.bfill (S.shift1 speed)) in
  rpm ← DF.getitem df "rpm";
  let df := DF.setitem df "rpm_prev" (S.bfill (S.shift1 rpm)) in
  speed ← DF.getitem df "speed";
  speed_prev ← DF.getitem df "speed_prev";
  let df := DF.setitem df "speed_increase"
              (S.fillna 0 (S.clip (-50) 50 (S.sub64 speed speed_prev))) in
  rpm ← DF.getitem df "rpm";
  rpm_prev ← DF.getitem df "rpm_prev";
  let df := DF.setitem df "rpm_increase"
              (S.fillna 0 (S.clip (-5000) 5000 (S.sub64 rpm rpm_prev))) in
  (* dynamic thresholds *)
  speed ← DF.getitem df "speed";
  let df := DF.setitem df "dynamic_speed_limit"
              (S.fillna 80 (S.rolling 100 10 (S.quantile 0.85) speed)) in
  speed ← DF.getitem df "speed";
  rpm ← DF.getitem df "rpm";
  let idle := S.loc ((fun x => F.lt x (Fin 5)) <$> speed) rpm in
  let threshold :=
    S.on_values
      (fun v => S.fillna 1500 (S.ffill (S.rolling 100 10 (S.quantile 0.90) v)))
      idle in
  Ok (DF.setitem df "idle_rpm_threshold" (S.align (nrows df) threshold)).

(** ** Library interfaces

    The estimators of scikit-learn, the random generator and the square
    root of numpy are not part of the program.  They enter through this
    interface; a call that raises returns [Raise]. *)

Class Sklearn : Type := {
  (** [SimpleImputer(strategy='median').fit_transform(X)], [X] by rows *)
  SimpleImputer_fit_transform : list (list float64) -> result (list (list float64));
  (** [IsolationForest(contamination=0.1, random_state=42).fit_predict(X)]:
      one flag per row, -1 for an outlier and 1 otherwise *)
  IsolationForest_fit_predict : list (list float64) -> result (list Z);
  (** [np.random.randint(0, 2, size=n)] *)
  np_random_randint : nat -> list bool;
  (** [RandomForestClassifier().fit(X, y).predict_proba(X)]: one row of
      class probabilities per sample *)
  RandomForestClassifier_predict_proba :
    list (list float64) -> list bool -> result (list (list float64));
  (** [np.sqrt] *)
  np_sqrt : Q -> Q
}.

(** The rows of a selection of columns: [df[[...]]] as a matrix. *)
Definition rows_of (n : nat) (cols : list Series) : list (list float64) :=
  (fun i => (fun c : Series => c !!! i) <$> cols) <$> seq 0 n.

(** [m[:, j]]: numpy raises IndexError when the matrix has no column
    [j]. *)
Definition column_of (j : nat) (m : list (list float64)) : result Series :=
  if forallb (fun row : list float64 => (j <? length row)%nat) m
  then Ok ((fun row : list float64 => row !!! j) <$> m)
  else Raise IndexError.

(** ** calculate_scores *)

(** The lambda of the harsh-braking score. *)
Definition harsh_braking (x : float64) : float64 :=
  if F.gt x (Fin 10) then F.neg (F.py_min (Fin 15) (F.floordiv x 2.5))
  else Fin 0.

(** Sum of the known cells of a row ([sum(axis=1)] skips missing ones). *)
Definition row_sum (n : nat) (cols : list Series) : Series :=
  (fun row => S.sum (filter (fun x => F.notna x = true) row)) <$> rows_of n cols.

Section Pipeline.

Context `{Sklearn}.

Definition calculate_scores (df : DataFrame) : result DataFrame :=
  (* speeding score *)
  speed ← DF.getitem df "speed";
  limit ← DF.getitem df "dynamic_speed_limit";
  let mask := S.gt speed limit in
  speed ← DF.getitem df "speed";
  limit ← DF.getitem df "dynamic_speed_limit";
  limit' ← DF.getitem df "dynamic_speed_limit";
  let df := DF.setitem df "speeding_score"
              (S.fillna 0
                 (S.where_
                    (S.div (F.mul (Fin (-10)) <$> S.sub speed limit) limit')
                    mask 0)) in
  (* idling score *)
  speed ← DF.getitem df "speed";
  rpm ← DF.getitem df "rpm";
  thr ← DF.getitem df "idle_rpm_threshold";
  let idle_mask :=
    zip_with andb ((fun x => F.lt x (Fin 5)) <$> speed) (S.gt rpm thr) in
  rpm ← DF.getitem df "rpm";
  thr ← DF.getitem df "idle_rpm_threshold";
  thr' ← DF.getitem df "idle_rpm_threshold";
  let df := DF.setitem df "idle_score"
              (S.fillna 0
                 (S.where_
                    (S.div (F.mul (Fin (-5)) <$> S.sub rpm thr) thr')
                    idle_mask 0)) in
  (* harsh braking *)
  speed_prev ← DF.getitem df "speed_prev";
  speed ← DF.getitem df "speed";
  let df := DF.setitem df "harsh_braking_score"
              (S.fillna 0 (harsh_braking <$> S.sub64 speed_prev speed)) in
  (* acceleration score *)
  speed_increase ← DF.getitem df "speed_increase";
  rpm_increase ← DF.getitem df "rpm_increase";
  let accel_mask :=
    zip_with andb ((fun x => F.gt x (Fin 15)) <$> speed_increase)
                  ((fun x => F.gt x (Fin 750)) <$> rpm_increase) in
  df ← DF.setitem_array df "acceleration_score"
         ((fun m : bool => if m then Fin (-10) else Fin 0) <$> accel_mask);
  (* anomaly detection *)
  speed ← DF.getitem df "speed";
  rpm ← DF.getitem df "rpm";
  speed_increase ← DF.getitem df "speed_increase";
  rpm_increase ← DF.getitem df "rpm_increase";
  features ← SimpleImputer_fit_transform
               (rows_of (nrows df) [speed; rpm; speed_increase; rpm_increase]);
  flags ← IsolationForest_fit_predict features;
  df ← DF.setitem_array df "anomaly_score"
         ((fun p : Z => if (p =? -1)%Z then Fin (-20) else Fin 0) <$> flags);
  (* total score *)
  speeding ← DF.getitem df "speeding_score";
  idle ← DF.getitem df "idle_score";
  harsh ← DF.getitem df "harsh_braking_score";
  accel ← DF.getitem df "acceleration_score";
  anomaly ← DF.getitem df "anomaly_score";
  Ok (DF.setitem df "total_score"
        (S.fillna 0 (row_sum (nrows df) [speeding; idle; harsh; accel; anomaly]))).

(** ** maintenance_system *)

(** What [df.get(k, default)] hands back: the column, or the scalar
    default when the frame has no such label. *)
Inductive operand : Type :=
  | Scalar (q : Q)
  | Column (s : Series).

Definition df_get (df : DataFrame) (k : string) (default : Q) : result operand :=
  match DF.labelled k df with
  | [] => Ok (Scalar default)
  | [s] => Ok (Column s)
  | _ => Raise ValueError
  end.

Definition mul_operand (a : Series) (b : operand) : Series :=
  match b with
  | Scalar q => (fun x => F.mul x (Fin q)) <$> a
  | Column s => S.mul a s
  end.

Definition maintenance_system (df : DataFrame) : result DataFrame :=
  (* engine health *)
  rpm ← DF.getitem df "rpm";
  load ← df_get df "engine_load" 50;
  let df := DF.setitem df "engine_stress"
              (S.fillna 0
                 (S.clip 0 100
                    (S.rolling 10 1 S.mean
                       ((fun x => F.div x (Fin 500000)) <$> mul_operand rpm load)))) in
  (* brake wear *)
  harsh ← DF.getitem df "harsh_braking_score";
  let df := DF.setitem df "brake_wear"
              (S.fillna 0
                 (S.clip 0 100
                    (S.rolling 5 1 S.sum
                       ((fun x => F.div (F.abs x) (Fin 15)) <$> harsh)))) in
  (* tire health *)
  speed ← DF.getitem df "speed";
  let df := DF.setitem df "tire_wear"
              (S.fillna 0
                 (S.clip 0 100
                    ((fun x => F.mul x (Fin 0.5)) <$>
                       S.rolling 100 100 (S.std np_sqrt) speed))) in
  (* maintenance prediction model *)
  engine_stress ← DF.getitem df "engine_stress";
  brake_wear ← DF.getitem df "brake_wear";
  tire_wear ← DF.getitem df "tire_wear";
  let X := rows_of (nrows df)
             [S.fillna 0 engine_stress; S.fillna 0 brake_wear; S.fillna 0 tire_wear] in
  let y := np_random_randint (nrows df) in
  proba ← RandomForestClassifier_predict_proba X y;
  p1 ← column_of 1 proba;
  DF.setitem_array df "maintenance_urgency" ((fun p => F.mul p (Fin 100)) <$> p1).

(** ** The processing block of the script

    [try: df = process_data(df); df = calculate_scores(df);
     df = maintenance_system(df); st.session_state.df = df
     except Exception as e: st.error(...); st.stop()] *)

Definition pipeline (df : DataFrame) : result DataFrame :=
  df ← process_data df;
  df ← calculate_scores df;
  maintenance_system df.

Record Run : Type := mkRun {
  session_df : option DataFrame;   (* st.session_state.df *)
  reported : option Exception;     (* the argument of st.error *)
  stopped : bool                   (* st.stop() was called *)
}.

Definition main (session : option DataFrame) (uploaded : option DataFrame) : Run :=
  match uploaded with
  | None => mkRun session None false
  | Some csv =>
      match pipeline csv with
      | Ok df => mkRun (Some df) None false
      | Raise e => mkRun session (Some e) true
      end
  end.

End Pipeline.

(** ** get_maintenance_recommendations *)

Record Action : Type := mkAction {
  component : string;
  urgency : string;
  steps : list string
}.

Record Recommendation : Type := mkRec {
  status : string;
  icon : string;
  actions : list Action
}.

(** The f-string [f"{x:.1f}%"]. *)
Definition format_1f (x : float64) : string :=
  match x with
  | Fin q =>
      let m := round_half_even (Qabs q * 10) in
      ((if Qle_bool 0 q then "" else "-") +:+
       pretty (m / 10)%Z +:+ "." +:+ pretty (m mod 10)%Z +:+ "%")%string
  | PInf => "inf%"
  | NInf => "-inf%"
  | NaN => "nan%"
  end.

(** [df.iloc[-1]]: the last row, as labelled cells. *)
Definition iloc_last (df : DataFrame) : result (list (string * float64)) :=
  if (nrows df =? 0)%nat then Raise IndexError
  else Ok ((fun c : string * Series => (c.1, c.2 !!! (nrows df - 1)%nat)) <$> columns df).

(** [last[k]]: a label that occurs twice gives a series, whose
    comparison cannot be used as a condition (ValueError). *)
Definition row_get (row : list (string * float64)) (k : string) : result float64 :=
  match filter (fun c => c.1 = k) row with
  | [] => Raise (KeyError k)
  | [c] => Ok c.2
  | _ => Raise ValueError
  end.

(** The [components] dictionary, in insertion order. *)
Definition components : list (string * (string * Q * list string)) :=
  [ ("engine_stress", ("Engine", 80,
       ["Check coolant levels"; "Inspect oil quality"; "Clean air filters"]));
    ("brake_wear", ("Brakes", 60,
       ["Measure pad thickness"; "Check fluid levels"; "Test ABS sensors"]));
    ("tire_wear", ("Tires", 70,
       ["Check tread depth"; "Verify pressure"; "Inspect for damage"])) ]%string.

(** The loop over [components.items()]. *)
Fixpoint component_actions (last : list (string * float64))
    (items : list (string * (string * Q * list string)))
    (acc : list Action) : result (list Action) :=
  match items with
  | [] => Ok acc
  | (metric, (name, threshold, todo)) :: rest =>
      v ← row_get last metric;
      if F.gt v (Fin threshold) then
        v' ← row_get last metric;
        component_actions last rest (acc ++ [mkAction name (format_1f v') todo])
      else component_actions last rest acc
  end.

Definition get_maintenance_recommendations (df : DataFrame) : result Recommendation :=
  last ← iloc_last df;
  let rec := mkRec "green" "✅" [] in
  (* status determination *)
  u ← row_get last "maintenance_urgency";
  rec ← (if F.gt u (Fin 75) then Ok (mkRec "red" "🚨" (actions rec))
         else
           u' ← row_get last "maintenance_urgency";
           if F.gt u' (Fin 50) then Ok (mkRec "orange" "⚠️" (actions rec))
           else Ok rec);
  (* component-specific recommendations *)
  acts ← component_actions last components (actions rec);
  Ok (mkRec (status rec) (icon rec) acts).

(** The cell of column [k] in row [i], when the frame has exactly one
    such column and that row. *)
Definition cell (df : DataFrame) (k : string) (i : nat) : option float64 :=
  match DF.getitem df k with
  | Ok s => s !! i
  | Raise _ => None
  end.

(** The field [k] of the last sample. *)
Definition last_sample (df : DataFrame) (k : string) : option float64 :=
  if (nrows df =? 0)%nat then None else cell df k (nrows df - 1).

(** The frame has a column that [str.lower] turns into [k]. *)
Definition has_column (k : string) (df : DataFrame) : Prop :=
  k ∈ (fun c : string * Series => lower c.1) <$> columns df.

(** Every reading of the upload is a number or missing. *)
Definition finite_input (df : DataFrame) : Prop :=
  Forall (fun c : string * Series => Forall finite_or_nan c.2) (columns df).

(** ** Vocabulary of the properties *)

(** Every cell of the column [k] satisfies [P]. *)
Definition col_all (P : float64 -> Prop) (df : DataFrame) (k : string) : Prop :=
  forall s, DF.getitem df k = Ok s -> Forall P s.

(** The labels each stage assigns. *)
Definition feature_columns : list string :=
  ["speed_prev"; "rpm_prev"; "speed_increase"; "rpm_increase";
   "dynamic_speed_limit"; "idle_rpm_threshold"]%string.

Definition score_columns : list string :=
  ["speeding_score"; "idle_score"; "harsh_braking_score";
   "acceleration_score"; "anomaly_score"; "total_score"]%string.

Definition wear_columns : list string :=
  ["engine_stress"; "brake_wear"; "tire_wear"; "maintenance_urgency"]%string.


(** The contract of [predict_proba]: its entries are probabilities. *)
Definition probabilities_valid `{Sklearn} : Prop :=
  forall X y P, RandomForestClassifier_predict_proba X y = Ok P ->
                Forall (Forall (within 0 1)) P.

(** ** Example data

    A stand-in for the estimators, to run the pipeline on examples: the
    imputer passes complete data through, no row is an outlier, the drawn
    labels alternate and every sample gets probability 1/2 for each of the
    two classes. *)
Definition stub_sklearn : Sklearn := {|
  SimpleImputer_fit_transform X :=
    match X with [] => Raise ValueError | _ => Ok X end;
  IsolationForest_fit_predict X := Ok (replicate (length X) 1%Z);
  np_random_randint n := (fun i => Nat.odd i) <$> seq 0 n;
  RandomForestClassifier_predict_proba X y :=
    match X with
    | [] => Raise ValueError
    | _ => Ok ((fun _ => [Fin (1 # 2); Fin (1 # 2)]) <$> X)
    end;
  np_sqrt q := q
|}.

(** Three samples: cruising, a hard stop, standing with the engine on. *)
Definition example_trip : DataFrame :=
  mkFrame 3 [("Speed", [Fin 60; Fin 40; Fin 0]);
             ("RPM", [Fin 2000; Fin 1200; Fin 800])]%string.

Definition example_features : DataFrame :=
  Eval vm_compute in
    match process_data example_trip with
    | Ok df => df
    | Raise _ => mkFrame 0 []
    end.

Definition example_scored : DataFrame :=
  Eval vm_compute in
    match calculate_scores (H := stub_sklearn) example_features with
    | Ok df => df
    | Raise _ => mkFrame 0 []
    end.

Definition example_processed : DataFrame :=
  Eval vm_compute in
    match pipeline (H := stub_sklearn) example_trip with
    | Ok df => df
    | Raise _ => mkFrame 0 []
    end.

(** The doubles nearest to the decimals 10.3, 0.3, 12.6, 0.1, 16.4 and
    1.4. *)
Definition double_10_3 : Q := 2899192260119757 # 281474976710656.
Definition double_0_3 : Q := 5404319552844595 # 18014398509481984.
Definition double_12_6 : Q := 7093169413108531 # 562949953421312.
Definition double_0_1 : Q := 3602879701896397 # 36028797018963968.
Definition double_16_4 : Q := 2308094809027379 # 140737488355328.
Definition double_1_4 : Q := 3152519739159347 # 2251799813685248.

(** A stop from 10.3 to 0.3. *)
Definition braking_10_3 : DataFrame :=
  mkFrame 2 [("speed", [Fin double_10_3; Fin double_0_3]);
             ("rpm", [Fin 2000; Fin 900])]%string.

(** An upload without the rpm column. *)
Definition no_rpm_trip : DataFrame :=
  mkFrame 2 [("Speed", [Fin 30; Fin 35])]%string.

(** The column [k], when the frame has exactly one, is [s]. *)
Definition col_is (df : DataFrame) (k : string) (s : Series) : Prop :=
  forall c, DF.getitem df k = Ok c -> c = s.

(** The scaled excess over a threshold, [k * (x - t) / t], as the
    speeding and idling scores compute it. *)
Definition penalty (k : Q) (x t : float64) : float64 :=
  F.div (F.mul (Fin k) (F.sub x t)) t.

(** The speeding score in the words of the spec:
    [-10 * (speed - limit) / limit] when [speed > limit], else 0. *)
Definition speeding_spec (speed limit : Q) : Q :=
  if Qlt_le_dec limit speed then -10 * (speed - limit) / limit else 0.

(** The harsh-braking score in the words of the spec:
    [-min(15, floor(delta / 2.5))] when [delta > 10], else 0. *)
Definition harsh_braking_spec (delta : Q) : Q :=
  if Qlt_le_dec 10 delta
  then - Qmin 15 (inject_Z (Qfloor (delta / 2.5)))
  else 0.

(** The action emitted for a component. *)
Definition action_for (name : string) (threshold : Q) (todo : list string)
    (v : float64) : list Action :=
  if F.gt v (Fin threshold) then [mkAction name (format_1f v) todo] else [].

(** The last sample of the recommendation scenario. *)
Definition scenario : DataFrame :=
  mkFrame 1 [("engine_stress", [Fin 85]); ("brake_wear", [Fin 40]);
             ("tire_wear", [Fin 10]); ("maintenance_urgency", [Fin 80])]%string.

(** Three samples at a constant 50. *)
Definition cruise_trip : DataFrame :=
  mkFrame 3 [("speed", [Fin 50; Fin 50; Fin 50]);
             ("rpm", [Fin 1800; Fin 1800; Fin 1800])]%string.

Definition cruise_processed : DataFrame :=
  Eval vm_compute in
    match pipeline (H := stub_sklearn) cruise_trip with
    | Ok df => df
    | Raise _ => mkFrame 0 []
    end.

(** Ten samples standing with the engine on, then one on the move. *)
Definition idle_then_moving : DataFrame :=
  mkFrame 11 [("speed"%string, replicate 10 (Fin 0) ++ [Fin 30]);
              ("rpm"%string, replicate 10 (Fin 800) ++ [Fin 1500])].

(** A single sample on the move. *)
Definition moving_sample : DataFrame :=
  mkFrame 1 [("speed", [Fin 30]); ("rpm", [Fin 1500])]%string.

(** The urgency column carries no number: every cell is the missing
    marker. *)
Definition urgency_unavailable (df : DataFrame) : Prop :=
  forall i v, cell df "maintenance_urgency" i = Some v -> v = NaN.


(** ** Vocabulary of the further properties *)

(** The frame as [process_data] sees it after the cleaning steps. *)
Definition prepared (df : DataFrame) : DataFrame :=
  DF.ffill (DF.bfill (DF.lower_columns df)).

(** The number of columns whose label [str.lower] turns into [k]. *)
Definition label_count (k : string) (df : DataFrame) : nat :=
  length (filter (fun c : string * Series => lower c.1 = k) (columns df)).

(** A cell that holds a reading. *)
Definition known (x : float64) : Prop := x <> NaN.

(** The same frame under other column labels. *)
Definition relabel (g : string -> string) (df : DataFrame) : DataFrame :=
  mkFrame (nrows df) ((fun c : string * Series => (g c.1, c.2)) <$> columns df).

Definition upper_ascii (c : ascii) : ascii :=
  let n := nat_of_ascii c in
  if (97 <=? n)%nat && (n <=? 122)%nat then ascii_of_nat (n - 32) else c.

(** [str.upper()], on the ASCII letters. *)
Fixpoint upper (s : string) : string :=
  match s with
  | EmptyString => EmptyString
  | String c r => String (upper_ascii c) (upper r)
  end.

(** The upload of the examples with its headers in capitals and no
    readings. *)
Definition header_only : DataFrame :=
  mkFrame 0 [("SPEED", []); ("RPM", [])]%string.

Definition idle_features : DataFrame :=
  Eval vm_compute in
    match process_data idle_then_moving with
    | Ok df => df
    | Raise _ => mkFrame 0 []
    end.

(** Two samples: pulling away hard, speed 20 to 40 and rpm 1500 to 2400
    (the acceleration scenario of the spec: increases of 20 and 900). *)
Definition surge_trip : DataFrame :=
  mkFrame 2 [("speed", [Fin 20; Fin 40]); ("rpm", [Fin 1500; Fin 2400])]%string.

Definition surge_features : DataFrame :=
  Eval vm_compute in
    match process_data surge_trip with
    | Ok df => df
    | Raise _ => mkFrame 0 []
    end.

Definition surge_scored : DataFrame :=
  Eval vm_compute in
    match calculate_scores (H := stub_sklearn) surge_features with
    | Ok df => df
    | Raise _ => mkFrame 0 []
    end.

(** Twelve samples at a constant 70: long enough for the windowed limit. *)
Definition steady_trip : DataFrame :=
  mkFrame 12 [("speed"%string, replicate 12 (Fin 70));
              ("rpm"%string, replicate 12 (Fin 2000))].

Definition steady_features : DataFrame :=
  Eval vm_compute in
    match process_data steady_trip with
    | Ok df => df
    | Raise _ => mkFrame 0 []
    end.

Definition steady_scored : DataFrame :=
  Eval vm_compute in
    match calculate_scores (H := stub_sklearn) steady_features with
    | Ok df => df
    | Raise _ => mkFrame 0 []
    end.

(** A reading that is not negative, or missing. *)
Definition nonneg_or_nan (x : float64) : Prop :=
  match x with
  | Fin q => 0 <= q
  | NaN => True
  | _ => False
  end.

(** Every reading of the upload is a non-negative number or missing. *)
Definition nonneg_input (df : DataFrame) : Prop :=
  Forall (fun c : string * Series => Forall nonneg_or_nan c.2) (columns df).

(** A penalty: a number that is not positive, or the -inf of a division
    by zero. *)
Definition nonpos (x : float64) : Prop :=
  match x with
  | Fin q => q <= 0
  | NInf => True
  | _ => False
  end.

(** A reading between 0 and [B], or missing. *)
Definition bounded_or_nan (B : Q) (x : float64) : Prop :=
  match x with
  | Fin q => 0 <= q /\ q <= B
  | NaN => True
  | _ => False
  end.

(** The readings of the columns that [str.lower] labels [k] are between 0
    and [B], or missing. *)
Definition readings_bounded (k : string) (B : Q) (df : DataFrame) : Prop :=
  forall c : string * Series,
    c ∈ columns df -> lower c.1 = k -> Forall (bounded_or_nan B) c.2.

(** The double nearest to the decimal 15.3. *)
Definition double_15_3 : Q := 4306567143673037 # 281474976710656.

(** The number of classes a label vector holds: the length of
    [np.unique(y)], which the fitted forest keeps as [classes_]. *)
Definition classes (y : list bool) : nat := length (remove_dups y).

(** The shape of [predict_proba(X)]: one row per sample and one column
    per class of the labels the forest was fitted on. *)
Definition one_column_per_class `{Sklearn} : Prop :=
  forall X y P, RandomForestClassifier_predict_proba X y = Ok P ->
                length P = length X /\
                Forall (fun row : list float64 => length row = classes y) P.

(** [np.random.randint(0, 2, size=n)] draws [n] labels. *)
Definition one_label_per_sample `{Sklearn} : Prop :=
  forall n, length (np_random_randint n) = n.

(** A stand-in whose draw holds one class only (every label is 1), with
    the forest answering one column per class. *)
Definition single_class_sklearn : Sklearn := {|
  SimpleImputer_fit_transform X :=
    match X with [] => Raise ValueError | _ => Ok X end;
  IsolationForest_fit_predict X := Ok (replicate (length X) 1%Z);
  np_random_randint n := replicate n true;
  RandomForestClassifier_predict_proba X y :=
    match X with
    | [] => Raise ValueError
    | _ => Ok ((fun _ => replicate (classes y) (Fin (1 # Pos.of_nat (classes y))))
                 <$> X)
    end;
  np_sqrt q := q
|}.

(** The four fields a recommendation reads from the last sample. *)
Definition recommendation_fields : list string :=
  ["maintenance_urgency"; "engine_stress"; "brake_wear"; "tire_wear"]%string.

(** * Properties *)

(** ** The error monad *)

Lemma bind_Ok {A B} (m : result A) (f : A -> result B) (b : B) :
  m ≫= f = Ok b -> exists a, m = Ok a /\ f a = Ok b.
Proof. destruct m as [a|e]; simpl; [eauto | discriminate]. Qed.

(** Peel the successful prefix of a chain of binds. *)
Ltac inv_bind H :=
  repeat
    (let a := fresh "x" in
     let E := fresh "E" in
     apply bind_Ok in H; destruct H as (a & E & H)).

(** ** Columns of a frame *)

Section FrameLemmas.

Implicit Types (df : DataFrame) (k : string) (s : Series).
Implicit Types (cs : list (string * Series)).

Lemma filter_replace_ne k k' s cs :
  k <> k' ->
  filter (fun c => c.1 = k') (DF.replace_label k s cs) = filter (fun c => c.1 = k') cs.
Proof.
  intros Hne. induction cs as [|c cs IH]; [done|].
  unfold DF.replace_label in *. rewrite fmap_cons.
  destruct (decide (c.1 = k)) as [Hc|Hc].
  - rewrite !filter_cons_False; [done|simpl; congruence..].
  - destruct (decide (c.1 = k')) as [Hk|Hk].
    + rewrite !filter_cons_True by done. by rewrite IH.
    + by rewrite !filter_cons_False by done.
Qed.

Lemma filter_replace_eq k s cs :
  (filter (fun c => c.1 = k) (DF.replace_label k s cs)).*2
  = replicate (length (filter (fun c => c.1 = k) cs)) s.
Proof.
  induction cs as [|c cs IH]; [done|].
  unfold DF.replace_label in *. rewrite fmap_cons.
  destruct (decide (c.1 = k)) as [Hc|Hc].
  - rewrite !filter_cons_True by done. rewrite fmap_cons.
    change (length (c :: ?l)) with (S (length l)).
    change (replicate (S ?n) s) with (s :: replicate n s).
    f_equal. exact IH.
  - by rewrite !filter_cons_False by done.
Qed.

Lemma labelled_setitem_ne df k k' s :
  k <> k' -> DF.labelled k' (DF.setitem df k s) = DF.labelled k' df.
Proof.
  intros Hne. unfold DF.setitem, DF.labelled; simpl.
  destruct (filter (fun c => c.1 = k) (columns df)).*2.
  - rewrite filter_app, filter_cons_False, filter_nil, app_nil_r; [done|].
    simpl; congruence.
  - f_equal. by apply filter_replace_ne.
Qed.

Lemma labelled_setitem_eq df k s :
  exists n, DF.labelled k (DF.setitem df k s) = replicate (S n) s.
Proof.
  unfold DF.setitem, DF.labelled; simpl.
  destruct (filter (fun c => c.1 = k) (columns df)) as [|c0 r] eqn:E; simpl.
  - exists 0%nat. rewrite filter_app, E. simpl.
    by rewrite filter_cons_True.
  - exists (length r).
    rewrite filter_replace_eq, E. done.
Qed.

Lemma getitem_setitem_ne df k k' s :
  k <> k' -> DF.getitem (DF.setitem df k s) k' = DF.getitem df k'.
Proof. intros Hne. unfold DF.getitem. by rewrite labelled_setitem_ne. Qed.

Lemma getitem_setitem_eq df k s s' :
  DF.getitem (DF.setitem df k s) k = Ok s' -> s' = s.
Proof.
  unfold DF.getitem. destruct (labelled_setitem_eq df k s) as (n & ->).
  destruct n as [|n]; simpl; congruence.
Qed.

Lemma cell_setitem_eq df k s i v :
  cell (DF.setitem df k s) k i = Some v -> s !! i = Some v.
Proof.
  unfold cell. destruct (DF.getitem _ k) as [s'|] eqn:E; [|done].
  by apply getitem_setitem_eq in E as ->.
Qed.

Lemma setitem_array_Ok df k a df' :
  DF.setitem_array df k a = Ok df' -> df' = DF.setitem df k a.
Proof. unfold DF.setitem_array. case_match; congruence. Qed.

Lemma cell_getitem df k s i :
  DF.getitem df k = Ok s -> cell df k i = s !! i.
Proof. unfold cell. by intros ->. Qed.

End FrameLemmas.

(** ** Doubles *)

Section FloatLemmas.

Implicit Types (x y : float64) (lo hi d q : Q).

Lemma Qle_bool_false a b : Qle_bool a b = false <-> b < a.
Proof.
  split.
  - intros E. apply Qnot_le_lt. intros Hle. apply Qle_bool_iff in Hle. congruence.
  - intros Hlt. destruct (Qle_bool a b) eqn:E; [|done].
    apply Qle_bool_iff in E. by apply Qlt_not_le in Hlt.
Qed.

Lemma flt_Fin a b : F.lt (Fin a) (Fin b) = true <-> a < b.
Proof. simpl. rewrite negb_true_iff. apply Qle_bool_false. Qed.

Lemma flt_Fin_false a b : F.lt (Fin a) (Fin b) = false <-> b <= a.
Proof. simpl. rewrite negb_false_iff. apply Qle_bool_iff. Qed.

Lemma clip_within lo hi x :
  lo <= hi -> x <> NaN -> within lo hi (F.clip lo hi x).
Proof.
  intros Hlh Hx. unfold F.clip. destruct x as [q| | |]; try done; simpl.
  - destruct (Qle_bool lo q) eqn:E1; simpl.
    + destruct (Qle_bool q hi) eqn:E2; simpl.
      * by rewrite Qle_bool_iff in E1, E2.
      * split; [done | apply Qle_refl].
    + split; [apply Qle_refl | done].
  - split; [done | apply Qle_refl].
  - split; [apply Qle_refl | done].
Qed.

Lemma fillna_within lo hi d x : within lo hi x -> F.fillna d x = x.
Proof. by destruct x. Qed.

Lemma fillna_clip_within lo hi d x :
  lo <= hi -> lo <= d <= hi -> within lo hi (F.fillna d (F.clip lo hi x)).
Proof.
  intros Hlh Hd. destruct x as [q| | |].
  4: done.
  all: erewrite fillna_within; apply clip_within; done.
Qed.

Lemma Forall_fillna_clip lo hi d (s : Series) :
  lo <= hi -> lo <= d <= hi -> Forall (within lo hi) (S.fillna d (S.clip lo hi s)).
Proof.
  intros Hlh Hd. unfold S.fillna, S.clip. rewrite <- list_fmap_compose.
  apply Forall_fmap, Forall_true. intros x. by apply fillna_clip_within.
Qed.

End FloatLemmas.

(** ** Columns through the stages *)

Lemma col_all_cell P df k i v :
  col_all P df k -> cell df k i = Some v -> P v.
Proof.
  unfold col_all, cell. intros Hall Hc.
  destruct (DF.getitem df k) as [s|]; [|done].
  exact (Forall_lookup_1 _ _ _ _ (Hall s eq_refl) Hc).
Qed.

(** Rewrite reads of a column past the assignments to other labels, and
    resolve reads of a column that was just assigned. *)
Ltac frame_simpl :=
  repeat match goal with
    | H : context [DF.getitem (DF.setitem _ ?k _) ?k'] |- _ =>
        rewrite (getitem_setitem_ne _ k k') in H by discriminate
    | |- context [DF.getitem (DF.setitem _ ?k _) ?k'] =>
        rewrite (getitem_setitem_ne _ k k') by discriminate
    | H : DF.getitem (DF.setitem _ ?k _) ?k = Ok ?x |- _ =>
        apply getitem_setitem_eq in H; subst x
    | H : DF.getitem ?df ?k = Ok ?x, H' : DF.getitem ?df ?k = Ok ?y |- _ =>
        rewrite H in H'; injection H' as <-
    | H : DF.setitem_array _ _ _ = Ok _ |- _ =>
        apply setitem_array_Ok in H; subst
    end.

Ltac split_notin H :=
  repeat (apply not_elem_of_cons in H; destruct H as [? H]); clear H.

Ltac notin_columns :=
  unfold score_columns, wear_columns;
  repeat (apply not_elem_of_cons; split; [discriminate|]); apply not_elem_of_nil.

Section StageLemmas.

Context `{Sklearn}.

Lemma process_data_bounds df df' :
  process_data df = Ok df' ->
  col_all (within (-50) 50) df' "speed_increase" /\
  col_all (within (-5000) 5000) df' "rpm_increase".
Proof.
  intros Hp. unfold process_data in Hp. cbv zeta in Hp. inv_bind Hp.
  injection Hp as <-. split; intros s Hs; frame_simpl.
  - by apply Forall_fillna_clip.
  - by apply Forall_fillna_clip.
Qed.

Lemma calculate_scores_getitem df df' k :
  calculate_scores df = Ok df' -> k ∉ score_columns ->
  DF.getitem df' k = DF.getitem df k.
Proof.
  intros Hc Hk. split_notin Hk.
  unfold calculate_scores in Hc. cbv zeta in Hc. inv_bind Hc.
  injection Hc as <-. frame_simpl.
  by rewrite !getitem_setitem_ne.
Qed.

Lemma maintenance_system_getitem df df' k :
  maintenance_system df = Ok df' -> k ∉ wear_columns ->
  DF.getitem df' k = DF.getitem df k.
Proof.
  intros Hm Hk. split_notin Hk.
  unfold maintenance_system in Hm. cbv zeta in Hm. inv_bind Hm.
  frame_simpl. by rewrite !getitem_setitem_ne.
Qed.

Lemma column_of_Forall (Q : float64 -> Prop) j m p :
  Forall (Forall Q) m -> column_of j m = Ok p -> Forall Q p.
Proof.
  unfold column_of. intros Hm. destruct (forallb _ m) eqn:E; [|done].
  intros [= <-]. apply Forall_fmap. apply Forall_forall. intros row Hrow.
  rewrite forallb_forall in E. specialize (E row).
  rewrite <- list_elem_of_In in E. specialize (E Hrow).
  apply Nat.ltb_lt in E. apply lookup_lt_is_Some in E as [v Hv].
  simpl. rewrite (list_lookup_total_correct _ _ _ Hv).
  rewrite Forall_forall in Hm. specialize (Hm row Hrow).
  exact (Forall_lookup_1 _ _ _ _ Hm Hv).
Qed.

Lemma within_percent p : within 0 1 p -> within 0 100 (F.mul p (Fin 100)).
Proof. destruct p as [q| | |]; simpl; try done. intros [? ?]. split; lra. Qed.

Lemma maintenance_system_bounds df df' :
  maintenance_system df = Ok df' ->
  col_all (within 0 100) df' "engine_stress" /\
  col_all (within 0 100) df' "brake_wear" /\
  col_all (within 0 100) df' "tire_wear".
Proof.
  intros Hm. unfold maintenance_system in Hm. cbv zeta in Hm. inv_bind Hm.
  frame_simpl. repeat split; intros s Hs; frame_simpl.
  all: by apply Forall_fillna_clip.
Qed.

Lemma maintenance_system_urgency df df' :
  probabilities_valid -> maintenance_system df = Ok df' ->
  col_all (within 0 100) df' "maintenance_urgency".
Proof.
  intros Hpv Hm. unfold maintenance_system in Hm. cbv zeta in Hm. inv_bind Hm.
  frame_simpl. intros s Hs; frame_simpl.
  apply Forall_fmap. eapply Forall_impl; [|apply within_percent].
  eapply column_of_Forall; [|eassumption]. eapply Hpv; eassumption.
Qed.

End StageLemmas.

(** ** Bounds of the clipped fields *)

Section Bounds.

Context `{Sklearn}.

Lemma pipeline_Ok df df' :
  pipeline df = Ok df' ->
  exists df1 df2,
    process_data df = Ok df1 /\ calculate_scores df1 = Ok df2 /\
    maintenance_system df2 = Ok df'.
Proof.
  unfold pipeline. intros Hp.
  apply bind_Ok in Hp as (df1 & Hp1 & Hp).
  apply bind_Ok in Hp as (df2 & Hp2 & Hp). eauto.
Qed.

Lemma pipeline_getitem (df1 df2 df' : DataFrame) k :
  calculate_scores df1 = Ok df2 -> maintenance_system df2 = Ok df' ->
  k ∉ score_columns -> k ∉ wear_columns ->
  DF.getitem df' k = DF.getitem df1 k.
Proof.
  intros Hp2 Hp3 Hk1 Hk2. rewrite (maintenance_system_getitem _ _ _ Hp3 Hk2).
  apply (calculate_scores_getitem _ _ _ Hp2 Hk1).
Qed.


(** C2.  In every processed trip each clipped field of each sample stays
    within its declared bound: speed_increase in [-50,50], rpm_increase in
    [-5000,5000], and engine_stress, brake_wear, tire_wear and
    maintenance_urgency in [0,100].  The last bound rests on the
    classifier returning probabilities. *)
Theorem clipped_fields_within_bounds (df df' : DataFrame) :
  probabilities_valid ->
  pipeline df = Ok df' ->
  forall i v,
    (cell df' "speed_increase" i = Some v -> within (-50) 50 v) /\
    (cell df' "rpm_increase" i = Some v -> within (-5000) 5000 v) /\
    (cell df' "engine_stress" i = Some v -> within 0 100 v) /\
    (cell df' "brake_wear" i = Some v -> within 0 100 v) /\
    (cell df' "tire_wear" i = Some v -> within 0 100 v) /\
    (cell df' "maintenance_urgency" i = Some v -> within 0 100 v).
Proof.
  intros Hpv Hp i v. apply pipeline_Ok in Hp as (df1 & df2 & Hp1 & Hp2 & Hp3).
  destruct (process_data_bounds _ _ Hp1) as [Hsi Hri].
  destruct (maintenance_system_bounds _ _ Hp3) as (He & Hb & Ht).
  pose proof (maintenance_system_urgency _ _ Hpv Hp3) as Hu.
  pose proof (fun k => pipeline_getitem _ _ _ k Hp2 Hp3) as Hkeep.
  repeat split; intros Hc.
  - eapply (col_all_cell _ df'); [|exact Hc]. intros s Hs.
    rewrite Hkeep in Hs; [by apply Hsi|notin_columns..].
  - eapply (col_all_cell _ df'); [|exact Hc]. intros s Hs.
    rewrite Hkeep in Hs; [by apply Hri|notin_columns..].
  - exact (col_all_cell _ _ _ _ _ He Hc).
  - exact (col_all_cell _ _ _ _ _ Hb Hc).
  - exact (col_all_cell _ _ _ _ _ Ht Hc).
  - exact (col_all_cell _ _ _ _ _ Hu Hc).
Qed.

End Bounds.

Lemma stub_probabilities_valid : probabilities_valid (H := stub_sklearn).
Proof.
  intros X y P. simpl. destruct X as [|r X']; [done|]. intros [= <-].
  apply Forall_forall. intros row Hrow.
  apply (list_elem_of_fmap_1 _ (r :: X')) in Hrow as (? & -> & _).
  repeat first [apply Forall_cons_2 | apply Forall_nil_2]; simpl; lra.
Qed.

Lemma clipped_fields_within_bounds_witness :
  pipeline (H := stub_sklearn) example_trip = Ok example_processed /\
  within (-50) 50 (Fin (-40)).
Proof.
  split; [vm_compute; reflexivity|].
  refine (proj1 (clipped_fields_within_bounds (H := stub_sklearn)
            example_trip example_processed stub_probabilities_valid _ 2%nat (Fin (-40))) _);
  vm_compute; reflexivity.
Defined.

(** ** Required columns *)

Lemma labelled_map_columns f k df :
  DF.labelled k (DF.map_columns f df) = f <$> DF.labelled k df.
Proof.
  unfold DF.labelled, DF.map_columns; simpl.
  induction (columns df) as [|c cs IH]; [done|]. rewrite fmap_cons.
  destruct (decide (c.1 = k)) as [Hc|Hc].
  - rewrite !filter_cons_True by done. rewrite !fmap_cons. by rewrite IH.
  - by rewrite !filter_cons_False by done.
Qed.

Lemma labelled_lower_columns k df :
  ~ has_column k df -> DF.labelled k (DF.lower_columns df) = [].
Proof.
  unfold has_column, DF.labelled, DF.lower_columns; simpl.
  induction (columns df) as [|c cs IH]; [done|]. rewrite !fmap_cons.
  intros Hk. apply not_elem_of_cons in Hk as [Hc Hk].
  rewrite filter_cons_False by (simpl; congruence). by apply IH.
Qed.

Lemma getitem_missing k df :
  ~ has_column k df ->
  DF.getitem (DF.ffill (DF.bfill (DF.lower_columns df))) k = Raise (KeyError k).
Proof.
  intros Hk. unfold DF.getitem, DF.ffill, DF.bfill.
  rewrite !labelled_map_columns, labelled_lower_columns by done. done.
Qed.

Lemma getitem_error df k :
  (exists s, DF.getitem df k = Ok s) \/
  DF.getitem df k = Raise (KeyError k) \/ DF.getitem df k = Raise ValueError.
Proof. unfold DF.getitem. destruct (DF.labelled k df) as [|s [|? ?]]; eauto. Qed.

Section Schema.

Context `{Sklearn}.

(** C1.  When a required column (speed or rpm, after the labels are
    lowercased) is absent, [process_data] raises: a KeyError for the absent
    label (or the ValueError of a duplicated speed label, met first).  The
    exception reaches the caller's handler, which reports it and stops;
    the session keeps the frame it had, so no frame of this upload, whole
    or partial, is produced.  The spec calls this failure SchemaError. *)
Theorem missing_required_column_fails (df : DataFrame) :
  ~ has_column "speed" df \/ ~ has_column "rpm" df ->
  exists e,
    process_data df = Raise e /\
    (e = KeyError "speed" \/ e = KeyError "rpm" \/ e = ValueError) /\
    (~ has_column "speed" df -> e = KeyError "speed") /\
    forall session, main session (Some df) = mkRun session (Some e) true.
Proof.
  intros Hmiss.
  assert (exists e, process_data df = Raise e /\
            (e = KeyError "speed" \/ e = KeyError "rpm" \/ e = ValueError) /\
            (~ has_column "speed" df -> e = KeyError "speed"))
    as (e & He & Hkind & Hspeed).
  { unfold process_data. cbv zeta.
    set (df0 := DF.ffill (DF.bfill (DF.lower_columns df))).
    destruct (getitem_error df0 "speed") as [[s Hs]|[Hs|Hs]].
    - destruct Hmiss as [Hmiss|Hmiss].
      { unfold df0 in Hs. rewrite getitem_missing in Hs by done. done. }
      exists (KeyError "rpm"). rewrite Hs. simpl.
      rewrite getitem_setitem_ne by discriminate.
      unfold df0. rewrite getitem_missing by done. simpl.
      split; [done|]. split; [tauto|]. intros Hno.
      unfold df0 in Hs. rewrite getitem_missing in Hs by done. done.
    - exists (KeyError "speed"). rewrite Hs. simpl. tauto.
    - exists ValueError. rewrite Hs. simpl. split; [done|]. split; [tauto|].
      intros Hno. unfold df0 in Hs. rewrite getitem_missing in Hs by done. done. }
  exists e. repeat split; try done.
  intros session. unfold main, pipeline. rewrite He. done.
Qed.

End Schema.

Lemma missing_required_column_fails_witness :
  exists e,
    process_data no_rpm_trip = Raise e /\
    (e = KeyError "speed" \/ e = KeyError "rpm" \/ e = ValueError) /\
    (~ has_column "speed" no_rpm_trip -> e = KeyError "speed") /\
    forall session,
      main (H := stub_sklearn) session (Some no_rpm_trip) = mkRun session (Some e) true.
Proof.
  apply (missing_required_column_fails (H := stub_sklearn) no_rpm_trip).
  right. unfold has_column. simpl. intros Hin.
  apply list_elem_of_singleton in Hin. discriminate.
Defined.

Example no_rpm_trip_KeyError :
  process_data no_rpm_trip = Raise (KeyError "rpm").
Proof. reflexivity. Qed.

(** ** Recommendations *)

Section Recommendations.

Implicit Types (df : DataFrame) (k : string).

#[local] Arguments F.gt : simpl never.
#[local] Arguments format_1f : simpl never.

Lemma filter_label_row k n (cs : list (string * Series)) :
  filter (fun c : string * float64 => c.1 = k)
    ((fun c : string * Series => (c.1, c.2 !!! n)) <$> cs)
  = (fun c : string * Series => (c.1, c.2 !!! n)) <$>
      filter (fun c => c.1 = k) cs.
Proof.
  induction cs as [|c cs IH]; [done|]. rewrite fmap_cons.
  destruct (decide (c.1 = k)) as [Hk|Hk].
  - rewrite !filter_cons_True by done. rewrite fmap_cons. by rewrite IH.
  - by rewrite !filter_cons_False by (simpl; congruence).
Qed.

Lemma last_sample_row_get df k v :
  last_sample df k = Some v ->
  exists last, iloc_last df = Ok last /\ row_get last k = Ok v.
Proof.
  unfold last_sample, iloc_last. destruct (nrows df =? 0)%nat; [done|].
  intros Hc. eexists; split; [reflexivity|].
  unfold cell, DF.getitem, DF.labelled in Hc. unfold row_get.
  rewrite filter_label_row.
  destruct (filter _ (columns df)) as [|c [|c' r]]; simpl in *; try done.
  by rewrite (list_lookup_total_correct _ _ _ Hc).
Qed.

(** The whole recommendation, from the four fields of the last sample. *)
Lemma recommendations_spec df u e b t :
  last_sample df "maintenance_urgency" = Some u ->
  last_sample df "engine_stress" = Some e ->
  last_sample df "brake_wear" = Some b ->
  last_sample df "tire_wear" = Some t ->
  get_maintenance_recommendations df =
    Ok (mkRec
          (if F.gt u (Fin 75) then "red"
           else if F.gt u (Fin 50) then "orange" else "green")
          (if F.gt u (Fin 75) then "🚨"
           else if F.gt u (Fin 50) then "⚠️" else "✅")
          (action_for "Engine" 80
             ["Check coolant levels"; "Inspect oil quality"; "Clean air filters"] e ++
           action_for "Brakes" 60
             ["Measure pad thickness"; "Check fluid levels"; "Test ABS sensors"] b ++
           action_for "Tires" 70
             ["Check tread depth"; "Verify pressure"; "Inspect for damage"] t)).
Proof.
  intros Hu He Hb Ht.
  apply last_sample_row_get in Hu as (last & Hlast & Hu).
  apply last_sample_row_get in He as (l1 & H1 & He).
  apply last_sample_row_get in Hb as (l2 & H2 & Hb).
  apply last_sample_row_get in Ht as (l3 & H3 & Ht).
  rewrite Hlast in H1, H2, H3.
  injection H1 as <-. injection H2 as <-. injection H3 as <-.
  unfold get_maintenance_recommendations. rewrite Hlast. simpl.
  rewrite Hu. simpl. unfold action_for.
  destruct (F.gt u (Fin 75)); [|destruct (F.gt u (Fin 50))]; simpl;
    rewrite He; simpl; destruct (F.gt e (Fin 80)); simpl;
    rewrite ?He; simpl; rewrite Hb; simpl; destruct (F.gt b (Fin 60)); simpl;
    rewrite ?Hb; simpl; rewrite Ht; simpl; destruct (F.gt t (Fin 70)); simpl;
    rewrite ?Ht; simpl; reflexivity.
Qed.

(** C7.  The status of the recommendation follows the maintenance urgency
    of the last sample: "red" (the spec's critical) above 75, "orange"
    (warning) above 50 and up to 75, "green" (ok) otherwise. *)
Theorem status_follows_urgency df u e b t :
  last_sample df "maintenance_urgency" = Some u ->
  last_sample df "engine_stress" = Some e ->
  last_sample df "brake_wear" = Some b ->
  last_sample df "tire_wear" = Some t ->
  exists rec,
    get_maintenance_recommendations df = Ok rec /\
    (F.gt u (Fin 75) = true -> status rec = "red") /\
    (F.gt u (Fin 75) = false -> F.gt u (Fin 50) = true -> status rec = "orange") /\
    (F.gt u (Fin 50) = false -> status rec = "green").
Proof.
  intros Hu He Hb Ht. eexists. split; [by apply recommendations_spec|]. simpl.
  repeat split.
  - by intros ->.
  - by intros -> ->.
  - intros H50. rewrite H50. destruct (F.gt u (Fin 75)) eqn:H75; [|done].
    destruct u as [q| | |]; simpl in *; try done.
    apply negb_true_iff, Qle_bool_false in H75.
    apply negb_false_iff, Qle_bool_iff in H50. lra.
Qed.

(** C8.  The recommendation holds one action for each wear metric of the
    last sample above its threshold (engine_stress > 80, brake_wear > 60,
    tire_wear > 70) and no other; each names its component and carries its
    fixed checklist, and the order is engine, brakes, tires. *)
Theorem actions_follow_thresholds df u e b t :
  last_sample df "maintenance_urgency" = Some u ->
  last_sample df "engine_stress" = Some e ->
  last_sample df "brake_wear" = Some b ->
  last_sample df "tire_wear" = Some t ->
  exists rec,
    get_maintenance_recommendations df = Ok rec /\
    actions rec =
      (if F.gt e (Fin 80)
       then [mkAction "Engine" (format_1f e)
               ["Check coolant levels"; "Inspect oil quality"; "Clean air filters"]]
       else []) ++
      (if F.gt b (Fin 60)
       then [mkAction "Brakes" (format_1f b)
               ["Measure pad thickness"; "Check fluid levels"; "Test ABS sensors"]]
       else []) ++
      (if F.gt t (Fin 70)
       then [mkAction "Tires" (format_1f t)
               ["Check tread depth"; "Verify pressure"; "Inspect for damage"]]
       else []).
Proof.
  intros Hu He Hb Ht. eexists. split; [by apply recommendations_spec|].
  reflexivity.
Qed.

End Recommendations.

Lemma status_follows_urgency_witness :
  exists rec,
    get_maintenance_recommendations scenario = Ok rec /\
    (F.gt (Fin 80) (Fin 75) = true -> status rec = "red") /\
    (F.gt (Fin 80) (Fin 75) = false -> F.gt (Fin 80) (Fin 50) = true ->
     status rec = "orange") /\
    (F.gt (Fin 80) (Fin 50) = false -> status rec = "green").
Proof.
  apply (status_follows_urgency scenario (Fin 80) (Fin 85) (Fin 40) (Fin 10));
    reflexivity.
Defined.

(** The scenario of the spec: engine_stress 85, brake_wear 40, tire_wear 10
    and maintenance_urgency 80 give a single Engine action. *)
Lemma actions_follow_thresholds_witness :
  exists rec,
    get_maintenance_recommendations scenario = Ok rec /\
    actions rec =
      [mkAction "Engine" "85.0%"
         ["Check coolant levels"; "Inspect oil quality"; "Clean air filters"]].
Proof.
  apply (actions_follow_thresholds scenario (Fin 80) (Fin 85) (Fin 40) (Fin 10));
    reflexivity.
Defined.

Example scenario_recommendation :
  get_maintenance_recommendations scenario =
    Ok (mkRec "red" "🚨"
          [mkAction "Engine" "85.0%"
             ["Check coolant levels"; "Inspect oil quality"; "Clean air filters"]]).
Proof. reflexivity. Qed.

(** ** The shape of the score columns *)

Section Scores.

Context `{Sklearn}.

Lemma col_is_cell df k s i v :
  col_is df k s -> cell df k i = Some v -> s !! i = Some v.
Proof.
  unfold col_is, cell. intros Hs Hc.
  destruct (DF.getitem df k) as [c|]; [|done]. by rewrite <- (Hs c eq_refl).
Qed.

Lemma calculate_scores_shape df df' :
  calculate_scores df = Ok df' ->
  exists speed limit rpm thr speed_prev speed_increase rpm_increase flags,
    DF.getitem df "speed" = Ok speed /\
    DF.getitem df "dynamic_speed_limit" = Ok limit /\
    DF.getitem df "rpm" = Ok rpm /\
    DF.getitem df "idle_rpm_threshold" = Ok thr /\
    DF.getitem df "speed_prev" = Ok speed_prev /\
    DF.getitem df "speed_increase" = Ok speed_increase /\
    DF.getitem df "rpm_increase" = Ok rpm_increase /\
    let speeding :=
      S.fillna 0
        (S.where_ (S.div (F.mul (Fin (-10)) <$> S.sub speed limit) limit)
           (S.gt speed limit) 0) in
    let idle :=
      S.fillna 0
        (S.where_ (S.div (F.mul (Fin (-5)) <$> S.sub rpm thr) thr)
           (zip_with andb ((fun x => F.lt x (Fin 5)) <$> speed) (S.gt rpm thr)) 0) in
    let harsh := S.fillna 0 (harsh_braking <$> S.sub64 speed_prev speed) in
    let accel :=
      (fun m : bool => if m then Fin (-10) else Fin 0) <$>
        zip_with andb ((fun x => F.gt x (Fin 15)) <$> speed_increase)
                      ((fun x => F.gt x (Fin 750)) <$> rpm_increase) in
    let anomaly := (fun p : Z => if (p =? -1)%Z then Fin (-20) else Fin 0) <$> flags in
    col_is df' "speeding_score" speeding /\
    col_is df' "idle_score" idle /\
    col_is df' "harsh_braking_score" harsh /\
    col_is df' "acceleration_score" accel /\
    col_is df' "anomaly_score" anomaly /\
    col_is df' "total_score"
      (S.fillna 0 (row_sum (nrows df) [speeding; idle; harsh; accel; anomaly])).
Proof.
  intros Hc. unfold calculate_scores in Hc. cbv zeta in Hc. inv_bind Hc.
  injection Hc as <-. frame_simpl.
  do 8 eexists. repeat (split; [eassumption|]). cbv zeta.
  repeat split; intros c Hcol; frame_simpl; reflexivity.
Qed.

End Scores.

(** ** Rounding to a double *)

Lemma round_half_even_near (x : Q) :
  Qabs (inject_Z (round_half_even x) - x) <= 1 # 2.
Proof.
  unfold round_half_even.
  pose proof (Qfloor_le x) as Hlo. pose proof (Qlt_floor x) as Hhi.
  set (f := Qfloor x) in *.
  rewrite inject_Z_plus in Hhi. change (inject_Z 1) with 1 in Hhi.
  apply Qabs_case; intros _;
    destruct (Qcompare_spec (x - inject_Z f) (1 # 2)) as [E|E|E];
    try (destruct (Z.even f));
    rewrite ?inject_Z_plus; change (inject_Z 1) with 1; lra.
Qed.

(** The rounded value lies within half a unit in the last place of the
    exact one. *)
Lemma round64_near (q r : Q) :
  F.round64 q = Fin r ->
  Qabs (r - q) <= 2 ^ Z.max (F.ilog2 (Qabs q) - 52) (-1074) / 2.
Proof.
  unfold F.round64.
  set (e := Z.max (F.ilog2 (Qabs q) - 52) (-1074)).
  assert (0 < 2 ^ e) as Hpos by (apply Qpower_0_lt; lra).
  set (t := 2 ^ e) in *. clearbody t. clear e.
  assert (t / 2 == t * (1 # 2)) as Ehalf by field.
  destruct (Qeq_bool q 0) eqn:E0.
  - apply Qeq_bool_iff in E0. intros [= <-]. rewrite E0, Ehalf.
    apply Qabs_case; intros _; lra.
  - set (m := round_half_even (Qabs q / t)).
    pose proof (round_half_even_near (Qabs q / t)) as Hm. fold m in Hm.
    assert (Qabs (inject_Z m * t - Qabs q) <= t * (1 # 2)) as Hr.
    { assert (inject_Z m * t - Qabs q
              == (inject_Z m - Qabs q / t) * t) as -> by (field; lra).
      rewrite Qabs_Qmult, (Qabs_pos t) by lra.
      apply Qle_trans with ((1 # 2) * t); [|lra].
      apply Qmult_le_compat_r; [exact Hm|lra]. }
    destruct (Qle_bool (2 ^ 1024) _); [by destruct (Qle_bool 0 q)|].
    destruct (Qle_bool 0 q) eqn:Es; intros [= <-]; rewrite Qred_correct, Ehalf.
    + apply Qle_bool_iff in Es. by rewrite (Qabs_pos q) in Hr.
    + apply Qle_bool_false in Es. rewrite (Qabs_neg q) in Hr by lra.
      assert (- (inject_Z m * t) - q == - (inject_Z m * t - - q)) as ->
        by ring.
      by rewrite Qabs_opp.
Qed.

(** Samples of the rounding: a double is kept, a decimal goes to the
    nearest double, a tie goes to the even significand (half the smallest
    double to 0), and the result is an infinity past the largest double. *)
Example round64_samples :
  F.round64 double_10_3 = Fin double_10_3 /\
  F.round64 0.1 = Fin double_0_1 /\
  F.round64 (2 ^ 53 + 1) = Fin (2 ^ 53) /\
  F.round64 (2 ^ 53 + 3) = Fin (2 ^ 53 + 4) /\
  F.round64 (- (2 ^ (-1075))) = Fin 0 /\
  F.round64 (2 ^ 1024 - 2 ^ 970) = PInf /\
  F.round64 (- (2 ^ 1024)) = NInf.
Proof. repeat split; vm_compute; reflexivity. Qed.

(** ** Harsh braking *)

Lemma harsh_braking_Fin (a : Q) :
  exists q, harsh_braking (Fin a) = Fin q /\ q == harsh_braking_spec a.
Proof.
  unfold harsh_braking, harsh_braking_spec, F.gt, F.py_min, F.floordiv.
  set (f := inject_Z (Qfloor (a / 2.5))).
  destruct (Qlt_le_dec 10 a) as [Hgt|Hle].
  - apply flt_Fin in Hgt as ->.
    destruct (F.lt (Fin f) (Fin 15)) eqn:E; simpl; eexists; split; try reflexivity.
    + apply flt_Fin in E. rewrite Q.min_r; [reflexivity | by apply Qlt_le_weak].
    + apply flt_Fin_false in E. by rewrite Q.min_l.
  - apply flt_Fin_false in Hle as ->. by exists 0.
Qed.

Lemma harsh_braking_not_NaN x : harsh_braking x <> NaN.
Proof.
  unfold harsh_braking. destruct (F.gt x (Fin 10)); [|done].
  unfold F.py_min. destruct x as [a| | |]; simpl; try done.
  by destruct (negb _).
Qed.

Lemma fillna_not_NaN d x : x <> NaN -> F.fillna d x = x.
Proof. by destruct x. Qed.

Lemma harsh_column_lookup (sp s : Series) i p v h :
  sp !! i = Some p -> s !! i = Some v ->
  S.fillna 0 (harsh_braking <$> S.sub64 sp s) !! i = Some h ->
  h = harsh_braking (F.sub64 p v).
Proof.
  intros Hp Hv. unfold S.fillna, S.sub64.
  rewrite !list_lookup_fmap, lookup_zip_with, Hp, Hv. simpl.
  intros [= <-]. apply fillna_not_NaN, harsh_braking_not_NaN.
Qed.

Lemma harsh_braking_spec_compat (d d' : Q) :
  d == d' -> harsh_braking_spec d == harsh_braking_spec d'.
Proof.
  intros E. unfold harsh_braking_spec.
  destruct (Qlt_le_dec 10 d), (Qlt_le_dec 10 d'); try lra.
  by rewrite E.
Qed.

Section HarshBraking.

Context `{Sklearn}.

(** C4.  With delta = speed_prev - speed, the double that the subtraction
    gives, the harsh-braking score of a sample is
    [-min(15, floor(delta / 2.5))] when delta > 10 and 0 otherwise.  Where
    the difference of the two readings is itself a double (whole speeds,
    say), delta is that difference.  A sample whose delta is missing scores
    0, and an infinite delta scores -15 or 0 by its sign. *)
Theorem harsh_braking_score_formula (df df' : DataFrame) (i : nat)
    (p s h : float64) :
  calculate_scores df = Ok df' ->
  cell df' "speed_prev" i = Some p ->
  cell df' "speed" i = Some s ->
  cell df' "harsh_braking_score" i = Some h ->
  (forall delta, F.sub64 p s = Fin delta ->
     exists q, h = Fin q /\ q == harsh_braking_spec delta) /\
  (forall a b delta, p = Fin a -> s = Fin b ->
     F.round64 (a - b) = Fin delta -> delta == a - b ->
     exists q, h = Fin q /\ q == harsh_braking_spec (a - b)) /\
  (F.sub64 p s = NaN -> h = Fin 0) /\
  (F.sub64 p s = PInf -> h = Fin (-15)) /\
  (F.sub64 p s = NInf -> h = Fin 0).
Proof.
  intros Hc Hp Hs Hh.
  destruct (calculate_scores_shape _ _ Hc)
    as (speed & limit & rpm & thr & sp & si & ri & flags & Es & _ & _ & _ & Ep & _ & _ & Hcols).
  cbv zeta in Hcols. destruct Hcols as (_ & _ & Hharsh & _).
  unfold cell in Hp, Hs.
  rewrite (calculate_scores_getitem _ _ _ Hc) in Hp by notin_columns.
  rewrite (calculate_scores_getitem _ _ _ Hc) in Hs by notin_columns.
  rewrite Ep in Hp. rewrite Es in Hs.
  pose proof (col_is_cell _ _ _ _ _ Hharsh Hh) as Hrow.
  pose proof (harsh_column_lookup _ _ _ _ _ _ Hp Hs Hrow) as ->.
  split; [|split; [|split; [|split]]].
  - intros delta ->. apply harsh_braking_Fin.
  - intros a b delta -> -> Hround Hexact.
    change (F.sub64 (Fin a) (Fin b)) with (F.round64 (a - b)). rewrite Hround.
    destruct (harsh_braking_Fin delta) as (q & Hq & Eq).
    exists q. split; [done|]. rewrite Eq. by apply harsh_braking_spec_compat.
  - by intros ->.
  - by intros ->.
  - by intros ->.
Qed.

End HarshBraking.

(** The scenario of the spec: speed_prev = 60 and speed = 40 score -8. *)
Lemma harsh_braking_score_formula_witness :
  (forall delta, F.sub64 (Fin 60) (Fin 40) = Fin delta ->
     exists q, Fin (-8) = Fin q /\ q == harsh_braking_spec delta) /\
  (forall a b delta, Fin 60 = Fin a -> Fin 40 = Fin b ->
     F.round64 (a - b) = Fin delta -> delta == a - b ->
     exists q, Fin (-8) = Fin q /\ q == harsh_braking_spec (a - b)) /\
  (F.sub64 (Fin 60) (Fin 40) = NaN -> Fin (-8) = Fin 0) /\
  (F.sub64 (Fin 60) (Fin 40) = PInf -> Fin (-8) = Fin (-15)) /\
  (F.sub64 (Fin 60) (Fin 40) = NInf -> Fin (-8) = Fin 0).
Proof.
  refine (harsh_braking_score_formula (H := stub_sklearn)
            example_features example_scored 1 (Fin 60) (Fin 40) (Fin (-8)) _ _ _ _);
    vm_compute; reflexivity.
Defined.

Example harsh_braking_60_40 :
  F.sub64 (Fin 60) (Fin 40) = Fin 20 /\
  harsh_braking (F.sub64 (Fin 60) (Fin 40)) = Fin (-8) /\
  harsh_braking_spec (60 - 40) == -8.
Proof. repeat split; vm_compute; reflexivity. Qed.

(** The delta is the rounded difference.  The doubles nearest to 10.3 and
    0.3 differ by a little more than 10 and their difference rounds to 10:
    the sample scores 0 (the exact difference would score -4); those
    nearest to 12.6 and 0.1 give 12.5 and the score -5, and those nearest
    to 16.4 and 1.4 the double just below 15 and the score -5. *)
Example harsh_braking_rounded_delta :
  (exists df1 df2,
     process_data braking_10_3 = Ok df1 /\
     calculate_scores (H := stub_sklearn) df1 = Ok df2 /\
     cell df2 "harsh_braking_score" 1 = Some (Fin 0)) /\
  F.sub64 (Fin double_10_3) (Fin double_0_3) = Fin 10 /\
  harsh_braking (F.sub (Fin double_10_3) (Fin double_0_3)) = Fin (-4) /\
  F.sub64 (Fin double_12_6) (Fin double_0_1) = Fin (25 # 2) /\
  harsh_braking (F.sub64 (Fin double_12_6) (Fin double_0_1)) = Fin (-5) /\
  F.sub64 (Fin double_16_4) (Fin double_1_4)
    = Fin (8444249301319679 # 562949953421312) /\
  harsh_braking (F.sub64 (Fin double_16_4) (Fin double_1_4)) = Fin (-5).
Proof.
  split.
  - eexists _, _. split; [vm_compute; reflexivity|].
    split; vm_compute; reflexivity.
  - repeat split; vm_compute; reflexivity.
Qed.

(** ** Windows *)

Section Windows.

Implicit Types (P : float64 -> Prop) (s obs : list float64).

Lemma Forall_window P w i s : Forall P s -> Forall P (S.window w i s).
Proof. intros Hs. unfold S.window. by apply Forall_take, Forall_drop. Qed.

Lemma length_window w i s : (length (S.window w i s) <= w)%nat.
Proof. unfold S.window. rewrite length_take. lia. Qed.

Lemma Forall_known P s :
  Forall P s -> Forall P (filter (fun x => F.notna x = true) s).
Proof.
  intros Hs. apply Forall_forall. intros x Hx.
  apply list_elem_of_filter in Hx as [_ Hx].
  rewrite Forall_forall in Hs. by apply Hs.
Qed.

(** What each cell of a rolling aggregate is, given the cells it
    aggregates. *)
Lemma rolling_Forall P (R : float64 -> Prop) w minp agg s :
  Forall P s ->
  R NaN ->
  (forall obs, Forall P obs -> (length obs <= w)%nat -> R (agg obs)) ->
  Forall R (S.rolling w minp agg s).
Proof.
  intros Hs Hnan Hagg. apply Forall_lookup. intros i v.
  unfold S.rolling. rewrite list_lookup_imap.
  destruct (s !! i) as [x|]; [|done]. simpl. intros [= <-].
  case_match; [|done]. apply Hagg.
  - by apply Forall_known, Forall_window.
  - etransitivity; [apply length_filter|apply length_window].
Qed.

Lemma sum_from_within (obs : list float64) (a : Q) :
  Forall (within 0 1) obs ->
  exists q, foldl F.add (Fin a) obs = Fin q /\
            a <= q /\ q <= a + inject_Z (Z.of_nat (length obs)).
Proof.
  revert a. induction obs as [|x obs IH]; intros a Hobs.
  - exists a. simpl. split; [done|]. split; [lra|].
    change (inject_Z (Z.of_nat 0)) with 0. lra.
  - apply Forall_cons in Hobs as [Hx Hobs].
    destruct x as [q0| | |]; simpl in Hx; try done. destruct Hx as [H0 H1].
    destruct (IH (a + q0) Hobs) as (q & Hq & Hlo & Hhi).
    exists q. split; [exact Hq|]. split; [lra|].
    rewrite length_cons, Nat2Z.inj_succ, <- Z.add_1_r, inject_Z_plus.
    change (inject_Z 1) with 1. lra.
Qed.

Lemma sum_within_5 (obs : list float64) :
  Forall (within 0 1) obs -> (length obs <= 5)%nat -> within 0 5 (S.sum obs).
Proof.
  intros Hobs Hlen. destruct (sum_from_within obs 0 Hobs) as (q & Hq & Hlo & Hhi).
  unfold S.sum. rewrite Hq. simpl. split; [done|].
  assert (inject_Z (Z.of_nat (length obs)) <= 5).
  { change 5 with (inject_Z 5). rewrite <- Zle_Qle. lia. }
  lra.
Qed.

End Windows.

(** ** Brake wear *)

Lemma harsh_braking_range x : within (-15) 0 (harsh_braking x).
Proof.
  unfold harsh_braking. destruct (F.gt x (Fin 10)) eqn:Hgt; [|simpl; lra].
  destruct x as [a| | |]; try done.
  apply flt_Fin in Hgt. unfold F.floordiv, F.py_min.
  set (f := inject_Z (Qfloor (a / 2.5))).
  assert (0 <= f) as Hf.
  { unfold f. change 0 with (inject_Z 0). rewrite <- Zle_Qle.
    rewrite <- (Qfloor_Z 0). apply Qfloor_resp_le.
    change (inject_Z 0) with 0. apply Qle_shift_div_l; lra. }
  destruct (F.lt (Fin f) (Fin 15)) eqn:E; simpl.
  - apply flt_Fin in E. lra.
  - lra.
Qed.

Lemma brake_term_within h :
  within (-15) 0 h -> within 0 1 (F.div (F.abs h) (Fin 15)).
Proof.
  destruct h as [q| | |]; simpl; try done. intros [Hlo Hhi].
  assert (Qabs q <= 15) by (apply Qabs_Qle_condition; lra).
  pose proof (Qabs_nonneg q).
  split; [apply Qle_shift_div_l | apply Qle_shift_div_r]; lra.
Qed.

Lemma clip_within_narrow lo hi a b x :
  lo <= a -> b <= hi -> within a b x -> F.clip lo hi x = x.
Proof.
  destruct x as [q| | |]; simpl; try done. intros Ha Hb [Hq1 Hq2].
  unfold F.clip. simpl.
  assert (Qle_bool lo q = true) as -> by (apply Qle_bool_iff; lra).
  assert (Qle_bool q hi = true) as -> by (apply Qle_bool_iff; lra).
  done.
Qed.

Lemma brake_wear_column (harsh : list float64) :
  Forall (within (-15) 0) harsh ->
  Forall (within 0 5)
    (S.fillna 0
       (S.clip 0 100
          (S.rolling 5 1 S.sum ((fun x => F.div (F.abs x) (Fin 15)) <$> harsh)))).
Proof.
  intros Hh. unfold S.fillna, S.clip. rewrite <- list_fmap_compose.
  apply Forall_fmap.
  eapply Forall_impl.
  - apply (rolling_Forall (within 0 1) (fun v => v = NaN \/ within 0 5 v)).
    + apply Forall_fmap. eapply Forall_impl; [exact Hh|]. apply brake_term_within.
    + by left.
    + intros obs Hobs Hlen. right. by apply sum_within_5.
  - intros v [->|Hv]; simpl; [lra|].
    rewrite (clip_within_narrow 0 100 0 5) by (done || lra).
    by rewrite (fillna_within 0 5).
Qed.

Section BrakeWear.

Context `{Sklearn}.

#[local] Arguments F.gt : simpl never.
#[local] Arguments format_1f : simpl never.

Lemma calculate_scores_harsh_range df df' :
  calculate_scores df = Ok df' ->
  col_all (within (-15) 0) df' "harsh_braking_score".
Proof.
  intros Hc s Hs.
  destruct (calculate_scores_shape _ _ Hc)
    as (? & ? & ? & ? & ? & ? & ? & ? & _ & _ & _ & _ & _ & _ & _ & Hcols).
  cbv zeta in Hcols. destruct Hcols as (_ & _ & Hharsh & _).
  rewrite (Hharsh s Hs). unfold S.fillna. rewrite <- list_fmap_compose.
  apply Forall_fmap, Forall_true. intros d. simpl.
  rewrite fillna_not_NaN by apply harsh_braking_not_NaN.
  apply harsh_braking_range.
Qed.

Lemma maintenance_system_brake_wear df df' :
  col_all (within (-15) 0) df "harsh_braking_score" ->
  maintenance_system df = Ok df' ->
  col_all (within 0 5) df' "brake_wear".
Proof.
  intros Hh Hm. unfold maintenance_system in Hm. cbv zeta in Hm. inv_bind Hm.
  frame_simpl. intros s Hs. frame_simpl.
  apply brake_wear_column. by apply Hh.
Qed.

Lemma row_get_last P df k last v :
  col_all P df k -> iloc_last df = Ok last -> row_get last k = Ok v ->
  v = NaN \/ P v.
Proof.
  unfold iloc_last, row_get. destruct (nrows df =? 0)%nat; [done|].
  intros Hall [= <-]. rewrite filter_label_row.
  destruct (filter _ (columns df)) as [|c [|c' r]] eqn:E; simpl; try done.
  intros [= <-]. rewrite list_lookup_total_alt.
  destruct (c.2 !! _) as [v|] eqn:Ev; simpl; [right|by left].
  assert (DF.getitem df k = Ok c.2) as Hget.
  { unfold DF.getitem, DF.labelled. by rewrite E. }
  exact (Forall_lookup_1 _ _ _ _ (Hall _ Hget) Ev).
Qed.

(** C10.  Every sample of a processed trip has brake_wear at most 5: the
    window sums at most five terms |harsh_braking_score| / 15, each at
    most 1.  So brake_wear never passes its threshold of 60 and the
    recommendation of a processed trip has no Brakes action. *)
Theorem brake_wear_never_exceeds_5 (df df' : DataFrame) :
  pipeline df = Ok df' ->
  (forall i v, cell df' "brake_wear" i = Some v -> within 0 5 v) /\
  (forall rec, get_maintenance_recommendations df' = Ok rec ->
               forall a, a ∈ actions rec -> component a <> "Brakes").
Proof.
  intros Hp. apply pipeline_Ok in Hp as (df1 & df2 & Hp1 & Hp2 & Hp3).
  pose proof (maintenance_system_brake_wear _ _
                (calculate_scores_harsh_range _ _ Hp2) Hp3) as Hb.
  split.
  - intros i v Hc. exact (col_all_cell _ _ _ _ _ Hb Hc).
  - intros rec Hrec a Ha. unfold get_maintenance_recommendations in Hrec.
    apply bind_Ok in Hrec as (last & Hlast & Hrec).
    apply bind_Ok in Hrec as (u & Hu & Hrec).
    apply bind_Ok in Hrec as (rec0 & Hrec0 & Hrec).
    apply bind_Ok in Hrec as (acts & Hacts & Hrec).
    injection Hrec as <-. simpl in Ha.
    assert (actions rec0 = []) as Hnil.
    { clear -Hrec0. destruct (F.gt u (Fin 75)); [by injection Hrec0 as <-|].
      apply bind_Ok in Hrec0 as (u' & _ & Hrec0).
      destruct (F.gt u' (Fin 50)); by injection Hrec0 as <-. }
    rewrite Hnil in Hacts. clear Hrec0 Hnil Hu.
    simpl in Hacts.
    apply bind_Ok in Hacts as (e & He & Hacts).
    assert (forall acc,
              (forall a, a ∈ acc -> component a <> "Brakes") ->
              (b ← row_get last "brake_wear";
               if F.gt b (Fin 60)
               then v' ← row_get last "brake_wear";
                    component_actions last
                      [("tire_wear", ("Tires", 70,
                          ["Check tread depth"; "Verify pressure";
                           "Inspect for damage"]))]%string
                      (acc ++ [mkAction "Brakes" (format_1f v')
                                 ["Measure pad thickness"; "Check fluid levels";
                                  "Test ABS sensors"]])
               else component_actions last
                      [("tire_wear", ("Tires", 70,
                          ["Check tread depth"; "Verify pressure";
                           "Inspect for damage"]))]%string acc) = Ok acts ->
              component a <> "Brakes") as Hrest.
    { intros acc Hacc Hrun.
      apply bind_Ok in Hrun as (b & Hbv & Hrun).
      assert (F.gt b (Fin 60) = false) as Hle.
      { destruct (row_get_last _ _ _ _ _ Hb Hlast Hbv) as [->|Hw]; [done|].
        destruct b as [q| | |]; simpl in Hw; try done.
        apply flt_Fin_false. lra. }
      rewrite Hle in Hrun. simpl in Hrun.
      apply bind_Ok in Hrun as (t & Ht & Hrun).
      destruct (F.gt t (Fin 70)).
      - apply bind_Ok in Hrun as (t' & _ & Hrun). injection Hrun as <-.
        apply elem_of_app in Ha as [Ha|Ha]; [by apply Hacc|].
        apply list_elem_of_singleton in Ha as ->. done.
      - injection Hrun as <-. by apply Hacc. }
    destruct (F.gt e (Fin 80)).
    + apply bind_Ok in Hacts as (e' & _ & Hacts).
      eapply Hrest; [|exact Hacts]. intros a' Ha'.
      apply list_elem_of_singleton in Ha' as ->. done.
    + eapply Hrest; [|exact Hacts]. intros a' Ha'. by apply elem_of_nil in Ha'.
Qed.

End BrakeWear.

Lemma brake_wear_never_exceeds_5_witness :
  (forall i v, cell example_processed "brake_wear" i = Some v -> within 0 5 v) /\
  (forall rec, get_maintenance_recommendations example_processed = Ok rec ->
               forall a, a ∈ actions rec -> component a <> "Brakes").
Proof.
  apply (brake_wear_never_exceeds_5 (H := stub_sklearn) example_trip).
  vm_compute; reflexivity.
Defined.

(** ** Finite readings *)

Section Finite.

Implicit Types (x y : float64) (s obs : list float64).

Lemma finite_or_nan_neg x : finite_or_nan x -> finite_or_nan (F.neg x).
Proof. by destruct x. Qed.

Lemma finite_or_nan_add x y :
  finite_or_nan x -> finite_or_nan y -> finite_or_nan (F.add x y).
Proof. by destruct x, y. Qed.

Lemma finite_or_nan_sub x y :
  finite_or_nan x -> finite_or_nan y -> finite_or_nan (F.sub x y).
Proof. by destruct x, y. Qed.

Lemma finite_or_nan_mul x y :
  finite_or_nan x -> finite_or_nan y -> finite_or_nan (F.mul x y).
Proof. by destruct x, y. Qed.

Lemma fillna_is_fin d x : finite_or_nan x -> is_fin (F.fillna d x).
Proof. by destruct x. Qed.

Lemma is_fin_finite_or_nan x : is_fin x -> finite_or_nan x.
Proof. by destruct x. Qed.

Lemma Forall_bfill s : Forall finite_or_nan s -> Forall finite_or_nan (S.bfill s).
Proof.
  induction 1 as [|x s Hx Hs IH]; simpl; [done|].
  apply Forall_cons; split; [|done].
  destruct (F.isna x); [|done]. by destruct IH.
Qed.

Lemma Forall_ffill_from last s :
  finite_or_nan last -> Forall finite_or_nan s ->
  Forall finite_or_nan (S.ffill_from last s).
Proof.
  intros Hl Hs. revert last Hl.
  induction Hs as [|x s Hx Hs IH]; intros last Hl; simpl; [done|].
  assert (finite_or_nan (if F.isna x then last else x)) by by destruct (F.isna x).
  apply Forall_cons; split; [done|]. by apply IH.
Qed.

Lemma Forall_ffill s : Forall finite_or_nan s -> Forall finite_or_nan (S.ffill s).
Proof. by apply Forall_ffill_from. Qed.

Lemma Forall_insert_sorted (P : float64 -> Prop) x obs :
  P x -> Forall P obs -> Forall P (S.insert_sorted x obs).
Proof.
  intros Hx. induction 1 as [|y obs Hy Hobs IH]; simpl.
  - by apply Forall_singleton.
  - destruct (F.le x y); repeat (apply Forall_cons; split); done.
Qed.

Lemma Forall_sort (P : float64 -> Prop) obs : Forall P obs -> Forall P (S.sort obs).
Proof.
  induction 1 as [|x obs Hx Hobs IH]; simpl; [done|].
  by apply Forall_insert_sorted.
Qed.

Lemma lookup_total_finite_or_nan s i :
  Forall finite_or_nan s -> finite_or_nan (s !!! i).
Proof.
  intros Hs. rewrite list_lookup_total_alt.
  destruct (s !! i) as [x|] eqn:E; simpl; [|done].
  exact (Forall_lookup_1 _ _ _ _ Hs E).
Qed.

Lemma quantile_finite_or_nan p obs :
  Forall finite_or_nan obs -> finite_or_nan (S.quantile p obs).
Proof.
  intros Hobs. unfold S.quantile. cbv zeta.
  pose proof (Forall_sort _ _ Hobs) as Hsorted.
  destruct (Qeq_bool _ _).
  - by apply lookup_total_finite_or_nan.
  - apply finite_or_nan_add; [by apply lookup_total_finite_or_nan|].
    apply finite_or_nan_mul; [|done].
    apply finite_or_nan_sub; by apply lookup_total_finite_or_nan.
Qed.

Lemma rolling_quantile_fillna w minp p d s :
  Forall finite_or_nan s ->
  Forall is_fin (S.fillna d (S.rolling w minp (S.quantile p) s)).
Proof.
  intros Hs. unfold S.fillna. apply Forall_fmap.
  eapply Forall_impl; [|intros x; apply fillna_is_fin].
  apply (rolling_Forall finite_or_nan); [done..|].
  intros obs Hobs _. by apply quantile_finite_or_nan.
Qed.

Lemma Forall_snd_zip {A B} (P : B -> Prop) (a : list A) (b : list B) :
  Forall P b -> Forall P (zip a b).*2.
Proof.
  intros Hb. revert a. induction Hb as [|y b Hy Hb IH]; intros [|x a]; simpl; try done.
  apply Forall_cons; split; [done|]. apply IH.
Qed.

Lemma at_label_Forall (P : float64 -> Prop) i (ix : list (nat * float64)) :
  P NaN -> Forall P ix.*2 -> P (S.at_label i ix).
Proof.
  intros Hnan. induction ix as [|[j x] ix IH]; simpl; [done|].
  intros Hix. apply Forall_cons in Hix as [Hx Hix].
  destruct (Nat.eqb i j); [done|]. by apply IH.
Qed.

Lemma align_Forall (P : float64 -> Prop) n (ix : list (nat * float64)) :
  P NaN -> Forall P ix.*2 -> Forall P (S.align n ix).
Proof.
  intros Hnan Hix. unfold S.align. apply Forall_fmap, Forall_true.
  intros i. simpl. by apply at_label_Forall.
Qed.

End Finite.

Section FiniteFrames.

Implicit Types (df : DataFrame) (k : string).

Lemma Forall_loc_from (P : float64 -> Prop) i (mask : list bool) (s : list float64) :
  Forall P s -> Forall P (S.loc_from i mask s).*2.
Proof.
  intros Hs. revert i mask.
  induction Hs as [|x s Hx Hs IH]; intros i [|b mask]; simpl; try done.
  rewrite fmap_app. apply Forall_app; split; [|apply IH].
  destruct b; simpl; [by apply Forall_singleton|done].
Qed.

Lemma finite_input_labelled df k :
  finite_input df ->
  Forall (Forall finite_or_nan)
    (DF.labelled k (DF.ffill (DF.bfill (DF.lower_columns df)))).
Proof.
  intros Hfin. unfold DF.ffill, DF.bfill. rewrite !labelled_map_columns.
  rewrite <- list_fmap_compose. apply Forall_fmap.
  unfold DF.labelled, DF.lower_columns; simpl.
  unfold finite_input in Hfin.
  induction Hfin as [|c cs Hc Hcs IH]; [done|]. rewrite fmap_cons.
  destruct (decide (lower c.1 = k)) as [Hk|Hk].
  - rewrite filter_cons_True by done. rewrite fmap_cons.
    apply Forall_cons; split; [|exact IH]. simpl.
    by apply Forall_ffill, Forall_bfill.
  - by rewrite filter_cons_False by done.
Qed.

Lemma finite_input_getitem df k s :
  finite_input df ->
  DF.getitem (DF.ffill (DF.bfill (DF.lower_columns df))) k = Ok s ->
  Forall finite_or_nan s.
Proof.
  intros Hfin. unfold DF.getitem.
  pose proof (finite_input_labelled df k Hfin) as Hall.
  destruct (DF.labelled k _) as [|s' [|? ?]]; try done.
  intros [= <-]. by apply Forall_cons in Hall as [? _].
Qed.

(** The feature columns the scores read, for finite readings. *)
Lemma process_data_finite df df' :
  finite_input df -> process_data df = Ok df' ->
  col_all finite_or_nan df' "speed" /\
  col_all finite_or_nan df' "rpm" /\
  col_all is_fin df' "dynamic_speed_limit" /\
  col_all finite_or_nan df' "idle_rpm_threshold".
Proof.
  intros Hfin Hp. unfold process_data in Hp. cbv zeta in Hp. inv_bind Hp.
  injection Hp as <-. frame_simpl.
  pose proof (finite_input_getitem _ _ _ Hfin E) as Hspeed.
  pose proof (finite_input_getitem _ _ _ Hfin E0) as Hrpm.
  repeat split; intros s Hs; frame_simpl.
  - done.
  - done.
  - by apply rolling_quantile_fillna.
  - apply align_Forall; [done|]. unfold S.on_values.
    apply Forall_snd_zip.
    eapply Forall_impl; [|apply is_fin_finite_or_nan].
    unfold S.fillna. apply Forall_fmap.
    eapply Forall_impl; [|intros y; apply fillna_is_fin].
    apply Forall_ffill.
    apply (rolling_Forall finite_or_nan); [|done|].
    + by apply Forall_loc_from.
    + intros obs Hobs _. by apply quantile_finite_or_nan.
Qed.

End FiniteFrames.

(** ** Speeding and idling penalties *)

Section Penalties.

Implicit Types (s l r t v : float64).

Lemma penalty_fin_or_ninf k x t :
  k < 0 -> F.gt x t = true -> finite_or_nan x -> finite_or_nan t ->
  fin_or_ninf (penalty k x t).
Proof.
  intros Hk Hgt Hx Ht. destruct x as [a| | |], t as [b| | |]; try done.
  apply flt_Fin in Hgt. unfold penalty. simpl.
  destruct (Qeq_bool b 0); [|done].
  unfold F.signed_inf.
  assert (k * (a + - b) < 0) as Hlt by nra.
  assert ((k * (a + - b) ?= 0) = Lt) as Hneg by (by apply Qlt_alt).
  by rewrite Hneg.
Qed.

Lemma fillna_fin_or_ninf d v : fin_or_ninf v -> F.fillna d v = v.
Proof. by destruct v. Qed.

Lemma speeding_lookup (speed limit : list float64) i v :
  S.fillna 0
    (S.where_ (S.div (F.mul (Fin (-10)) <$> S.sub speed limit) limit)
       (S.gt speed limit) 0) !! i = Some v ->
  exists s l, speed !! i = Some s /\ limit !! i = Some l /\
    v = F.fillna 0 (if F.gt s l then penalty (-10) s l else Fin 0).
Proof.
  unfold S.fillna, S.where_, S.div, S.sub, S.gt.
  rewrite list_lookup_fmap, !lookup_zip_with, list_lookup_fmap, !lookup_zip_with.
  destruct (speed !! i) as [s|]; [|done].
  destruct (limit !! i) as [l|]; [|done]. simpl.
  intros [= <-]. by exists s, l.
Qed.

Lemma idle_lookup (speed rpm thr : list float64) i v :
  S.fillna 0
    (S.where_ (S.div (F.mul (Fin (-5)) <$> S.sub rpm thr) thr)
       (zip_with andb ((fun x => F.lt x (Fin 5)) <$> speed) (S.gt rpm thr)) 0) !! i
    = Some v ->
  exists s r t, speed !! i = Some s /\ rpm !! i = Some r /\ thr !! i = Some t /\
    v = F.fillna 0 (if F.lt s (Fin 5) && F.gt r t then penalty (-5) r t else Fin 0).
Proof.
  unfold S.fillna, S.where_, S.div, S.sub, S.gt.
  rewrite list_lookup_fmap, !lookup_zip_with, !list_lookup_fmap, !lookup_zip_with.
  destruct (rpm !! i) as [r|]; [|done].
  destruct (thr !! i) as [t|]; [|done]. simpl.
  destruct (speed !! i) as [s|]; [|done]. simpl.
  intros [= <-]. by exists s, r, t.
Qed.

Lemma speeding_value s l :
  finite_or_nan s -> finite_or_nan l ->
  let v := F.fillna 0 (if F.gt s l then penalty (-10) s l else Fin 0) in
  v = (if F.gt s l then penalty (-10) s l else Fin 0) /\ fin_or_ninf v.
Proof.
  intros Hs Hl. cbv zeta. destruct (F.gt s l) eqn:Hgt; [|done].
  assert (fin_or_ninf (penalty (-10) s l)) as Hp by (apply penalty_fin_or_ninf; done).
  by rewrite fillna_fin_or_ninf.
Qed.


Lemma penalty_speeding_spec a b :
  ~ b == 0 ->
  exists q, (if F.gt (Fin a) (Fin b) then penalty (-10) (Fin a) (Fin b) else Fin 0) = Fin q /\
            q == speeding_spec a b.
Proof.
  intros Hb. unfold speeding_spec, penalty, F.gt.
  destruct (Qlt_le_dec b a) as [Hlt|Hle].
  - apply flt_Fin in Hlt as ->. simpl.
    destruct (Qeq_bool b 0) eqn:E; [by apply Qeq_bool_iff in E|].
    eexists; split; [reflexivity|]. unfold Qminus. reflexivity.
  - apply flt_Fin_false in Hle as ->. by exists 0.
Qed.

End Penalties.

Section Speeding.

Context `{Sklearn}.

(** C5.  The speeding score of a sample is
    [-10 * (speed - limit) / limit] when the speed is above the dynamic
    speed limit and 0 otherwise.  So on a trip whose speed is constant and
    at or below the limit throughout, every sample scores 0. *)
Theorem speeding_score_formula (df df' : DataFrame) :
  finite_input df ->
  pipeline df = Ok df' ->
  (forall i s l v,
     cell df' "speed" i = Some s ->
     cell df' "dynamic_speed_limit" i = Some l ->
     cell df' "speeding_score" i = Some v ->
     v = (if F.gt s l then penalty (-10) s l else Fin 0) /\
     (forall a b, s = Fin a -> l = Fin b -> ~ b == 0 ->
        exists q, v = Fin q /\ q == speeding_spec a b)) /\
  (forall c,
     (forall i s, cell df' "speed" i = Some s -> s = Fin c) ->
     (forall i l, cell df' "dynamic_speed_limit" i = Some l -> F.le (Fin c) l = true) ->
     forall i v, cell df' "speeding_score" i = Some v -> v = Fin 0).
Proof.
  intros Hfin Hp. apply pipeline_Ok in Hp as (df1 & df2 & Hp1 & Hp2 & Hp3).
  destruct (process_data_finite _ _ Hfin Hp1) as (Hspeed & _ & Hlimit & _).
  destruct (calculate_scores_shape _ _ Hp2)
    as (speed & limit & rpm & thr & sp & si & ri & flags
        & Es & El & _ & _ & _ & _ & _ & Hcols).
  cbv zeta in Hcols. destruct Hcols as (Hscore & _).
  assert (DF.getitem df' "speed" = Ok speed) as Es'.
  { rewrite (pipeline_getitem _ _ _ _ Hp2 Hp3) by notin_columns. exact Es. }
  assert (DF.getitem df' "dynamic_speed_limit" = Ok limit) as El'.
  { rewrite (pipeline_getitem _ _ _ _ Hp2 Hp3) by notin_columns. exact El. }
  assert (forall i v, cell df' "speeding_score" i = Some v ->
            exists s l, speed !! i = Some s /\ limit !! i = Some l /\
              v = (if F.gt s l then penalty (-10) s l else Fin 0)) as Hrow.
  { intros i v Hv. unfold cell in Hv.
    rewrite (maintenance_system_getitem _ _ _ Hp3) in Hv by notin_columns.
    pose proof (col_is_cell _ _ _ _ _ Hscore Hv) as Hl.
    apply speeding_lookup in Hl as (s & l & Hs & Hl & ->).
    exists s, l. split; [done|]. split; [done|].
    apply speeding_value.
    - exact (Forall_lookup_1 _ _ _ _ (Hspeed _ Es) Hs).
    - apply is_fin_finite_or_nan. exact (Forall_lookup_1 _ _ _ _ (Hlimit _ El) Hl). }
  split.
  - intros i s l v Hs Hl Hv.
    rewrite (cell_getitem _ _ _ _ Es') in Hs.
    rewrite (cell_getitem _ _ _ _ El') in Hl.
    destruct (Hrow i v Hv) as (s' & l' & Hs' & Hl' & ->).
    rewrite Hs in Hs'. rewrite Hl in Hl'.
    injection Hs' as <-. injection Hl' as <-.
    split; [done|]. intros a b -> -> Hb. by apply penalty_speeding_spec.
  - intros c Hconst Hbelow i v Hv.
    destruct (Hrow i v Hv) as (s & l & Hs & Hl & ->).
    rewrite <- (cell_getitem _ _ _ _ Es') in Hs.
    rewrite <- (cell_getitem _ _ _ _ El') in Hl.
    rewrite (Hconst i s Hs). specialize (Hbelow i l Hl).
    assert (F.gt (Fin c) l = false) as ->; [|done].
    destruct l; simpl in *; try done. by apply negb_true_iff in Hbelow.
Qed.

End Speeding.

Lemma speeding_score_formula_witness :
  finite_input cruise_trip /\
  pipeline (H := stub_sklearn) cruise_trip = Ok cruise_processed /\
  forall i v, cell cruise_processed "speeding_score" i = Some v -> v = Fin 0.
Proof.
  assert (finite_input cruise_trip) as Hfin.
  { repeat first [apply Forall_cons_2 | apply Forall_nil_2]; exact I. }
  assert (pipeline (H := stub_sklearn) cruise_trip = Ok cruise_processed) as Hp
    by (vm_compute; reflexivity).
  split; [exact Hfin|]. split; [exact Hp|].
  apply (proj2 (speeding_score_formula (H := stub_sklearn)
                  cruise_trip cruise_processed Hfin Hp) 50).
  - intros [|[|[|i]]] s; vm_compute; intros E;
      first [discriminate E | injection E as <-; reflexivity].
  - intros [|[|[|i]]] l; vm_compute; intros E;
      first [discriminate E | injection E as <-; reflexivity].
Defined.

(** A sample above the default limit: 90 against 80 scores
    -10 * (90 - 80) / 80. *)
Example speeding_90 :
  match pipeline (H := stub_sklearn)
          (mkFrame 1 [("speed", [Fin 90]); ("rpm", [Fin 2500])]) with
  | Ok df => cell df "speeding_score" 0
  | Raise _ => None
  end = Some (Fin (-100 # 80)).
Proof. vm_compute. reflexivity. Qed.

(** ** Total score *)

Section Total.

Context `{Sklearn}.








End Total.


(** ** The idle threshold *)

Section IdleThreshold.

Lemma loc_from_labels j (mask : list bool) (s : list float64) k :
  k ∈ (S.loc_from j mask s).*1 ->
  exists d, k = (j + d)%nat /\ mask !! d = Some true.
Proof.
  revert j s. induction mask as [|b mask IH]; intros j [|x s]; simpl;
    try (intros Hk; by apply elem_of_nil in Hk).
  rewrite fmap_app. intros Hk. apply elem_of_app in Hk as [Hk|Hk].
  - destruct b; simpl in Hk; [|by apply elem_of_nil in Hk].
    apply list_elem_of_singleton in Hk as ->. exists 0%nat. split; [lia|done].
  - apply IH in Hk as (d & -> & Hd). exists (S d). split; [lia|done].
Qed.

Lemma at_label_absent i (ix : list (nat * float64)) :
  i ∉ ix.*1 -> S.at_label i ix = NaN.
Proof.
  induction ix as [|[j x] ix IH]; simpl; [done|].
  intros Hi. apply not_elem_of_cons in Hi as [Hne Hi].
  destruct (Nat.eqb_spec i j); [done|]. by apply IH.
Qed.

Lemma fst_zip_subseteq {A B} (a : list A) (b : list B) x :
  x ∈ (zip a b).*1 -> x ∈ a.
Proof.
  revert b. induction a as [|y a IH]; intros [|z b]; simpl;
    try (intros Hx; by apply elem_of_nil in Hx).
  intros Hx. apply elem_of_cons in Hx as [->|Hx]; [by left|].
  right. by eapply IH.
Qed.

(** The threshold column has a value only on the rows the idle mask
    selects: the fills run on the selection, before the assignment aligns
    it with the frame. *)
Lemma idle_threshold_missing_off_mask (df df' : DataFrame) i s v :
  process_data df = Ok df' ->
  cell df' "speed" i = Some s -> F.lt s (Fin 5) = false ->
  cell df' "idle_rpm_threshold" i = Some v ->
  v = NaN.
Proof.
  intros Hp Hs Hmoving Hv. unfold process_data in Hp. cbv zeta in Hp.
  inv_bind Hp. injection Hp as <-. frame_simpl.
  unfold cell in Hs. rewrite !getitem_setitem_ne in Hs by discriminate.
  rewrite E in Hs.
  apply cell_setitem_eq in Hv. unfold S.align in Hv.
  rewrite list_lookup_fmap in Hv.
  destruct (seq 0 _ !! i) as [j|] eqn:Ej; [|done].
  apply lookup_seq in Ej as [-> _]. simpl in Hv. injection Hv as <-.
  apply at_label_absent. intros Hin.
  unfold S.on_values in Hin. apply fst_zip_subseteq in Hin.
  apply loc_from_labels in Hin as (d & -> & Hd). simpl in Hs.
  rewrite list_lookup_fmap, Hs in Hd. simpl in Hd. congruence.
Qed.

End IdleThreshold.

(** C6 (the code departs from it).  After ten idle samples the windowed
    threshold is 800; on the next sample, which is on the move, the column
    is missing instead of carrying 800 forward.  A single moving sample has
    a missing threshold instead of the default 1500. *)
Theorem idle_threshold_not_carried_forward :
  (exists df q,
     process_data idle_then_moving = Ok df /\
     cell df "idle_rpm_threshold" 8 = Some (Fin 1500) /\
     cell df "idle_rpm_threshold" 9 = Some (Fin q) /\ q == 800 /\
     cell df "idle_rpm_threshold" 10 = Some NaN) /\
  (exists df,
     process_data moving_sample = Ok df /\
     cell df "idle_rpm_threshold" 0 = Some NaN).
Proof.
  split.
  - eexists _, _. split; [vm_compute; reflexivity|].
    repeat split; vm_compute; reflexivity.
  - eexists. split; [vm_compute; reflexivity|]. reflexivity.
Qed.

(** ** Maintenance urgency *)

Lemma nrows_setitem (df : DataFrame) k s : nrows (DF.setitem df k s) = nrows df.
Proof. reflexivity. Qed.

Section Urgency.

Context `{Sklearn}.

Lemma column_of_lookup j (m : list (list float64)) p i v :
  column_of j m = Ok p -> p !! i = Some v ->
  exists row, m !! i = Some row /\ row !! j = Some v.
Proof.
  unfold column_of. destruct (forallb _ m) eqn:E; [|done].
  intros [= <-]. rewrite list_lookup_fmap.
  destruct (m !! i) as [row|] eqn:Erow; [|done]. simpl. intros [= <-].
  exists row. split; [done|].
  rewrite forallb_forall in E. specialize (E row).
  rewrite <- list_elem_of_In in E.
  specialize (E (list_elem_of_lookup_2 _ _ _ Erow)).
  apply Nat.ltb_lt in E. apply lookup_lt_is_Some in E as [x Hx].
  by rewrite (list_lookup_total_correct _ _ _ Hx).
Qed.

Lemma maintenance_system_shape df df' :
  maintenance_system df = Ok df' ->
  exists es bw tw P p1,
    DF.getitem df' "engine_stress" = Ok es /\
    DF.getitem df' "brake_wear" = Ok bw /\
    DF.getitem df' "tire_wear" = Ok tw /\
    RandomForestClassifier_predict_proba
      (rows_of (nrows df') [S.fillna 0 es; S.fillna 0 bw; S.fillna 0 tw])
      (np_random_randint (nrows df')) = Ok P /\
    column_of 1 P = Ok p1 /\
    col_is df' "maintenance_urgency" ((fun p => F.mul p (Fin 100)) <$> p1).
Proof.
  intros Hm. unfold maintenance_system in Hm. cbv zeta in Hm. inv_bind Hm.
  apply setitem_array_Ok in Hm. subst df'.
  exists x3, x4, x5, x6, x7. rewrite !nrows_setitem in *.
  repeat match goal with
         | E : context [DF.getitem (DF.setitem _ ?k _) ?k'] |- _ =>
             rewrite (getitem_setitem_ne _ k k') in E by discriminate
         end.
  repeat (split; [try rewrite !getitem_setitem_ne by discriminate; assumption|]).
  intros c Hc. by apply getitem_setitem_eq in Hc.
Qed.

End Urgency.

(** C9 (the code departs from it).  [maintenance_system] takes no label
    vector: it fits the forest on labels it draws itself (the comment of
    line 140 asks to replace them with real labels) and reports the
    probability it gets.  A trip processed without any label vector gets a
    number, here 50 on every sample, and not the unavailable marker. *)
Theorem urgency_reported_without_labels :
  pipeline (H := stub_sklearn) example_trip = Ok example_processed /\
  cell example_processed "maintenance_urgency" 2 = Some (Fin (100 # 2)) /\
  ~ urgency_unavailable example_processed.
Proof.
  split; [vm_compute; reflexivity|]. split; [reflexivity|].
  intros Hun. specialize (Hun 2%nat (Fin (100 # 2)) eq_refl). discriminate Hun.
Qed.

(** ** Well-formed frames *)

Section WellFormed.

Implicit Types (df : DataFrame) (k : string) (s : list float64).

Lemma length_bfill s : length (S.bfill s) = length s.
Proof. induction s as [|x s IH]; simpl; [done|]. by rewrite IH. Qed.

Lemma length_ffill_from last s : length (S.ffill_from last s) = length s.
Proof. revert last. induction s as [|x s IH]; intros last; simpl; [done|]. by rewrite IH. Qed.

Lemma length_shift1 s : length (S.shift1 s) = length s.
Proof. unfold S.shift1. rewrite length_take. simpl. lia. Qed.

Lemma length_rolling w minp agg s : length (S.rolling w minp agg s) = length s.
Proof. unfold S.rolling. apply length_imap. Qed.

Lemma well_formed_getitem df k s :
  well_formed df -> DF.getitem df k = Ok s -> length s = nrows df.
Proof.
  unfold well_formed, DF.getitem, DF.labelled. intros Hwf.
  destruct (filter _ (columns df)) as [|c [|? ?]] eqn:E; simpl; try done.
  intros [= <-]. rewrite Forall_forall in Hwf. apply Hwf.
  eapply (list_elem_of_filter (fun c => c.1 = k)). rewrite E. by left.
Qed.

Lemma well_formed_prepared df :
  well_formed df -> well_formed (DF.ffill (DF.bfill (DF.lower_columns df))).
Proof.
  unfold well_formed, DF.ffill, DF.bfill, DF.map_columns, DF.lower_columns; simpl.
  intros Hwf. rewrite <- !list_fmap_compose. apply Forall_fmap.
  eapply Forall_impl; [exact Hwf|]. intros c Hc. simpl.
  unfold S.ffill. by rewrite length_ffill_from, length_bfill.
Qed.

Lemma getitem_setitem_new df k k' s :
  DF.getitem df k = Raise (KeyError k') -> DF.getitem (DF.setitem df k s) k = Ok s.
Proof.
  unfold DF.getitem, DF.setitem, DF.labelled; simpl.
  destruct (filter _ (columns df)) as [|c [|? ?]] eqn:E; simpl; try done.
  intros _. rewrite filter_app, E. simpl.
  by rewrite filter_cons_True.
Qed.

Lemma last_sample_getitem df k s :
  nrows df <> 0%nat -> DF.getitem df k = Ok s -> length s = nrows df ->
  exists v, last_sample df k = Some v.
Proof.
  intros Hn Hs Hlen. unfold last_sample, cell.
  destruct (Nat.eqb_spec (nrows df) 0); [done|]. rewrite Hs.
  apply lookup_lt_is_Some. lia.
Qed.

End WellFormed.

(** ** Recommendation of a processed trip *)

Section Totality.

Context `{Sklearn}.

Implicit Types (df : DataFrame) (k : string) (s : list float64).

Lemma well_formed_setitem df k s :
  well_formed df -> length s = nrows df -> well_formed (DF.setitem df k s).
Proof.
  unfold well_formed, DF.setitem. intros Hwf Hs. simpl.
  destruct (DF.labelled k df).
  - apply Forall_app; split; [done|]. by apply Forall_singleton.
  - unfold DF.replace_label. apply Forall_fmap.
    eapply Forall_impl; [exact Hwf|]. intros c Hc. simpl. by case_decide.
Qed.

Lemma well_formed_df_get df k d s :
  well_formed df -> df_get df k d = Ok (Column s) -> length s = nrows df.
Proof.
  intros Hwf Hget. apply (well_formed_getitem df k); [done|].
  unfold df_get in Hget. unfold DF.getitem.
  destruct (DF.labelled k df) as [|? [|? ?]]; try done. by injection Hget as ->.
Qed.

Lemma setitem_array_length df k a df' :
  DF.setitem_array df k a = Ok df' -> length a = nrows df.
Proof.
  unfold DF.setitem_array. destruct (Nat.eqb_spec (length a) (nrows df)); done.
Qed.

(** Lengths of the series the stages build, in terms of their sources. *)
Ltac series_length :=
  unfold S.fillna, S.clip, S.sub, S.sub64, S.mul, S.div, S.gt, S.where_, S.align,
    S.on_values, row_sum, rows_of;
  repeat first
    [ rewrite length_fmap | rewrite length_zip_with | rewrite length_rolling
    | rewrite length_bfill | rewrite length_shift1 | rewrite length_seq ];
  cbn [nrows DF.setitem DF.ffill DF.bfill DF.map_columns DF.lower_columns] in *;
  try lia.

(** Record the length of every column read from a well-formed frame. *)
Ltac read_lengths Hwf :=
  repeat match goal with
    | E : DF.getitem ?d ?k = Ok ?x |- _ =>
        lazymatch goal with
        | _ : length x = _ |- _ => fail
        | _ => pose proof (well_formed_getitem d k x Hwf E)
        end
    end.

Lemma process_data_well_formed df df' :
  well_formed df -> process_data df = Ok df' ->
  well_formed df' /\ nrows df' = nrows df.
Proof.
  intros Hwf Hp. apply well_formed_prepared in Hwf.
  unfold process_data in Hp. cbv zeta in Hp. inv_bind Hp.
  injection Hp as <-. frame_simpl. read_lengths Hwf.
  split; [|reflexivity].
  repeat (apply well_formed_setitem; [|series_length]). exact Hwf.
Qed.

Lemma process_data_getitem df df' k :
  process_data df = Ok df' -> k ∉ feature_columns ->
  DF.getitem df' k = DF.getitem (DF.ffill (DF.bfill (DF.lower_columns df))) k.
Proof.
  intros Hp Hk. split_notin Hk.
  unfold process_data in Hp. cbv zeta in Hp. inv_bind Hp.
  injection Hp as <-. by rewrite !getitem_setitem_ne.
Qed.

Lemma calculate_scores_well_formed df df' :
  well_formed df -> calculate_scores df = Ok df' ->
  well_formed df' /\ nrows df' = nrows df.
Proof.
  intros Hwf Hc. unfold calculate_scores in Hc. cbv zeta in Hc. inv_bind Hc.
  injection Hc as <-.
  repeat match goal with
    | E : DF.setitem_array _ _ _ = Ok _ |- _ =>
        pose proof (setitem_array_length _ _ _ _ E); apply setitem_array_Ok in E; subst
    end.
  frame_simpl. read_lengths Hwf.
  split; [|reflexivity].
  repeat (apply well_formed_setitem; [|first [assumption | series_length]]).
  exact Hwf.
Qed.

Lemma maintenance_system_well_formed df df' :
  well_formed df -> maintenance_system df = Ok df' ->
  well_formed df' /\ nrows df' = nrows df.
Proof.
  intros Hwf Hm. unfold maintenance_system in Hm. cbv zeta in Hm. inv_bind Hm.
  pose proof (setitem_array_length _ _ _ _ Hm) as Hlen.
  apply setitem_array_Ok in Hm. subst df'.
  frame_simpl. read_lengths Hwf.
  assert (length (mul_operand x x0) = nrows df) as Hload.
  { destruct x0 as [q|s]; simpl; [by rewrite length_fmap|].
    pose proof (well_formed_df_get _ _ _ _ Hwf E0). series_length. }
  split; [|reflexivity].
  repeat (apply well_formed_setitem; [|first [assumption | series_length]]).
  exact Hwf.
Qed.

(** A processed trip of a well-formed, non-empty upload that has no
    urgency column of its own carries the four fields the recommendation
    reads in its last sample. *)
Lemma processed_last_sample df df' :
  well_formed df -> nrows df <> 0%nat ->
  ~ has_column "maintenance_urgency" df ->
  pipeline df = Ok df' ->
  exists u e b t,
    last_sample df' "maintenance_urgency" = Some u /\
    last_sample df' "engine_stress" = Some e /\
    last_sample df' "brake_wear" = Some b /\
    last_sample df' "tire_wear" = Some t.
Proof.
  intros Hwf Hn Hnew Hp. apply pipeline_Ok in Hp as (df1 & df2 & Hp1 & Hp2 & Hp3).
  destruct (process_data_well_formed _ _ Hwf Hp1) as [Hwf1 Hn1].
  destruct (calculate_scores_well_formed _ _ Hwf1 Hp2) as [Hwf2 Hn2].
  destruct (maintenance_system_well_formed _ _ Hwf2 Hp3) as [Hwf3 Hn3].
  assert (nrows df' <> 0%nat) as Hn' by lia.
  destruct (maintenance_system_shape _ _ Hp3)
    as (es & bw & tw & P & p1 & Hes & Hbw & Htw & _ & _ & _).
  assert (exists s, DF.getitem df' "maintenance_urgency" = Ok s) as [us Hus].
  { assert (DF.getitem df2 "maintenance_urgency" = Raise (KeyError "maintenance_urgency"))
      as Hfresh.
    { rewrite (calculate_scores_getitem _ _ _ Hp2) by notin_columns.
      rewrite (process_data_getitem _ _ _ Hp1)
        by (unfold feature_columns;
            repeat (apply not_elem_of_cons; split; [discriminate|]);
            apply not_elem_of_nil).
      by apply getitem_missing. }
    unfold maintenance_system in Hp3. cbv zeta in Hp3. inv_bind Hp3.
    apply setitem_array_Ok in Hp3. subst df'. eexists.
    apply (getitem_setitem_new _ _ "maintenance_urgency").
    by rewrite !getitem_setitem_ne by discriminate. }
  destruct (last_sample_getitem _ _ _ Hn' Hus (well_formed_getitem _ _ _ Hwf3 Hus)) as [u Hu].
  destruct (last_sample_getitem _ _ _ Hn' Hes (well_formed_getitem _ _ _ Hwf3 Hes)) as [e He].
  destruct (last_sample_getitem _ _ _ Hn' Hbw (well_formed_getitem _ _ _ Hwf3 Hbw)) as [b Hb].
  destruct (last_sample_getitem _ _ _ Hn' Htw (well_formed_getitem _ _ _ Hwf3 Htw)) as [t Ht].
  by exists u, e, b, t.
Qed.

(** So the recommendation of such a trip is always produced. *)
Lemma processed_trip_recommendation df df' :
  well_formed df -> nrows df <> 0%nat ->
  ~ has_column "maintenance_urgency" df ->
  pipeline df = Ok df' ->
  exists rec, get_maintenance_recommendations df' = Ok rec.
Proof.
  intros Hwf Hn Hnew Hp.
  destruct (processed_last_sample _ _ Hwf Hn Hnew Hp) as (u & e & b & t & Hu & He & Hb & Ht).
  eexists. by apply recommendations_spec.
Qed.

End Totality.

(** * Further properties of the pipeline *)

(** ** The feature columns *)

Section Features.

Implicit Types (df : DataFrame) (s : list float64).

Lemma process_data_shape df df' :
  process_data df = Ok df' ->
  exists speed rpm,
    DF.getitem (prepared df) "speed" = Ok speed /\
    DF.getitem (prepared df) "rpm" = Ok rpm /\
    DF.getitem df' "speed" = Ok speed /\
    DF.getitem df' "rpm" = Ok rpm /\
    let speed_prev := S.bfill (S.shift1 speed) in
    let rpm_prev := S.bfill (S.shift1 rpm) in
    col_is df' "speed_prev" speed_prev /\
    col_is df' "rpm_prev" rpm_prev /\
    col_is df' "speed_increase"
      (S.fillna 0 (S.clip (-50) 50 (S.sub64 speed speed_prev))) /\
    col_is df' "rpm_increase"
      (S.fillna 0 (S.clip (-5000) 5000 (S.sub64 rpm rpm_prev))) /\
    col_is df' "dynamic_speed_limit"
      (S.fillna 80 (S.rolling 100 10 (S.quantile 0.85) speed)) /\
    col_is df' "idle_rpm_threshold"
      (S.align (nrows df)
         (S.on_values
            (fun v => S.fillna 1500 (S.ffill (S.rolling 100 10 (S.quantile 0.90) v)))
            (S.loc ((fun x => F.lt x (Fin 5)) <$> speed) rpm))).
Proof.
  intros Hp. unfold process_data in Hp. cbv zeta in Hp. inv_bind Hp.
  injection Hp as <-. frame_simpl. fold (prepared df) in *.
  exists x, x0. split; [done|]. split; [done|].
  split; [by rewrite ?getitem_setitem_ne by discriminate|].
  split; [by rewrite ?getitem_setitem_ne by discriminate|].
  cbv zeta. repeat split; intros c Hc; frame_simpl; reflexivity.
Qed.

Lemma window_short w i s : (length (S.window w i s) <= S i)%nat.
Proof. unfold S.window. rewrite length_take. lia. Qed.

(** A rolling aggregate is missing while the window holds fewer cells than
    [min_periods]. *)
Lemma rolling_early w minp agg s i v :
  (S i < minp)%nat -> S.rolling w minp agg s !! i = Some v -> v = NaN.
Proof.
  intros Hi. unfold S.rolling. rewrite list_lookup_imap.
  destruct (s !! i) as [x|]; [|done]. simpl. intros [= <-].
  destruct (Nat.leb_spec minp
              (length (filter (fun x => F.notna x = true) (S.window w i s))))
    as [Hle|]; [|done].
  pose proof (length_filter (fun x => F.notna x = true) (S.window w i s)).
  pose proof (window_short w i s). lia.
Qed.

(** X1.  The dynamic speed limit of each of the first nine samples of a
    trip is the default 80: the window holds fewer than the ten readings
    the quantile asks for.  A trip of fewer than ten samples has the
    default limit throughout. *)
Theorem default_speed_limit_on_first_samples df df' i v :
  process_data df = Ok df' ->
  (i < 9)%nat ->
  cell df' "dynamic_speed_limit" i = Some v ->
  v = Fin 80.
Proof.
  intros Hp Hi Hv.
  destruct (process_data_shape _ _ Hp)
    as (speed & rpm & _ & _ & _ & _ & Hcols).
  cbv zeta in Hcols. destruct Hcols as (_ & _ & _ & _ & Hlimit & _).
  apply (col_is_cell _ _ _ _ _ Hlimit) in Hv.
  unfold S.fillna in Hv. rewrite list_lookup_fmap in Hv.
  destruct (S.rolling _ _ _ _ !! i) as [x|] eqn:Ex; [|done].
  injection Hv as <-. apply rolling_early in Ex as ->; [done|lia].
Qed.

End Features.

Lemma default_speed_limit_on_first_samples_witness :
  process_data example_trip = Ok example_features /\
  forall v, cell example_features "dynamic_speed_limit" 2 = Some v -> v = Fin 80.
Proof.
  split; [vm_compute; reflexivity|]. intros v.
  apply (default_speed_limit_on_first_samples example_trip example_features 2 v);
    [vm_compute; reflexivity | lia].
Defined.
(** ** Lagged readings *)

Section Lags.

Implicit Types (df : DataFrame) (s : list float64).

Lemma bfill_known s i x :
  s !! i = Some x -> F.isna x = false -> S.bfill s !! i = Some x.
Proof.
  revert i. induction s as [|y s IH]; intros [|i]; simpl; try done.
  - by intros [= ->] ->.
  - apply IH.
Qed.

Lemma shift1_lookup_S s i x :
  s !! i = Some x -> (S i < length s)%nat -> S.shift1 s !! S i = Some x.
Proof.
  intros Hx Hi. unfold S.shift1. rewrite lookup_take_lt by lia. exact Hx.
Qed.

Lemma isna_false x : x <> NaN -> F.isna x = false.
Proof. by destruct x. Qed.

(** X2.  The lagged columns hold the reading of the sample before:
    speed_prev of sample i+1 is the speed of sample i, and rpm_prev its
    rpm, whenever that reading is known. *)
Theorem lag_is_previous_reading df df' i :
  process_data df = Ok df' ->
  (forall v p, cell df' "speed" i = Some v -> v <> NaN ->
               cell df' "speed_prev" (S i) = Some p -> p = v) /\
  (forall v p, cell df' "rpm" i = Some v -> v <> NaN ->
               cell df' "rpm_prev" (S i) = Some p -> p = v).
Proof.
  intros Hp.
  destruct (process_data_shape _ _ Hp)
    as (speed & rpm & _ & _ & Es & Er & Hcols).
  cbv zeta in Hcols. destruct Hcols as (Hsp & Hrp & _).
  assert (forall (s : list float64) v p,
            s !! i = Some v -> v <> NaN ->
            S.bfill (S.shift1 s) !! S i = Some p -> p = v) as Hlag.
  { intros s v p Hv Hk Hprev.
    assert (S i < length s)%nat as Hlen.
    { apply lookup_lt_Some in Hprev. by rewrite length_bfill, length_shift1 in Hprev. }
    rewrite (bfill_known _ _ v) in Hprev; [congruence| |by apply isna_false].
    by apply shift1_lookup_S. }
  split; intros v p Hv Hk Hprev.
  - rewrite (cell_getitem _ _ _ _ Es) in Hv.
    apply (col_is_cell _ _ _ _ _ Hsp) in Hprev. by eapply Hlag.
  - rewrite (cell_getitem _ _ _ _ Er) in Hv.
    apply (col_is_cell _ _ _ _ _ Hrp) in Hprev. by eapply Hlag.
Qed.

End Lags.

Lemma lag_is_previous_reading_witness :
  process_data example_trip = Ok example_features /\
  (forall v p, cell example_features "speed" 1 = Some v -> v <> NaN ->
               cell example_features "speed_prev" 2 = Some p -> p = v) /\
  (forall v p, cell example_features "rpm" 1 = Some v -> v <> NaN ->
               cell example_features "rpm_prev" 2 = Some p -> p = v).
Proof.
  split; [vm_compute; reflexivity|].
  apply (lag_is_previous_reading example_trip example_features 1).
  vm_compute; reflexivity.
Defined.
(** ** The first sample *)

Lemma lag_of_first (s : list float64) x p :
  s !! 0%nat = Some x -> F.isna x = false ->
  S.bfill (S.shift1 s) !! 0%nat = Some p ->
  p = NaN \/ p = x.
Proof.
  destruct s as [|y s]; [done|]. intros [= ->] Hx.
  unfold S.shift1. destruct s as [|z s]; simpl.
  - intros [= <-]. by left.
  - rewrite Hx. intros [= <-]. by right.
Qed.

Lemma sub64_same (a : Q) : F.sub64 (Fin a) (Fin a) = Fin 0.
Proof.
  unfold F.sub64, F.sub, F.neg, F.add, F.round64.
  assert (Qeq_bool (a + - a) 0 = true) as -> by (apply Qeq_bool_iff; ring).
  reflexivity.
Qed.

Lemma sub64_NaN_r x : F.sub64 x NaN = NaN.
Proof. by destruct x. Qed.

Lemma sub64_NaN_l p : F.sub64 NaN p = NaN.
Proof. by destruct p. Qed.

Lemma first_increase lo hi x p :
  lo <= 0 -> 0 <= hi -> p = NaN \/ p = x \/ x = NaN ->
  exists q, F.fillna 0 (F.clip lo hi (F.sub64 x p)) = Fin q /\ q == 0.
Proof.
  intros Hlo Hhi [->|[->| ->]].
  - exists 0. by rewrite sub64_NaN_r.
  - destruct x as [a| | |]; try (by exists 0).
    exists 0. split; [|done]. rewrite sub64_same.
    unfold F.clip. simpl.
    assert (Qle_bool lo 0 = true) as -> by (apply Qle_bool_iff; lra).
    assert (Qle_bool 0 hi = true) as -> by (apply Qle_bool_iff; lra).
    done.
  - exists 0. by rewrite sub64_NaN_l.
Qed.

Lemma first_lag_cases (s : list float64) x p :
  s !! 0%nat = Some x -> S.bfill (S.shift1 s) !! 0%nat = Some p ->
  p = NaN \/ p = x \/ x = NaN.
Proof.
  intros Hx Hp. destruct (F.isna x) eqn:E.
  - right. right. by destruct x.
  - destruct (lag_of_first _ _ _ Hx E Hp); eauto.
Qed.

Lemma increase_column_first lo hi (s : list float64) v :
  lo <= 0 -> 0 <= hi ->
  S.fillna 0 (S.clip lo hi (S.sub64 s (S.bfill (S.shift1 s)))) !! 0%nat = Some v ->
  exists q, v = Fin q /\ q == 0.
Proof.
  intros Hlo Hhi. unfold S.fillna, S.clip, S.sub64.
  rewrite !list_lookup_fmap, lookup_zip_with.
  destruct (s !! 0%nat) as [x|] eqn:Ex; [|done].
  destruct (S.bfill (S.shift1 s) !! 0%nat) as [p|] eqn:Ep; [|done].
  simpl. intros [= <-]. apply first_increase; try done.
  by eapply first_lag_cases.
Qed.

Section FirstSample.

Context `{Sklearn}.

(** X3.  The first sample of a trip has no sample before it: its
    speed_increase and rpm_increase are 0, and it scores neither harsh
    braking nor hard acceleration. *)
Theorem first_sample_has_no_increase (df df1 df2 : DataFrame) :
  process_data df = Ok df1 ->
  calculate_scores df1 = Ok df2 ->
  (forall v, cell df2 "speed_increase" 0 = Some v -> exists q, v = Fin q /\ q == 0) /\
  (forall v, cell df2 "rpm_increase" 0 = Some v -> exists q, v = Fin q /\ q == 0) /\
  (forall v, cell df2 "harsh_braking_score" 0 = Some v -> v = Fin 0) /\
  (forall v, cell df2 "acceleration_score" 0 = Some v -> v = Fin 0).
Proof.
  intros Hp Hc.
  destruct (process_data_shape _ _ Hp)
    as (speed & rpm & _ & _ & Es & Er & Hcols).
  cbv zeta in Hcols. destruct Hcols as (Hsp & Hrp & Hsi & Hri & _).
  destruct (calculate_scores_shape _ _ Hc)
    as (speed' & limit & rpm' & thr & sp & si & ri & flags
        & Es' & _ & _ & _ & Esp & Esi & Eri & Hscores).
  cbv zeta in Hscores. destruct Hscores as (_ & _ & Hharsh & Haccel & _).
  rewrite Es in Es'. injection Es' as <-.
  pose proof (Hsp _ Esp) as ->. pose proof (Hsi _ Esi) as ->.
  pose proof (Hri _ Eri) as ->.
  assert (forall v, cell df2 "speed_increase" 0 = Some v ->
                    exists q, v = Fin q /\ q == 0) as H1.
  { intros v Hv. unfold cell in Hv.
    rewrite (calculate_scores_getitem _ _ _ Hc) in Hv by notin_columns.
    rewrite Esi in Hv. apply (increase_column_first (-50) 50 speed) in Hv; [done|lra..]. }
  assert (forall v, cell df2 "rpm_increase" 0 = Some v ->
                    exists q, v = Fin q /\ q == 0) as H2.
  { intros v Hv. unfold cell in Hv.
    rewrite (calculate_scores_getitem _ _ _ Hc) in Hv by notin_columns.
    rewrite Eri in Hv. apply (increase_column_first (-5000) 5000 rpm) in Hv; [done|lra..]. }
  split; [exact H1|]. split; [exact H2|]. split.
  - intros v Hv. apply (col_is_cell _ _ _ _ _ Hharsh) in Hv.
    unfold S.fillna, S.sub64 in Hv.
    rewrite !list_lookup_fmap, lookup_zip_with in Hv.
    destruct (S.bfill (S.shift1 speed) !! 0%nat) as [p|] eqn:Ep; [|done].
    destruct (speed !! 0%nat) as [x|] eqn:Ex; [|done].
    simpl in Hv. injection Hv as <-.
    rewrite fillna_not_NaN by apply harsh_braking_not_NaN.
    destruct (first_lag_cases _ _ _ Ex Ep) as [->|[->| ->]].
    + by rewrite sub64_NaN_l.
    + destruct x as [a| | |]; try done. by rewrite sub64_same.
    + by rewrite sub64_NaN_r.
  - intros v Hv. apply (col_is_cell _ _ _ _ _ Haccel) in Hv.
    remember (S.fillna 0 (S.clip (-50) 50 (S.sub64 speed (S.bfill (S.shift1 speed)))))
      as si eqn:Hsi'.
    remember (S.fillna 0 (S.clip (-5000) 5000 (S.sub64 rpm (S.bfill (S.shift1 rpm)))))
      as ri eqn:Hri'.
    rewrite list_lookup_fmap, lookup_zip_with, !list_lookup_fmap in Hv.
    destruct (si !! 0%nat) as [a|] eqn:Ea; [|done].
    destruct (ri !! 0%nat) as [b|]; [|done].
    simpl in Hv. injection Hv as <-. subst si.
    apply (increase_column_first (-50) 50 speed) in Ea as (q & -> & Hq); [|lra..].
    assert (F.gt (Fin q) (Fin 15) = false) as Hgt by (apply flt_Fin_false; lra).
    simpl in Hgt. by rewrite Hgt.
Qed.

End FirstSample.

Lemma first_sample_has_no_increase_witness :
  process_data example_trip = Ok example_features /\
  calculate_scores (H := stub_sklearn) example_features = Ok example_scored /\
  (forall v, cell example_scored "speed_increase" 0 = Some v ->
             exists q, v = Fin q /\ q == 0) /\
  (forall v, cell example_scored "rpm_increase" 0 = Some v ->
             exists q, v = Fin q /\ q == 0) /\
  (forall v, cell example_scored "harsh_braking_score" 0 = Some v -> v = Fin 0) /\
  (forall v, cell example_scored "acceleration_score" 0 = Some v -> v = Fin 0).
Proof.
  assert (process_data example_trip = Ok example_features) as Hp
    by (vm_compute; reflexivity).
  assert (calculate_scores (H := stub_sklearn) example_features = Ok example_scored)
    as Hc by (vm_compute; reflexivity).
  split; [exact Hp|]. split; [exact Hc|].
  exact (first_sample_has_no_increase (H := stub_sklearn) _ _ _ Hp Hc).
Defined.
(** ** Cleaning *)

Section Cleaning.

Implicit Types (df : DataFrame) (s : list float64) (k : string).

Lemma bfill_head_known s :
  Exists known s -> known (hd NaN (S.bfill s)).
Proof.
  induction 1 as [x s Hx|x s Hs IH]; simpl.
  - destruct (F.isna x) eqn:E; [|done]. by destruct x.
  - destruct (F.isna x) eqn:E; [done|]. by destruct x.
Qed.

Lemma ffill_from_known last s :
  known last -> Forall known (S.ffill_from last s).
Proof.
  revert last. induction s as [|x s IH]; intros last Hl; simpl; [done|].
  assert (known (if F.isna x then last else x)) as Hy.
  { destruct (F.isna x) eqn:E; [done|]. by destruct x. }
  apply Forall_cons; split; [done|]. by apply IH.
Qed.

Lemma bfill_all_missing s : Forall (fun x => x = NaN) s -> S.bfill s = s.
Proof.
  induction 1 as [|x s -> Hs IH]; simpl; [done|]. rewrite IH.
  f_equal. by destruct Hs as [|? ? ->].
Qed.

Lemma ffill_from_all_missing s :
  Forall (fun x => x = NaN) s -> S.ffill_from NaN s = s.
Proof. induction 1 as [|x s -> Hs IH]; simpl; [done|]. by rewrite IH. Qed.

Lemma not_Exists_known s : ~ Exists known s -> Forall (fun x => x = NaN) s.
Proof.
  intros Hno. apply Forall_forall. intros x Hx.
  destruct x; try done; exfalso; apply Hno, Exists_exists; eexists; split; done.
Qed.

Lemma Exists_known_dec s : Exists known s \/ ~ Exists known s.
Proof.
  induction s as [|x s [IH|IH]].
  - right. by intros H%Exists_nil.
  - left. by right.
  - destruct x as [q| | |];
      [left; by left | left; by left | left; by left |].
    right. intros H%Exists_cons. destruct H as [H|H]; [by apply H|done].
Qed.

(** A column filled backward and then forward is known throughout when it
    has any reading, and is left as it is when it has none. *)
Lemma filled_column s :
  (Exists known s /\ Forall known (S.ffill (S.bfill s))) \/
  (Forall (fun x => x = NaN) s /\ S.ffill (S.bfill s) = s).
Proof.
  destruct (Exists_known_dec s) as [Hex|Hno].
  - left. split; [done|]. pose proof (bfill_head_known s Hex) as Hhd.
    unfold S.ffill. destruct (S.bfill s) as [|x r]; [done|]. simpl in *.
    assert (F.isna x = false) as -> by by destruct x.
    apply Forall_cons; split; [done|]. by apply ffill_from_known.
  - right. apply not_Exists_known in Hno. split; [done|].
    rewrite bfill_all_missing by done. by apply ffill_from_all_missing.
Qed.

Lemma labelled_lower k df :
  DF.labelled k (DF.lower_columns df)
  = snd <$> filter (fun c : string * Series => lower c.1 = k) (columns df).
Proof.
  unfold DF.labelled, DF.lower_columns; simpl.
  induction (columns df) as [|c cs IH]; [done|]. rewrite fmap_cons.
  destruct (decide (lower c.1 = k)) as [Hk|Hk].
  - rewrite !filter_cons_True by done. rewrite !fmap_cons. by rewrite IH.
  - by rewrite !filter_cons_False by done.
Qed.

Lemma labelled_prepared k df :
  DF.labelled k (prepared df)
  = (fun s => S.ffill (S.bfill s)) <$>
      (snd <$> filter (fun c : string * Series => lower c.1 = k) (columns df)).
Proof.
  unfold prepared, DF.ffill, DF.bfill.
  rewrite !labelled_map_columns, labelled_lower.
  by rewrite <- list_fmap_compose.
Qed.

Lemma getitem_prepared k df s :
  DF.getitem (prepared df) k = Ok s ->
  exists raw, (k, raw) ∈ (fun c : string * Series => (lower c.1, c.2)) <$> columns df /\
              s = S.ffill (S.bfill raw).
Proof.
  unfold DF.getitem. rewrite labelled_prepared.
  destruct (filter _ (columns df)) as [|c [|? ?]] eqn:E; simpl; try done.
  intros [= <-]. exists c.2. split; [|done].
  assert (c ∈ filter (fun c : string * Series => lower c.1 = k) (columns df)) as Hc
    by (rewrite E; by left).
  apply list_elem_of_filter in Hc as [Hk Hc]. subst k.
  by apply (list_elem_of_fmap_2 (fun c : string * Series => (lower c.1, c.2))).
Qed.

(** X4.  After the cleaning step the speed and rpm columns have no gap
    left as soon as they hold one reading: a sample with a missing speed
    (or rpm) exists only when the whole column is missing. *)
Theorem no_gap_left_after_fill df df' k i j v w :
  process_data df = Ok df' ->
  k = "speed" \/ k = "rpm" ->
  cell df' k i = Some v -> known v ->
  cell df' k j = Some w -> known w.
Proof.
  intros Hp Hk Hv Hkn Hw.
  destruct (process_data_shape _ _ Hp)
    as (speed & rpm & Es0 & Er0 & Es & Er & _).
  assert (exists s raw, DF.getitem df' k = Ok s /\ s = S.ffill (S.bfill raw))
    as (s & raw & Ek & ->).
  { destruct Hk as [-> | ->].
    - destruct (getitem_prepared _ _ _ Es0) as (raw & _ & ->). eauto.
    - destruct (getitem_prepared _ _ _ Er0) as (raw & _ & ->). eauto. }
  rewrite (cell_getitem _ _ _ _ Ek) in Hv.
  rewrite (cell_getitem _ _ _ _ Ek) in Hw.
  destruct (filled_column raw) as [[_ Hall]|[Hnone Heq]].
  - exact (Forall_lookup_1 _ _ _ _ Hall Hw).
  - rewrite Heq in Hv. exfalso. apply Hkn.
    exact (Forall_lookup_1 _ _ _ _ Hnone Hv).
Qed.

(** X5.  [process_data] returns a frame for every upload in which speed
    and rpm each label exactly one column and the lag labels are not
    taken twice, whatever the readings: also for an upload without rows or
    with columns that are missing throughout.  The row count is kept. *)
Theorem process_data_succeeds df :
  label_count "speed" df = 1%nat ->
  label_count "rpm" df = 1%nat ->
  (label_count "speed_prev" df <= 1)%nat ->
  (label_count "rpm_prev" df <= 1)%nat ->
  exists df', process_data df = Ok df' /\ nrows df' = nrows df.
Proof.
  unfold label_count. intros Hs Hr Hsp Hrp.
  assert (forall k, length (filter (fun c : string * Series => lower c.1 = k)
                              (columns df)) = 1%nat ->
                    exists s, DF.getitem (prepared df) k = Ok s) as Hone.
  { intros k Hk. unfold DF.getitem. rewrite labelled_prepared.
    destruct (filter (fun c : string * Series => lower c.1 = k) (columns df))
      as [|c [|? ?]]; simpl in *; try lia.
    eexists; reflexivity. }
  assert (forall k (d : DataFrame) s,
            (length (DF.labelled k d) <= 1)%nat ->
            DF.getitem (DF.setitem d k s) k = Ok s) as Hset.
  { intros k d s Hk. unfold DF.getitem.
    destruct (DF.labelled k d) as [|s0 [|? ?]] eqn:E; simpl in Hk; [| |lia].
    - apply (getitem_setitem_new d k k). unfold DF.getitem. by rewrite E.
    - unfold DF.setitem, DF.labelled in *. simpl. rewrite E.
      rewrite filter_replace_eq.
      destruct (filter _ (columns d)) as [|c0 [|? ?]]; simpl in *; done. }
  assert (forall k, length (DF.labelled k (prepared df))
                    = length (filter (fun c : string * Series => lower c.1 = k)
                                (columns df))) as Hlen.
  { intros k. by rewrite labelled_prepared, !length_fmap. }
  destruct (Hone _ Hs) as [speed Es]. destruct (Hone _ Hr) as [rpm Er].
  unfold process_data. cbv zeta. fold (prepared df).
  rewrite Es. simpl.
  rewrite (getitem_setitem_ne _ "speed_prev" "rpm") by discriminate.
  rewrite Er. simpl.
  rewrite !(getitem_setitem_ne _ _ "speed") by discriminate. rewrite Es. simpl.
  rewrite (getitem_setitem_ne _ "rpm_prev" "speed_prev") by discriminate.
  rewrite Hset by (rewrite Hlen; lia). simpl.
  rewrite !(getitem_setitem_ne _ _ "rpm") by discriminate. rewrite Er. simpl.
  rewrite (getitem_setitem_ne _ "speed_increase" "rpm_prev") by discriminate.
  rewrite Hset
    by (rewrite (labelled_setitem_ne _ "speed_prev" "rpm_prev") by discriminate;
        rewrite Hlen; lia).
  simpl.
  rewrite !(getitem_setitem_ne _ _ "speed") by discriminate. rewrite Es. simpl.
  rewrite !(getitem_setitem_ne _ _ "speed") by discriminate. rewrite Es. simpl.
  rewrite !(getitem_setitem_ne _ _ "rpm") by discriminate. rewrite Er. simpl.
  eexists. split; reflexivity.
Qed.

Lemma lower_upper_ascii c : lower_ascii (upper_ascii c) = lower_ascii c.
Proof. destruct c as [[] [] [] [] [] [] [] []]; reflexivity. Qed.

Lemma lower_upper k : lower (upper k) = lower k.
Proof. induction k as [|c k IH]; simpl; [done|]. by rewrite lower_upper_ascii, IH. Qed.

Lemma lower_columns_relabel g df :
  (forall k, lower (g k) = lower k) ->
  DF.lower_columns (relabel g df) = DF.lower_columns df.
Proof.
  intros Hg. unfold DF.lower_columns, relabel; simpl. f_equal.
  rewrite <- list_fmap_compose. apply list_fmap_ext. intros i c _. simpl.
  by rewrite Hg.
Qed.

(** X6.  Column labels are matched without regard to case: relabelling
    the upload with labels that differ only in case (all capitals, say)
    does not change what [process_data] returns. *)
Theorem process_data_ignores_case g df :
  (forall k, lower (g k) = lower k) ->
  process_data (relabel g df) = process_data df.
Proof.
  intros Hg. unfold process_data. cbv zeta.
  by rewrite (lower_columns_relabel g df Hg).
Qed.

End Cleaning.

Lemma no_gap_left_after_fill_witness :
  process_data example_trip = Ok example_features /\
  forall j w, cell example_features "speed" j = Some w -> known w.
Proof.
  split; [vm_compute; reflexivity|]. intros j w Hw.
  apply (no_gap_left_after_fill example_trip example_features "speed" 0 j
           (Fin 60) w); try (vm_compute; reflexivity); [by left|done|exact Hw].
Defined.

Lemma process_data_succeeds_witness :
  exists df', process_data header_only = Ok df' /\ nrows df' = nrows header_only.
Proof.
  apply (process_data_succeeds header_only); vm_compute; lia.
Defined.

Lemma process_data_ignores_case_witness :
  process_data (relabel upper example_trip) = process_data example_trip.
Proof.
  apply (process_data_ignores_case upper example_trip). exact lower_upper.
Defined.
(** ** The idle threshold, sample by sample *)

Section IdleColumn.

Implicit Types (df : DataFrame) (s : list float64) (mask : list bool).

Lemma loc_from_complete j mask s d :
  mask !! d = Some true -> (d < length s)%nat ->
  (j + d)%nat ∈ (S.loc_from j mask s).*1.
Proof.
  revert j s d. induction mask as [|b mask IH]; intros j [|x s] [|d]; simpl;
    try done; try lia.
  - intros [= ->] _. rewrite Nat.add_0_r. by left.
  - intros Hd Hlen. rewrite fmap_app. apply elem_of_app. right.
    replace (j + S d)%nat with (S j + d)%nat by lia. apply IH; [done|lia].
Qed.

Lemma loc_from_position j mask s p l :
  (S.loc_from j mask s).*1 !! p = Some l -> (j + p <= l)%nat.
Proof.
  revert j s p. induction mask as [|b mask IH]; intros j [|x s] p; simpl; try done.
  destruct b; simpl.
  - destruct p as [|p]; simpl.
    + intros [= <-]. lia.
    + intros Hp. apply IH in Hp. lia.
  - intros Hp. apply IH in Hp. lia.
Qed.

Lemma at_label_present i (ix : list (nat * float64)) :
  i ∈ ix.*1 -> exists x, (i, x) ∈ ix /\ S.at_label i ix = x.
Proof.
  induction ix as [|[j x] ix IH]; simpl; [by intros H%elem_of_nil|].
  intros Hi. destruct (Nat.eqb_spec i j) as [->|Hne].
  - exists x. split; [by left|done].
  - apply elem_of_cons in Hi as [Hi|Hi]; [done|].
    destruct (IH Hi) as (y & Hy & Hat). exists y. split; [by right|done].
Qed.

Lemma ffill_prefix_missing t p y :
  (forall q x, (q <= p)%nat -> t !! q = Some x -> x = NaN) ->
  S.ffill_from NaN t !! p = Some y -> y = NaN.
Proof.
  revert p. induction t as [|x t IH]; intros p Hpre; simpl; [done|].
  assert (x = NaN) as -> by (apply (Hpre 0%nat); [lia|done]). simpl.
  destruct p as [|p]; simpl; [by intros [= <-]|].
  apply IH. intros q z Hq Hz. apply (Hpre (S q)); [lia|done].
Qed.

Lemma threshold_values_length s :
  length (S.fillna 1500 (S.ffill (S.rolling 100 10 (S.quantile 0.90) s))) = length s.
Proof.
  unfold S.fillna, S.ffill. by rewrite length_fmap, length_ffill_from, length_rolling.
Qed.

Lemma threshold_values_known s p x :
  S.fillna 1500 (S.ffill (S.rolling 100 10 (S.quantile 0.90) s)) !! p = Some x ->
  known x.
Proof.
  unfold S.fillna. rewrite list_lookup_fmap.
  destruct (S.ffill _ !! p) as [y|]; [|done]. simpl. intros [= <-]. by destruct y.
Qed.

Lemma threshold_values_early s p x :
  (p < 9)%nat ->
  S.fillna 1500 (S.ffill (S.rolling 100 10 (S.quantile 0.90) s)) !! p = Some x ->
  x = Fin 1500.
Proof.
  intros Hp. unfold S.fillna, S.ffill. rewrite list_lookup_fmap.
  destruct (S.ffill_from _ _ !! p) as [y|] eqn:Ey; [|done]. simpl. intros [= <-].
  apply ffill_prefix_missing in Ey as ->; [done|].
  intros q z Hq Hz. apply rolling_early in Hz; [done|lia].
Qed.

(** The cell that the assignment puts in row [i] of the threshold column,
    for a row the idle mask selects. *)
Lemma threshold_cell_on_mask (speed rpm : list float64) i sp r :
  speed !! i = Some sp -> F.lt sp (Fin 5) = true -> rpm !! i = Some r ->
  let ix :=
    S.on_values
      (fun v => S.fillna 1500 (S.ffill (S.rolling 100 10 (S.quantile 0.90) v)))
      (S.loc ((fun x => F.lt x (Fin 5)) <$> speed) rpm) in
  known (S.at_label i ix) /\ ((i < 9)%nat -> S.at_label i ix = Fin 1500).
Proof.
  intros Hsp Hidle Hr. cbv zeta. unfold S.on_values, S.loc.
  set (mask := (fun x => F.lt x (Fin 5)) <$> speed).
  set (sel := S.loc_from 0 mask rpm).
  set (vals := S.fillna 1500 (S.ffill (S.rolling 100 10 (S.quantile 0.90) sel.*2))).
  assert (i ∈ sel.*1) as Hin.
  { apply (loc_from_complete 0 mask rpm i).
    - unfold mask. by rewrite list_lookup_fmap, Hsp; simpl; rewrite Hidle.
    - by apply lookup_lt_Some in Hr. }
  assert (length vals = length sel.*1) as Hlen.
  { unfold vals. by rewrite threshold_values_length, !length_fmap. }
  assert ((zip sel.*1 vals).*1 = sel.*1) as Hfst by (apply fst_zip; lia).
  destruct (at_label_present i (zip sel.*1 vals)) as (x & Hx & ->);
    [by rewrite Hfst|].
  apply list_elem_of_lookup in Hx as [p Hp].
  rewrite lookup_zip_with in Hp.
  destruct (sel.*1 !! p) as [l|] eqn:El; [|done]. simpl in Hp.
  destruct (vals !! p) as [y|] eqn:Ey; [|done]. simpl in Hp.
  injection Hp as -> ->. split.
  - by eapply threshold_values_known.
  - intros Hi. apply loc_from_position in El.
    eapply threshold_values_early; [|exact Ey]. lia.
Qed.

(** X7.  The idle threshold is present exactly on the samples with
    speed below 5: it is missing on every other sample, and on the idle
    samples among the first nine of a trip it is the default 1500. *)
Theorem idle_threshold_by_sample df df' i sp r v :
  process_data df = Ok df' ->
  cell df' "speed" i = Some sp ->
  cell df' "rpm" i = Some r ->
  cell df' "idle_rpm_threshold" i = Some v ->
  (F.lt sp (Fin 5) = false -> v = NaN) /\
  (F.lt sp (Fin 5) = true -> known v) /\
  (F.lt sp (Fin 5) = true -> (i < 9)%nat -> v = Fin 1500).
Proof.
  intros Hp Hsp Hr Hv.
  split; [intros Hm; by eapply idle_threshold_missing_off_mask|].
  destruct (process_data_shape _ _ Hp)
    as (speed & rpm & _ & _ & Es & Er & Hcols).
  cbv zeta in Hcols. destruct Hcols as (_ & _ & _ & _ & _ & Hthr).
  rewrite (cell_getitem _ _ _ _ Es) in Hsp.
  rewrite (cell_getitem _ _ _ _ Er) in Hr.
  apply (col_is_cell _ _ _ _ _ Hthr) in Hv.
  unfold S.align in Hv. rewrite list_lookup_fmap in Hv.
  destruct (seq 0 _ !! i) as [j|] eqn:Ej; [|done].
  apply lookup_seq in Ej as [-> _]. simpl in Hv. injection Hv as <-.
  split; intros Hidle; by apply (threshold_cell_on_mask speed rpm i sp r).
Qed.

End IdleColumn.

Lemma idle_threshold_by_sample_witness :
  process_data idle_then_moving = Ok idle_features /\
  (F.lt (Fin 0) (Fin 5) = false -> Fin 1500 = NaN) /\
  (F.lt (Fin 0) (Fin 5) = true -> known (Fin 1500)) /\
  (F.lt (Fin 0) (Fin 5) = true -> (3 < 9)%nat -> Fin 1500 = Fin 1500).
Proof.
  split; [vm_compute; reflexivity|].
  apply (idle_threshold_by_sample idle_then_moving idle_features 3
           (Fin 0) (Fin 800) (Fin 1500)); vm_compute; reflexivity.
Defined.
(** ** More on the scores *)

Lemma gt_clipped lo hi c x :
  lo <= 0 -> 0 <= c -> c < hi ->
  F.gt (F.fillna 0 (F.clip lo hi x)) (Fin c) = F.gt x (Fin c).
Proof.
  intros Hlo Hc Hhi. unfold F.gt.
  destruct x as [q| | |]; unfold F.clip; simpl.
  - destruct (Qle_bool lo q) eqn:E1; simpl.
    + destruct (Qle_bool q hi) eqn:E2; simpl; [done|].
      apply Qle_bool_false in E2.
      assert (Qle_bool hi c = false) as -> by (apply Qle_bool_false; lra).
      assert (Qle_bool q c = false) as -> by (apply Qle_bool_false; lra). done.
    + apply Qle_bool_false in E1.
      assert (Qle_bool lo c = true) as -> by (apply Qle_bool_iff; lra).
      assert (Qle_bool q c = true) as -> by (apply Qle_bool_iff; lra). done.
  - assert (Qle_bool hi c = false) as -> by (apply Qle_bool_false; lra). done.
  - assert (Qle_bool lo c = true) as -> by (apply Qle_bool_iff; lra). done.
  - assert (Qle_bool 0 c = true) as -> by (apply Qle_bool_iff; lra). done.
Qed.

Lemma harsh_braking_values x :
  exists z : Z, harsh_braking x = Fin (inject_Z z) /\
                (z = 0 \/ (-15 <= z <= -4))%Z.
Proof.
  unfold harsh_braking. destruct (F.gt x (Fin 10)) eqn:Hgt;
    [|exists 0%Z; split; [reflexivity|by left]].
  destruct x as [a| | |]; try done.
  - apply flt_Fin in Hgt. unfold F.floordiv, F.py_min.
    set (f := Qfloor (a / 2.5)).
    assert (4 <= f)%Z as Hf.
    { unfold f. rewrite <- (Qfloor_Z 4). apply Qfloor_resp_le.
      change (inject_Z 4) with 4. apply Qle_shift_div_l; lra. }
    destruct (F.lt (Fin (inject_Z f)) (Fin 15)) eqn:E.
    + apply flt_Fin in E. change 15 with (inject_Z 15) in E.
      rewrite <- Zlt_Qlt in E. exists (- f)%Z. split; [reflexivity|]. right. lia.
    + exists (-15)%Z. split; [reflexivity|]. right. lia.
  - exists (-15)%Z. split; [reflexivity|]. right. lia.
Qed.

Section MoreScores.

Context `{Sklearn}.

(** X8.  The idling score of a sample is [-5 * (rpm - threshold) /
    threshold] when its speed is below 5 and its rpm above the idle
    threshold, and 0 otherwise; a sample on the move never has an idling
    penalty. *)
Theorem idle_score_formula (df df' : DataFrame) :
  finite_input df ->
  pipeline df = Ok df' ->
  forall i s r t v,
    cell df' "speed" i = Some s ->
    cell df' "rpm" i = Some r ->
    cell df' "idle_rpm_threshold" i = Some t ->
    cell df' "idle_score" i = Some v ->
    v = (if F.lt s (Fin 5) && F.gt r t then penalty (-5) r t else Fin 0) /\
    (F.lt s (Fin 5) = false -> v = Fin 0) /\
    (forall a b, r = Fin a -> t = Fin b -> F.lt s (Fin 5) = true -> b < a ->
                 ~ b == 0 -> exists q, v = Fin q /\ q == -5 * (a - b) / b).
Proof.
  intros Hfin Hp i s r t v Hs Hr Ht Hv.
  apply pipeline_Ok in Hp as (df1 & df2 & Hp1 & Hp2 & Hp3).
  destruct (process_data_finite _ _ Hfin Hp1) as (_ & Hrpm & _ & Hthr).
  destruct (calculate_scores_shape _ _ Hp2)
    as (speed & limit & rpm & thr & sp & si & ri & flags
        & Es & _ & Er & Et & _ & _ & _ & Hcols).
  cbv zeta in Hcols. destruct Hcols as (_ & Hidle & _).
  unfold cell in Hs, Hr, Ht, Hv.
  rewrite (pipeline_getitem _ _ _ _ Hp2 Hp3) in Hs by notin_columns.
  rewrite (pipeline_getitem _ _ _ _ Hp2 Hp3) in Hr by notin_columns.
  rewrite (pipeline_getitem _ _ _ _ Hp2 Hp3) in Ht by notin_columns.
  rewrite (maintenance_system_getitem _ _ _ Hp3) in Hv by notin_columns.
  rewrite Es in Hs. rewrite Er in Hr. rewrite Et in Ht.
  pose proof (col_is_cell _ _ _ _ _ Hidle Hv) as Hrow.
  apply idle_lookup in Hrow as (s' & r' & t' & Hs' & Hr' & Ht' & ->).
  rewrite Hs in Hs'. rewrite Hr in Hr'. rewrite Ht in Ht'.
  injection Hs' as <-. injection Hr' as <-. injection Ht' as <-.
  assert (F.fillna 0 (if F.lt s (Fin 5) && F.gt r t then penalty (-5) r t else Fin 0)
          = (if F.lt s (Fin 5) && F.gt r t then penalty (-5) r t else Fin 0)) as ->.
  { apply fillna_fin_or_ninf.
    destruct (F.lt s (Fin 5)); simpl; [|done].
    destruct (F.gt r t) eqn:Hgt; [|done].
    apply penalty_fin_or_ninf; [lra|done| |].
    - exact (Forall_lookup_1 _ _ _ _ (Hrpm _ Er) Hr).
    - exact (Forall_lookup_1 _ _ _ _ (Hthr _ Et) Ht). }
  split; [done|]. split.
  - by intros ->.
  - intros a b -> -> -> Hab Hb.
    assert (F.gt (Fin a) (Fin b) = true) as -> by by apply flt_Fin.
    unfold penalty. simpl.
    destruct (Qeq_bool b 0) eqn:E; [by apply Qeq_bool_iff in E|].
    eexists; split; [reflexivity|]. unfold Qminus. reflexivity.
Qed.

(** X9.  A sample is charged the acceleration penalty of -10 exactly when
    its speed rose by more than 15 and its rpm by more than 750 since the
    sample before, each rise being the double that the subtraction gives;
    clipping the increases does not change the verdict. *)
Theorem acceleration_score_by_readings (df df1 df2 : DataFrame) i s p r rp a :
  process_data df = Ok df1 ->
  calculate_scores df1 = Ok df2 ->
  cell df2 "speed" i = Some s ->
  cell df2 "speed_prev" i = Some p ->
  cell df2 "rpm" i = Some r ->
  cell df2 "rpm_prev" i = Some rp ->
  cell df2 "acceleration_score" i = Some a ->
  a = if F.gt (F.sub64 s p) (Fin 15) && F.gt (F.sub64 r rp) (Fin 750)
      then Fin (-10) else Fin 0.
Proof.
  intros Hp Hc Hs Hprev Hr Hrprev Ha.
  destruct (process_data_shape _ _ Hp)
    as (speed & rpm & _ & _ & Es & Er & Hcols).
  cbv zeta in Hcols. destruct Hcols as (Hsp & Hrp & Hsi & Hri & _).
  destruct (calculate_scores_shape _ _ Hc)
    as (speed' & limit & rpm' & thr & sp & si & ri & flags
        & _ & _ & _ & _ & Esp & Esi & Eri & Hscores).
  cbv zeta in Hscores. destruct Hscores as (_ & _ & _ & Haccel & _).
  pose proof (Hsi _ Esi) as ->. pose proof (Hri _ Eri) as ->.
  unfold cell in Hs, Hprev, Hr, Hrprev.
  rewrite (calculate_scores_getitem _ _ _ Hc) in Hs by notin_columns.
  rewrite (calculate_scores_getitem _ _ _ Hc) in Hprev by notin_columns.
  rewrite (calculate_scores_getitem _ _ _ Hc) in Hr by notin_columns.
  rewrite (calculate_scores_getitem _ _ _ Hc) in Hrprev by notin_columns.
  rewrite Es in Hs. rewrite Er in Hr.
  destruct (DF.getitem df1 "speed_prev") as [c1|] eqn:E1; [|done].
  destruct (DF.getitem df1 "rpm_prev") as [c2|] eqn:E2; [|done].
  pose proof (Hsp _ E1) as ->. pose proof (Hrp _ E2) as ->.
  apply (col_is_cell _ _ _ _ _ Haccel) in Ha.
  unfold S.fillna, S.clip, S.sub64 in Ha.
  rewrite list_lookup_fmap, lookup_zip_with, !list_lookup_fmap,
    !lookup_zip_with, Hs, Hprev, Hr, Hrprev in Ha.
  simpl in Ha. injection Ha as <-.
  change (negb (Qle_bool ?q 15)) with (F.gt (Fin q) (Fin 15)).
  rewrite <- (gt_clipped (-50) 50 15 (F.sub64 s p)) by lra.
  rewrite <- (gt_clipped (-5000) 5000 750 (F.sub64 r rp)) by lra.
  reflexivity.
Qed.

(** X10.  A harsh-braking score is a whole number: 0, or between -15 and
    -4.  No braking event costs fewer than 4 points. *)
Theorem harsh_braking_score_values (df df' : DataFrame) i h :
  calculate_scores df = Ok df' ->
  cell df' "harsh_braking_score" i = Some h ->
  exists z : Z, h = Fin (inject_Z z) /\ (z = 0 \/ (-15 <= z <= -4))%Z.
Proof.
  intros Hc Hh.
  destruct (calculate_scores_shape _ _ Hc)
    as (? & ? & ? & ? & sp & ? & ? & ? & _ & _ & _ & _ & _ & _ & _ & Hcols).
  cbv zeta in Hcols. destruct Hcols as (_ & _ & Hharsh & _).
  apply (col_is_cell _ _ _ _ _ Hharsh) in Hh.
  unfold S.fillna in Hh. rewrite !list_lookup_fmap in Hh.
  destruct (S.sub64 _ _ !! i) as [d|]; [|done]. injection Hh as <-.
  rewrite fillna_not_NaN by apply harsh_braking_not_NaN.
  apply harsh_braking_values.
Qed.

End MoreScores.

Lemma idle_score_formula_witness :
  finite_input example_trip /\
  pipeline (H := stub_sklearn) example_trip = Ok example_processed /\
  Fin 0 = (if F.lt (Fin 0) (Fin 5) && F.gt (Fin 800) (Fin 1500)
           then penalty (-5) (Fin 800) (Fin 1500) else Fin 0).
Proof.
  assert (finite_input example_trip) as Hfin.
  { repeat first [apply Forall_cons_2 | apply Forall_nil_2]; exact I. }
  assert (pipeline (H := stub_sklearn) example_trip = Ok example_processed) as Hp
    by (vm_compute; reflexivity).
  split; [exact Hfin|]. split; [exact Hp|].
  refine (proj1 (idle_score_formula (H := stub_sklearn) example_trip
                   example_processed Hfin Hp 2 (Fin 0) (Fin 800) (Fin 1500) (Fin 0)
                   _ _ _ _)); vm_compute; reflexivity.
Defined.

Lemma acceleration_score_by_readings_witness :
  process_data surge_trip = Ok surge_features /\
  calculate_scores (H := stub_sklearn) surge_features = Ok surge_scored /\
  Fin (-10) = (if F.gt (F.sub64 (Fin 40) (Fin 20)) (Fin 15) &&
                  F.gt (F.sub64 (Fin 2400) (Fin 1500)) (Fin 750)
               then Fin (-10) else Fin 0).
Proof.
  assert (process_data surge_trip = Ok surge_features) as Hp
    by (vm_compute; reflexivity).
  assert (calculate_scores (H := stub_sklearn) surge_features = Ok surge_scored)
    as Hc by (vm_compute; reflexivity).
  split; [exact Hp|]. split; [exact Hc|].
  apply (acceleration_score_by_readings (H := stub_sklearn)
           surge_trip surge_features surge_scored 1
           (Fin 40) (Fin 20) (Fin 2400) (Fin 1500) (Fin (-10)) Hp Hc);
    vm_compute; reflexivity.
Defined.

(** The rises are rounded differences: from the double nearest to 0.3 to
    the one nearest to 15.3 the speed rises by a little more than 15, the
    subtraction gives 15, and the sample is not charged. *)
Example acceleration_rounded_rise :
  F.sub64 (Fin double_15_3) (Fin double_0_3) = Fin 15 /\
  F.gt (F.sub64 (Fin double_15_3) (Fin double_0_3)) (Fin 15) = false /\
  F.gt (F.sub (Fin double_15_3) (Fin double_0_3)) (Fin 15) = true.
Proof. repeat split; vm_compute; reflexivity. Qed.

Lemma harsh_braking_score_values_witness :
  calculate_scores (H := stub_sklearn) example_features = Ok example_scored /\
  exists z : Z, Fin (-8) = Fin (inject_Z z) /\ (z = 0 \/ (-15 <= z <= -4))%Z.
Proof.
  split; [vm_compute; reflexivity|].
  apply (harsh_braking_score_values (H := stub_sklearn)
           example_features example_scored 1 (Fin (-8)));
    vm_compute; reflexivity.
Defined.
(** ** Steady driving *)

Section Steady.

Context `{Sklearn}.

Implicit Types (s obs : list float64).

Lemma lookup_total_constant (c : float64) s i :
  Forall (fun x => x = c) s -> s !!! i = c \/ s !!! i = NaN.
Proof.
  intros Hs. rewrite list_lookup_total_alt.
  destruct (s !! i) as [x|] eqn:E; simpl; [left|by right].
  exact (Forall_lookup_1 _ _ _ _ Hs E).
Qed.

Lemma quantile_constant p (c : Q) obs :
  Forall (fun x => x = Fin c) obs ->
  S.quantile p obs = NaN \/ exists q, S.quantile p obs = Fin q /\ q == c.
Proof.
  intros Hobs. unfold S.quantile. cbv zeta.
  pose proof (Forall_sort _ _ Hobs) as Hsorted.
  set (i := Z.to_nat _).
  destruct (lookup_total_constant _ _ i Hsorted) as [-> | ->];
    destruct (Qeq_bool _ _); try (by left); try (right; by exists c).
  destruct (lookup_total_constant _ _ (S i) Hsorted) as [-> | ->]; [|by left].
  right. eexists. split; [reflexivity|]. ring.
Qed.

Lemma limit_of_constant (c : Q) s i l :
  Forall (fun x => x = Fin c) s ->
  S.fillna 80 (S.rolling 100 10 (S.quantile 0.85) s) !! i = Some l ->
  l = Fin 80 \/ exists q, l = Fin q /\ q == c.
Proof.
  intros Hs. unfold S.fillna. rewrite list_lookup_fmap.
  destruct (S.rolling _ _ _ _ !! i) as [x|] eqn:Ex; [|done]. simpl. intros [= <-].
  assert (x = NaN \/ exists q, x = Fin q /\ q == c) as [-> | (q & -> & Hq)].
  { pose proof (rolling_Forall (fun x => x = Fin c)
                  (fun x => x = NaN \/ exists q, x = Fin q /\ q == c)
                  100 10 (S.quantile 0.85) s Hs) as Hroll.
    eapply (Forall_lookup_1 _ _ _ _ (Hroll _ _) Ex). }
  - by left.
  - right. by exists q.
  Unshelve.
  + by left.
  + intros obs Hobs _. by apply quantile_constant.
Qed.

(** X11.  A trip driven at one constant speed of at most 80 is never
    charged for speeding: the dynamic limit is the default 80 at first and
    the speed itself once the window is long enough. *)
Theorem steady_trip_never_speeds (df df1 df2 : DataFrame) (c : Q) :
  process_data df = Ok df1 ->
  calculate_scores df1 = Ok df2 ->
  (forall i x, cell df2 "speed" i = Some x -> x = Fin c) ->
  c <= 80 ->
  forall i v, cell df2 "speeding_score" i = Some v -> v = Fin 0.
Proof.
  intros Hp Hc Hconst Hc80 i v Hv.
  destruct (process_data_shape _ _ Hp)
    as (speed & rpm & _ & _ & Es & _ & Hcols).
  cbv zeta in Hcols. destruct Hcols as (_ & _ & _ & _ & Hlimit & _).
  destruct (calculate_scores_shape _ _ Hc)
    as (speed' & limit & rpm' & thr & sp & si & ri & flags
        & Es' & El & _ & _ & _ & _ & _ & Hscores).
  cbv zeta in Hscores. destruct Hscores as (Hscore & _).
  rewrite Es in Es'. injection Es' as <-.
  pose proof (Hlimit _ El) as ->.
  assert (Forall (fun x => x = Fin c) speed) as Hall.
  { apply Forall_lookup. intros j x Hx. apply (Hconst j).
    unfold cell. rewrite (calculate_scores_getitem _ _ _ Hc) by notin_columns.
    by rewrite Es. }
  apply (col_is_cell _ _ _ _ _ Hscore) in Hv.
  apply speeding_lookup in Hv as (s & l & Hs & Hl & ->).
  pose proof (Forall_lookup_1 _ _ _ _ Hall Hs) as ->.
  assert (F.gt (Fin c) l = false) as ->; [|done].
  destruct (limit_of_constant c speed i l Hall Hl) as [-> | (q & -> & Hq)];
    apply flt_Fin_false; lra.
Qed.

End Steady.

Lemma steady_trip_never_speeds_witness :
  process_data steady_trip = Ok steady_features /\
  calculate_scores (H := stub_sklearn) steady_features = Ok steady_scored /\
  forall i v, cell steady_scored "speeding_score" i = Some v -> v = Fin 0.
Proof.
  assert (process_data steady_trip = Ok steady_features) as Hp
    by (vm_compute; reflexivity).
  assert (calculate_scores (H := stub_sklearn) steady_features = Ok steady_scored)
    as Hc by (vm_compute; reflexivity).
  split; [exact Hp|]. split; [exact Hc|].
  apply (steady_trip_never_speeds (H := stub_sklearn) _ _ _ 70 Hp Hc); [|lra].
  intros i s Hs.
  assert (DF.getitem steady_scored "speed" = Ok (replicate 12 (Fin 70))) as E
    by (vm_compute; reflexivity).
  unfold cell in Hs. rewrite E in Hs. by apply lookup_replicate in Hs as [-> _].
Defined.
(** ** Scores are penalties *)

Section PenaltiesOnly.

Context `{Sklearn}.

Implicit Types (obs : list float64) (P : float64 -> Prop).

Lemma Forall_bfill_with P (s : list float64) :
  P NaN -> Forall P s -> Forall P (S.bfill s).
Proof.
  intros Hnan. induction 1 as [|x s Hx Hs IH]; simpl; [done|].
  apply Forall_cons; split; [|done].
  destruct (F.isna x); [|done]. by destruct IH.
Qed.

Lemma Forall_ffill_from_with P last (s : list float64) :
  P last -> Forall P s -> Forall P (S.ffill_from last s).
Proof.
  intros Hl Hs. revert last Hl.
  induction Hs as [|x s Hx Hs IH]; intros last Hl; simpl; [done|].
  assert (P (if F.isna x then last else x)) by by destruct (F.isna x).
  apply Forall_cons; split; [done|]. by apply IH.
Qed.

Lemma nonneg_input_getitem df k (s : list float64) :
  nonneg_input df -> DF.getitem (prepared df) k = Ok s -> Forall nonneg_or_nan s.
Proof.
  intros Hin Hs. apply getitem_prepared in Hs as (raw & Hraw & ->).
  apply list_elem_of_fmap in Hraw as (c & [= _ ->] & Hc).
  unfold nonneg_input in Hin. rewrite Forall_forall in Hin.
  apply Forall_ffill_from_with; [done|]. apply Forall_bfill_with; [done|].
  by apply Hin.
Qed.

Lemma lookup_total_nonneg (s : list float64) i :
  Forall nonneg_or_nan s -> nonneg_or_nan (s !!! i).
Proof.
  intros Hs. rewrite list_lookup_total_alt.
  destruct (s !! i) as [x|] eqn:E; simpl; [|done].
  exact (Forall_lookup_1 _ _ _ _ Hs E).
Qed.

Lemma quantile_nonneg p obs :
  Forall nonneg_or_nan obs -> nonneg_or_nan (S.quantile p obs).
Proof.
  intros Hobs. unfold S.quantile. cbv zeta.
  pose proof (Forall_sort _ _ Hobs) as Hsorted.
  set (pos := p * inject_Z (Z.of_nat (length obs - 1))).
  set (i := Z.to_nat (Qfloor pos)).
  pose proof (lookup_total_nonneg _ i Hsorted) as Hlow.
  pose proof (lookup_total_nonneg _ (S i) Hsorted) as Hhigh.
  destruct (Qeq_bool _ _); [done|].
  destruct (S.sort obs !!! i) as [a| | |], (S.sort obs !!! S i) as [b| | |];
    try done.
  simpl in Hlow, Hhigh.
  change (0 <= a + (b + - a) * (pos - inject_Z (Qfloor pos))).
  pose proof (Qfloor_le pos) as Hf1. pose proof (Qlt_floor pos) as Hf2.
  rewrite inject_Z_plus in Hf2. change (inject_Z 1) with 1 in Hf2.
  assert (forall f, 0 <= f -> f <= 1 -> 0 <= a + (b + - a) * f) as Hmix.
  { intros f Hf0 Hf1'.
    assert (a + (b + - a) * f == a * (1 - f) + b * f) as -> by ring. nra. }
  apply Hmix; lra.
Qed.

Lemma limit_nonneg (s : list float64) :
  Forall nonneg_or_nan s ->
  Forall (fun l => exists b, l = Fin b /\ 0 <= b)
    (S.fillna 80 (S.rolling 100 10 (S.quantile 0.85) s)).
Proof.
  intros Hs. unfold S.fillna. apply Forall_fmap.
  eapply Forall_impl.
  - apply (rolling_Forall nonneg_or_nan nonneg_or_nan); [done..|].
    intros obs Hobs _. by apply quantile_nonneg.
  - intros x Hx. simpl. destruct x as [q| | |]; try done.
    + by exists q.
    + exists 80. split; [done|lra].
Qed.

Lemma threshold_nonneg n (speed rpm : list float64) :
  Forall nonneg_or_nan rpm ->
  Forall nonneg_or_nan
    (S.align n
       (S.on_values
          (fun v => S.fillna 1500 (S.ffill (S.rolling 100 10 (S.quantile 0.90) v)))
          (S.loc ((fun x => F.lt x (Fin 5)) <$> speed) rpm))).
Proof.
  intros Hrpm. apply align_Forall; [done|]. unfold S.on_values.
  apply Forall_snd_zip. unfold S.fillna. apply Forall_fmap.
  eapply Forall_impl.
  - apply (Forall_ffill_from_with nonneg_or_nan); [exact I|].
    apply (rolling_Forall nonneg_or_nan nonneg_or_nan); [|done|].
    + by apply Forall_loc_from.
    + intros obs Hobs _. by apply quantile_nonneg.
  - intros x Hx. simpl. destruct x as [q| | |]; try done; simpl; lra.
Qed.

Lemma penalty_nonpos k x t :
  k < 0 -> F.gt x t = true -> nonneg_or_nan x -> nonneg_or_nan t ->
  nonpos (penalty k x t).
Proof.
  intros Hk Hgt Hx Ht. destruct x as [a| | |], t as [b| | |]; try done.
  apply flt_Fin in Hgt. simpl in Hx, Ht. unfold penalty. simpl.
  destruct (Qeq_bool b 0) eqn:E.
  - unfold F.signed_inf.
    assert (k * (a + - b) < 0) as Hlt by nra.
    assert ((k * (a + - b) ?= 0) = Lt) as -> by (by apply Qlt_alt). done.
  - simpl. assert (~ b == 0) as Hb.
    { intros Hb. apply Qeq_bool_iff in Hb. congruence. }
    apply Qle_shift_div_r; [lra|nra].
Qed.

Lemma nonpos_fillna v : nonpos v -> F.fillna 0 v = v.
Proof. by destruct v. Qed.

Lemma nonpos_add x y : nonpos x -> nonpos y -> nonpos (F.add x y).
Proof. destruct x, y; simpl; try done. lra. Qed.

Lemma nonpos_sum_from acc obs :
  nonpos acc -> Forall nonpos obs -> nonpos (foldl F.add acc obs).
Proof.
  intros Hacc Hobs. revert acc Hacc.
  induction Hobs as [|x obs Hx Hobs IH]; intros acc Hacc; simpl; [done|].
  apply IH. by apply nonpos_add.
Qed.

Lemma nonpos_row_total (row : list float64) :
  Forall (fun x => x = NaN \/ nonpos x) row ->
  nonpos (F.fillna 0 (S.sum (filter (fun x => F.notna x = true) row))).
Proof.
  intros Hrow.
  assert (nonpos (S.sum (filter (fun x => F.notna x = true) row))) as Hs.
  { apply nonpos_sum_from; [simpl; lra|].
    apply Forall_forall. intros x Hx. apply list_elem_of_filter in Hx as [Hk Hx].
    rewrite Forall_forall in Hrow. destruct (Hrow x Hx) as [->|]; done. }
  by rewrite nonpos_fillna.
Qed.

Lemma lookup_total_nonpos (s : list float64) i :
  Forall nonpos s -> s !!! i = NaN \/ nonpos (s !!! i).
Proof.
  intros Hs. rewrite list_lookup_total_alt.
  destruct (s !! i) as [x|] eqn:E; simpl; [right|by left].
  exact (Forall_lookup_1 _ _ _ _ Hs E).
Qed.

(** X12.  For readings that are not negative every score is a penalty:
    the five sub-scores and the total score of each sample are at most 0
    (the speeding and idling scores being -inf when their threshold is
    0). *)
Theorem scores_are_penalties (df df1 df2 : DataFrame) :
  nonneg_input df ->
  process_data df = Ok df1 ->
  calculate_scores df1 = Ok df2 ->
  forall k i v, k ∈ score_columns -> cell df2 k i = Some v -> nonpos v.
Proof.
  intros Hin Hp Hc.
  destruct (process_data_shape _ _ Hp)
    as (speed & rpm & Es0 & Er0 & Es & Er & Hcols).
  cbv zeta in Hcols. destruct Hcols as (_ & _ & _ & _ & Hlimit & Hthr).
  pose proof (nonneg_input_getitem _ _ _ Hin Es0) as Hspeed.
  pose proof (nonneg_input_getitem _ _ _ Hin Er0) as Hrpm.
  destruct (calculate_scores_shape _ _ Hc)
    as (speed' & limit & rpm' & thr & sp & si & ri & flags
        & Es' & El & Er' & Et & _ & _ & _ & Hscores).
  cbv zeta in Hscores.
  destruct Hscores as (Hspeeding & Hidle & Hharsh & Haccel & Hanomaly & Htotal).
  rewrite Es in Es'. injection Es' as <-. rewrite Er in Er'. injection Er' as <-.
  pose proof (Hlimit _ El) as ->. pose proof (Hthr _ Et) as ->.
  set (speeding := S.fillna 0 (S.where_ _ (S.gt speed _) 0)) in *.
  set (idle := S.fillna 0 (S.where_ _ (zip_with andb _ _) 0)) in *.
  set (harsh := S.fillna 0 (harsh_braking <$> _)) in *.
  set (accel := (fun m : bool => if m then Fin (-10) else Fin 0) <$> _) in *.
  set (anomaly := (fun p : Z => if (p =? -1)%Z then Fin (-20) else Fin 0) <$> _) in *.
  assert (Forall nonpos speeding) as F1.
  { apply Forall_lookup. intros i v Hv.
    apply speeding_lookup in Hv as (s & l & Hs & Hl & ->).
    pose proof (Forall_lookup_1 _ _ _ _ Hspeed Hs) as Hsn.
    destruct (Forall_lookup_1 _ _ _ _ (limit_nonneg speed Hspeed) Hl) as (b & -> & Hb).
    destruct (F.gt s (Fin b)) eqn:Hgt; [|simpl; lra].
    assert (nonpos (penalty (-10) s (Fin b))) as Hpen
      by (apply penalty_nonpos; try done; lra).
    by rewrite nonpos_fillna. }
  assert (Forall nonpos idle) as F2.
  { apply Forall_lookup. intros i v Hv.
    apply idle_lookup in Hv as (s & r & t & Hs & Hr & Ht & ->).
    pose proof (Forall_lookup_1 _ _ _ _ Hrpm Hr) as Hrn.
    pose proof (Forall_lookup_1 _ _ _ _ (threshold_nonneg _ speed rpm Hrpm) Ht) as Htn.
    destruct (F.lt s (Fin 5)); simpl; [|lra].
    destruct (F.gt r t) eqn:Hgt; [|simpl; lra].
    assert (nonpos (penalty (-5) r t)) as Hpen
      by (apply penalty_nonpos; try done; lra).
    by rewrite nonpos_fillna. }
  assert (Forall nonpos harsh) as F3.
  { unfold harsh, S.fillna. rewrite <- list_fmap_compose.
    apply Forall_fmap, Forall_true. intros d. simpl.
    rewrite fillna_not_NaN by apply harsh_braking_not_NaN.
    pose proof (harsh_braking_range d) as Hw.
    destruct (harsh_braking d) as [q| | |]; simpl in *; try done. tauto. }
  assert (Forall nonpos accel) as F4.
  { apply Forall_fmap, Forall_true. intros []; simpl; lra. }
  assert (Forall nonpos anomaly) as F5.
  { apply Forall_fmap, Forall_true. intros p. simpl.
    destruct (p =? -1)%Z; simpl; lra. }
  intros k i v Hk Hv. unfold score_columns in Hk.
  repeat (apply elem_of_cons in Hk as [->|Hk]); [..|by apply elem_of_nil in Hk].
  - exact (Forall_lookup_1 _ _ _ _ F1 (col_is_cell _ _ _ _ _ Hspeeding Hv)).
  - exact (Forall_lookup_1 _ _ _ _ F2 (col_is_cell _ _ _ _ _ Hidle Hv)).
  - exact (Forall_lookup_1 _ _ _ _ F3 (col_is_cell _ _ _ _ _ Hharsh Hv)).
  - exact (Forall_lookup_1 _ _ _ _ F4 (col_is_cell _ _ _ _ _ Haccel Hv)).
  - exact (Forall_lookup_1 _ _ _ _ F5 (col_is_cell _ _ _ _ _ Hanomaly Hv)).
  - apply (col_is_cell _ _ _ _ _ Htotal) in Hv.
    unfold S.fillna, row_sum, rows_of in Hv. rewrite !list_lookup_fmap in Hv.
    destruct (seq 0 _ !! i) as [j|] eqn:Ej; [|done].
    apply lookup_seq in Ej as [-> _]. simpl in Hv. injection Hv as <-.
    apply nonpos_row_total.
    repeat (apply Forall_cons; split; [by apply lookup_total_nonpos|]).
    apply Forall_nil_2.
Qed.

End PenaltiesOnly.

Lemma scores_are_penalties_witness :
  nonneg_input example_trip /\
  process_data example_trip = Ok example_features /\
  calculate_scores (H := stub_sklearn) example_features = Ok example_scored /\
  forall k i v, k ∈ score_columns -> cell example_scored k i = Some v -> nonpos v.
Proof.
  assert (nonneg_input example_trip) as Hin.
  { repeat first [apply Forall_cons_2 | apply Forall_nil_2]; simpl; lra. }
  assert (process_data example_trip = Ok example_features) as Hp
    by (vm_compute; reflexivity).
  assert (calculate_scores (H := stub_sklearn) example_features = Ok example_scored)
    as Hc by (vm_compute; reflexivity).
  split; [exact Hin|]. split; [exact Hp|]. split; [exact Hc|].
  exact (scores_are_penalties (H := stub_sklearn) _ _ _ Hin Hp Hc).
Defined.
(** ** Which actions a recommendation can hold *)

Section Actions.

Implicit Types (df : DataFrame) (last : list (string * float64)).

#[local] Arguments F.gt : simpl never.
#[local] Arguments format_1f : simpl never.

(** Every action comes from an entry of the table whose metric is above
    its threshold in the last sample. *)
Lemma component_actions_origin last items acc acts a :
  component_actions last items acc = Ok acts -> a ∈ acts ->
  a ∈ acc \/
  exists metric name threshold todo v,
    (metric, (name, threshold, todo)) ∈ items /\
    row_get last metric = Ok v /\ F.gt v (Fin threshold) = true /\
    a = mkAction name (format_1f v) todo.
Proof.
  revert acc. induction items as [|[metric [[name threshold] todo]] items IH];
    intros acc Hrun Ha; simpl in Hrun.
  - injection Hrun as <-. by left.
  - apply bind_Ok in Hrun as (v & Hv & Hrun).
    destruct (F.gt v (Fin threshold)) eqn:Hgt.
    + apply bind_Ok in Hrun as (v' & Hv' & Hrun).
      rewrite Hv in Hv'. injection Hv' as <-.
      destruct (IH _ Hrun Ha) as [Hin|(m & n & t & td & w & Hm & Hw & Hg & ->)].
      * apply elem_of_app in Hin as [Hin|Hin]; [by left|].
        apply list_elem_of_singleton in Hin as ->. right.
        exists metric, name, threshold, todo, v. split; [by left|done].
      * right. exists m, n, t, td, w. split; [by right|done].
    + destruct (IH _ Hrun Ha) as [Hin|(m & n & t & td & w & Hm & Hw & Hg & ->)].
      * by left.
      * right. exists m, n, t, td, w. split; [by right|done].
Qed.

Lemma recommendation_actions_origin df rec a :
  get_maintenance_recommendations df = Ok rec -> a ∈ actions rec ->
  exists last metric name threshold todo v,
    iloc_last df = Ok last /\
    (metric, (name, threshold, todo)) ∈ components /\
    row_get last metric = Ok v /\ F.gt v (Fin threshold) = true /\
    a = mkAction name (format_1f v) todo.
Proof.
  intros Hrec Ha. unfold get_maintenance_recommendations in Hrec.
  apply bind_Ok in Hrec as (last & Hlast & Hrec).
  apply bind_Ok in Hrec as (u & Hu & Hrec).
  apply bind_Ok in Hrec as (rec0 & Hrec0 & Hrec).
  apply bind_Ok in Hrec as (acts & Hacts & Hrec).
  injection Hrec as <-. simpl in Ha.
  assert (actions rec0 = []) as Hnil.
  { clear -Hrec0. destruct (F.gt u (Fin 75)); [by injection Hrec0 as <-|].
    apply bind_Ok in Hrec0 as (u' & _ & Hrec0).
    destruct (F.gt u' (Fin 50)); by injection Hrec0 as <-. }
  rewrite Hnil in Hacts.
  destruct (component_actions_origin _ _ _ _ _ Hacts Ha)
    as [Hin|(m & n & t & td & w & Hm & Hw & Hg & ->)];
    [by apply elem_of_nil in Hin|].
  by exists last, m, n, t, td, w.
Qed.

End Actions.


(** ** Wear that cannot trigger an action *)

Section QuietWear.

Context `{Sklearn}.

Implicit Types (df : DataFrame) (k : string).

#[local] Arguments F.gt : simpl never.

Lemma process_data_nrows df df' : process_data df = Ok df' -> nrows df' = nrows df.
Proof.
  intros Hp. unfold process_data in Hp. cbv zeta in Hp. inv_bind Hp.
  by injection Hp as <-.
Qed.

Lemma calculate_scores_nrows df df' :
  calculate_scores df = Ok df' -> nrows df' = nrows df.
Proof.
  intros Hc. unfold calculate_scores in Hc. cbv zeta in Hc. inv_bind Hc.
  injection Hc as <-.
  repeat match goal with
    | E : DF.setitem_array _ _ _ = Ok _ |- _ => apply setitem_array_Ok in E; subst
    end.
  reflexivity.
Qed.

Lemma maintenance_system_nrows df df' :
  maintenance_system df = Ok df' -> nrows df' = nrows df.
Proof.
  intros Hm. unfold maintenance_system in Hm. cbv zeta in Hm. inv_bind Hm.
  apply setitem_array_Ok in Hm. by subst.
Qed.

Lemma pipeline_nrows df df' : pipeline df = Ok df' -> nrows df' = nrows df.
Proof.
  intros Hp. apply pipeline_Ok in Hp as (df1 & df2 & Hp1 & Hp2 & Hp3).
  rewrite (maintenance_system_nrows _ _ Hp3), (calculate_scores_nrows _ _ Hp2).
  by apply process_data_nrows.
Qed.

(** What [last[k]] reads: the cell of the last row, or the missing marker
    when the column is too short. *)
Lemma row_get_last_cell df k last v :
  iloc_last df = Ok last -> row_get last k = Ok v ->
  v = NaN \/ cell df k (nrows df - 1) = Some v.
Proof.
  unfold iloc_last, row_get. destruct (nrows df =? 0)%nat; [done|].
  intros [= <-]. rewrite filter_label_row.
  destruct (filter _ (columns df)) as [|c [|c' r]] eqn:E; simpl; try done.
  intros [= <-]. rewrite list_lookup_total_alt.
  destruct (c.2 !! _) as [x|] eqn:Ex; simpl; [right|by left].
  unfold cell, DF.getitem, DF.labelled. by rewrite E.
Qed.

Lemma maintenance_system_wear_shape df df' :
  maintenance_system df = Ok df' ->
  exists rpm load speed,
    DF.getitem df "rpm" = Ok rpm /\
    df_get df "engine_load" 50 = Ok load /\
    DF.getitem df "speed" = Ok speed /\
    col_is df' "engine_stress"
      (S.fillna 0
         (S.clip 0 100
            (S.rolling 10 1 S.mean
               ((fun x => F.div x (Fin 500000)) <$> mul_operand rpm load)))) /\
    col_is df' "tire_wear"
      (S.fillna 0
         (S.clip 0 100
            ((fun x => F.mul x (Fin 0.5)) <$>
               S.rolling 100 100 (S.std np_sqrt) speed))).
Proof.
  intros Hm. unfold maintenance_system in Hm. cbv zeta in Hm. inv_bind Hm.
  apply setitem_array_Ok in Hm. subst df'.
  repeat match goal with
         | E : context [DF.getitem (DF.setitem _ ?k _) ?k'] |- _ =>
             rewrite (getitem_setitem_ne _ k k') in E by discriminate
         end.
  exists x, x0, x2. repeat (split; [assumption|]).
  split; intros c Hc; rewrite ?getitem_setitem_ne in Hc by discriminate;
    by apply getitem_setitem_eq in Hc.
Qed.

(** X13.  The tire wear of each of the first 99 samples is 0, the rolling
    deviation asking for a full window of 100; so a trip of fewer than 100
    samples never gets the Tires action. *)
Theorem tire_wear_needs_100_samples df df' :
  maintenance_system df = Ok df' ->
  (forall i v, (i < 99)%nat -> cell df' "tire_wear" i = Some v -> v = Fin 0) /\
  ((nrows df' < 100)%nat ->
   forall rec, get_maintenance_recommendations df' = Ok rec ->
               forall a, a ∈ actions rec -> component a <> "Tires").
Proof.
  intros Hm.
  destruct (maintenance_system_wear_shape _ _ Hm)
    as (rpm & load & speed & _ & _ & _ & _ & Htire).
  assert (forall i v, (i < 99)%nat -> cell df' "tire_wear" i = Some v -> v = Fin 0)
    as Hearly.
  { intros i v Hi Hv. apply (col_is_cell _ _ _ _ _ Htire) in Hv.
    unfold S.fillna, S.clip in Hv. rewrite !list_lookup_fmap in Hv.
    destruct (S.rolling _ _ _ _ !! i) as [x|] eqn:Ex; [|done].
    simpl in Hv. injection Hv as <-.
    apply rolling_early in Ex as ->; [done|lia]. }
  split; [exact Hearly|].
  intros Hn rec Hrec a Ha Hname.
  destruct (recommendation_actions_origin _ _ _ Hrec Ha)
    as (last & m & n & t & td & w & Hlast & Hm' & Hw & Hgt & ->).
  simpl in Hname. subst n. unfold components in Hm'.
  repeat (apply elem_of_cons in Hm' as [Hm'|Hm']); try done;
    [|by apply elem_of_nil in Hm'].
  injection Hm' as -> -> ->.
  destruct (row_get_last_cell _ _ _ _ Hlast Hw) as [->|Hcell]; [done|].
  apply Hearly in Hcell as ->; [done|lia].
Qed.

Lemma Forall_bounded_prepared k B df (s : list float64) :
  readings_bounded k B df -> DF.getitem (prepared df) k = Ok s ->
  Forall (bounded_or_nan B) s.
Proof.
  intros Hb Hs. apply getitem_prepared in Hs as (raw & Hraw & ->).
  apply list_elem_of_fmap in Hraw as (c & [= Hk ->] & Hc).
  apply Forall_ffill_from_with; [done|]. apply Forall_bfill_with; [done|].
  by apply (Hb c).
Qed.

Lemma stress_term_bounded R L a b :
  50 <= L ->
  bounded_or_nan R a -> bounded_or_nan L b ->
  bounded_or_nan (R * L / 500000) (F.div (F.mul a b) (Fin 500000)).
Proof.
  intros HL Ha Hb. destruct a as [x| | |], b as [y| | |]; try done.
  simpl in *. destruct Ha, Hb.
  split; [apply Qle_shift_div_l; nra|].
  apply Qle_shift_div_r; [lra|].
  assert (R * L / 500000 * 500000 == R * L) as -> by (field). nra.
Qed.

Lemma sum_from_bounded B (obs : list float64) (a : Q) :
  0 <= B -> Forall (within 0 B) obs ->
  exists q, foldl F.add (Fin a) obs = Fin q /\
            a <= q /\ q <= a + B * inject_Z (Z.of_nat (length obs)).
Proof.
  intros HB. revert a. induction obs as [|x obs IH]; intros a Hobs.
  - exists a. simpl. split; [done|]. split; [lra|].
    change (inject_Z (Z.of_nat 0)) with 0. lra.
  - apply Forall_cons in Hobs as [Hx Hobs].
    destruct x as [q0| | |]; simpl in Hx; try done. destruct Hx as [H0 H1].
    destruct (IH (a + q0) Hobs) as (q & Hq & Hlo & Hhi).
    exists q. split; [exact Hq|]. split; [lra|].
    rewrite length_cons, Nat2Z.inj_succ, <- Z.add_1_r, inject_Z_plus.
    change (inject_Z 1) with 1. lra.
Qed.

Lemma mean_bounded B (obs : list float64) :
  0 <= B -> obs <> [] -> Forall (within 0 B) obs -> within 0 B (S.mean obs).
Proof.
  intros HB Hne Hobs.
  destruct (sum_from_bounded B obs 0 HB Hobs) as (q & Hq & Hlo & Hhi).
  unfold S.mean, S.sum, S.count. rewrite Hq. simpl.
  set (n := inject_Z (Z.of_nat (length obs))) in *.
  assert (0 < n) as Hn.
  { unfold n. change 0 with (inject_Z 0). rewrite <- Zlt_Qlt.
    destruct obs; [done|]. simpl. lia. }
  destruct (Qeq_bool n 0) eqn:E; [apply Qeq_bool_iff in E; lra|].
  simpl. split; [apply Qle_shift_div_l; lra|apply Qle_shift_div_r; lra].
Qed.

Lemma clip_fill_bounded B (x : float64) :
  0 <= B -> x = NaN \/ within 0 B x ->
  within 0 B (F.fillna 0 (F.clip 0 100 x)).
Proof.
  intros HB [->|Hx]; [simpl; lra|].
  destruct x as [q| | |]; simpl in Hx; try done. destruct Hx.
  unfold F.clip. change (F.isna (Fin q)) with false. cbv iota.
  destruct (F.lt (Fin q) (Fin 0)) eqn:E1; [simpl; lra|].
  destruct (F.lt (Fin 100) (Fin q)) eqn:E2.
  - apply flt_Fin in E2. simpl. lra.
  - simpl. lra.
Qed.

Lemma engine_stress_column B (terms : list float64) :
  0 <= B -> Forall (bounded_or_nan B) terms ->
  Forall (within 0 B) (S.fillna 0 (S.clip 0 100 (S.rolling 10 1 S.mean terms))).
Proof.
  intros HB Hterms. unfold S.fillna, S.clip. rewrite <- list_fmap_compose.
  apply Forall_fmap. apply Forall_lookup. intros i v Hv.
  unfold S.rolling in Hv. rewrite list_lookup_imap in Hv.
  destruct (terms !! i) as [x|]; [|done]. simpl in Hv. injection Hv as <-.
  apply clip_fill_bounded; [done|].
  match goal with
  | |- context [S.mean ?l] => remember l as obs eqn:Eobs
  end.
  assert (Forall (within 0 B) obs) as Hobs.
  { subst obs. apply Forall_forall. intros y Hy.
    apply list_elem_of_filter in Hy as [Hk Hy].
    pose proof (Forall_window _ 10 i _ Hterms) as Hw.
    rewrite Forall_forall in Hw. specialize (Hw y Hy). by destruct y. }
  clear Eobs. destruct obs as [|z obs']; [by left|right].
  cbn [length]. by apply mean_bounded.
Qed.

(** X14.  With rpm readings between 0 and R and engine_load readings
    between 0 and L (at least the default 50 that stands in for an absent
    column), the engine stress of every sample is at most R * L / 500000;
    when R * L <= 40,000,000 (rpm up to 8000 at any load up to 5000, say)
    the Engine action is never emitted. *)
Theorem engine_stress_bounded_by_readings df df' (R L : Q) :
  0 <= R -> 50 <= L ->
  readings_bounded "rpm" R df ->
  readings_bounded "engine_load" L df ->
  pipeline df = Ok df' ->
  (forall i v, cell df' "engine_stress" i = Some v -> within 0 (R * L / 500000) v) /\
  (R * L <= 40000000 ->
   forall rec, get_maintenance_recommendations df' = Ok rec ->
               forall a, a ∈ actions rec -> component a <> "Engine").
Proof.
  intros HR HL Hrpm Hload Hp.
  apply pipeline_Ok in Hp as (df1 & df2 & Hp1 & Hp2 & Hp3).
  destruct (maintenance_system_wear_shape _ _ Hp3)
    as (rpm & load & speed & Er & El & _ & Hstress & _).
  assert (0 <= R * L / 500000) as HB by (apply Qle_shift_div_l; nra).
  assert (forall k, k ∉ feature_columns -> k ∉ score_columns ->
            DF.getitem df2 k = DF.getitem (prepared df) k) as Hkeep.
  { intros k Hk1 Hk2. rewrite (calculate_scores_getitem _ _ _ Hp2 Hk2).
    unfold prepared. by apply process_data_getitem. }
  assert (Forall (bounded_or_nan R) rpm) as Hr.
  { apply (Forall_bounded_prepared "rpm" R df); [done|].
    rewrite <- Hkeep; [done|unfold feature_columns|];
      repeat (apply not_elem_of_cons; split; [discriminate|]);
      apply not_elem_of_nil. }
  assert (Forall (bounded_or_nan (R * L / 500000))
            ((fun x => F.div x (Fin 500000)) <$> mul_operand rpm load)) as Hterms.
  { destruct load as [q|s].
    - unfold df_get in El.
      destruct (DF.labelled "engine_load" df2) as [|? [|? ?]]; try done.
      injection El as <-. simpl. rewrite <- list_fmap_compose.
      apply Forall_fmap. eapply Forall_impl; [exact Hr|]. intros x Hx. simpl.
      apply (stress_term_bounded R L x (Fin 50)); [done|done|simpl; lra].
    - assert (DF.getitem df2 "engine_load" = Ok s) as Es.
      { unfold df_get in El. unfold DF.getitem.
        destruct (DF.labelled "engine_load" df2) as [|? [|? ?]]; try done.
        by injection El as ->. }
      assert (Forall (bounded_or_nan L) s) as Hs.
      { apply (Forall_bounded_prepared "engine_load" L df); [done|].
        rewrite <- Hkeep; [done|unfold feature_columns|];
          repeat (apply not_elem_of_cons; split; [discriminate|]);
          apply not_elem_of_nil. }
      simpl. unfold S.mul. apply Forall_fmap. apply Forall_lookup.
      intros i v Hv. rewrite lookup_zip_with in Hv.
      destruct (rpm !! i) as [a|] eqn:Ea; [|done].
      destruct (s !! i) as [b|] eqn:Eb; [|done].
      simpl in Hv. injection Hv as <-. simpl.
      apply stress_term_bounded; [done| |].
      + exact (Forall_lookup_1 _ _ _ _ Hr Ea).
      + exact (Forall_lookup_1 _ _ _ _ Hs Eb). }
  pose proof (engine_stress_column _ _ HB Hterms) as Hcol.
  assert (forall i v, cell df' "engine_stress" i = Some v ->
                      within 0 (R * L / 500000) v) as Hall.
  { intros i v Hv. apply (col_is_cell _ _ _ _ _ Hstress) in Hv.
    exact (Forall_lookup_1 _ _ _ _ Hcol Hv). }
  split; [exact Hall|].
  intros Hsmall rec Hrec a Ha Hname.
  destruct (recommendation_actions_origin _ _ _ Hrec Ha)
    as (last & m & n & t & td & w & Hlast & Hm' & Hw & Hgt & ->).
  simpl in Hname. subst n. unfold components in Hm'.
  repeat (apply elem_of_cons in Hm' as [Hm'|Hm']); try done;
    [|by apply elem_of_nil in Hm'].
  injection Hm' as -> -> ->.
  destruct (row_get_last_cell _ _ _ _ Hlast Hw) as [->|Hcell]; [done|].
  apply Hall in Hcell. destruct w as [q| | |]; simpl in Hcell; try done.
  apply flt_Fin in Hgt.
  assert (R * L / 500000 <= 80) by (apply Qle_shift_div_r; lra). lra.
Qed.

End QuietWear.

Lemma tire_wear_needs_100_samples_witness :
  (forall i v, (i < 99)%nat -> cell example_processed "tire_wear" i = Some v ->
               v = Fin 0) /\
  ((nrows example_processed < 100)%nat ->
   forall rec, get_maintenance_recommendations example_processed = Ok rec ->
               forall a, a ∈ actions rec -> component a <> "Tires").
Proof.
  apply (tire_wear_needs_100_samples (H := stub_sklearn) example_scored).
  vm_compute; reflexivity.
Defined.

Lemma engine_stress_bounded_by_readings_witness :
  (forall i v, cell example_processed "engine_stress" i = Some v ->
               within 0 (8000 * 100 / 500000) v) /\
  (8000 * 100 <= 40000000 ->
   forall rec, get_maintenance_recommendations example_processed = Ok rec ->
               forall a, a ∈ actions rec -> component a <> "Engine").
Proof.
  apply (engine_stress_bounded_by_readings (H := stub_sklearn) example_trip
           example_processed 8000 100); try lra; try (vm_compute; reflexivity).
  - intros c Hc Hk. unfold example_trip in Hc. simpl in Hc.
    repeat (apply elem_of_cons in Hc as [->|Hc]); try discriminate Hk;
      [|by apply elem_of_nil in Hc].
    simpl. repeat first [apply Forall_cons_2 | apply Forall_nil_2]; simpl; lra.
  - intros c Hc Hk. unfold example_trip in Hc. simpl in Hc.
    repeat (apply elem_of_cons in Hc as [->|Hc]); try discriminate Hk.
    by apply elem_of_nil in Hc.
Defined.
(** ** A draw of labels with one class *)

Section SingleClass.

Context `{Sklearn}.

Implicit Types (df : DataFrame).

Lemma length_rows_of n (cols : list Series) : length (rows_of n cols) = n.
Proof. unfold rows_of. by rewrite length_fmap, length_seq. Qed.

Lemma column_of_1_narrow (P : list (list float64)) p1 :
  P <> [] -> Forall (fun row : list float64 => (length row <= 1)%nat) P ->
  column_of 1 P <> Ok p1.
Proof.
  intros Hne HP. unfold column_of.
  destruct P as [|row P]; [done|]. apply Forall_cons in HP as [Hrow _].
  cbn [forallb]. destruct (Nat.ltb_spec 1 (length row)) as [Hlt|_]; [lia|].
  done.
Qed.

Lemma classes_singleton (b : bool) : classes [b] = 1%nat.
Proof. by destruct b. Qed.

Lemma single_class_pipeline_fails df :
  one_column_per_class ->
  nrows df <> 0%nat ->
  (classes (np_random_randint (nrows df)) <= 1)%nat ->
  exists e, pipeline df = Raise e.
Proof.
  intros Hshape Hn Hone.
  assert (forall df', pipeline df <> Ok df') as Hfail.
  { intros df' Hp. pose proof (pipeline_nrows _ _ Hp) as Hrows.
    apply pipeline_Ok in Hp as (df1 & df2 & _ & _ & Hp3).
    destruct (maintenance_system_shape _ _ Hp3)
      as (es & bw & tw & P & p1 & _ & _ & _ & HP & Hcol & _).
    destruct (Hshape _ _ _ HP) as [Hlen Hrow].
    rewrite length_rows_of in Hlen. rewrite Hrows in *.
    apply (column_of_1_narrow P p1); [by destruct P| |done].
    eapply Forall_impl; [exact Hrow|]. simpl. intros row ->. exact Hone. }
  destruct (pipeline df) as [df'|e] eqn:Ep; [by destruct (Hfail df')|].
  by exists e.
Qed.

(** X15.  When the drawn labels hold one class only, the forest's
    probabilities have a single column and [predict_proba(X)[:,1]] raises:
    no non-empty trip is processed, the error is reported and the script
    stops, the session keeping the frame it had. *)
Theorem single_class_draw_is_rejected df :
  one_column_per_class ->
  nrows df <> 0%nat ->
  (classes (np_random_randint (nrows df)) <= 1)%nat ->
  (exists e, pipeline df = Raise e) /\
  (forall session,
     session_df (main session (Some df)) = session /\
     stopped (main session (Some df)) = true /\
     reported (main session (Some df)) <> None).
Proof.
  intros Hshape Hn Hone.
  destruct (single_class_pipeline_fails df Hshape Hn Hone) as [e Ep].
  split; [by exists e|].
  intros session. unfold main. rewrite Ep. by simpl.
Qed.

(** X16.  A trip of a single sample is never processed: its one drawn
    label is one class, so the script reports an error and stops. *)
Theorem single_sample_trip_is_rejected df :
  one_column_per_class -> one_label_per_sample ->
  nrows df = 1%nat ->
  exists e, pipeline df = Raise e /\
            main None (Some df) = mkRun None (Some e) true.
Proof.
  intros Hshape Hdraw Hn.
  assert (classes (np_random_randint (nrows df)) <= 1)%nat as Hone.
  { rewrite Hn. specialize (Hdraw 1%nat).
    destruct (np_random_randint 1) as [|b [|? ?]]; [done| |done].
    by rewrite classes_singleton. }
  assert (nrows df <> 0%nat) as Hn0 by lia.
  destruct (single_class_pipeline_fails df Hshape Hn0 Hone) as [e He].
  exists e. split; [done|]. unfold main. by rewrite He.
Qed.

End SingleClass.

Lemma single_class_shape : one_column_per_class (H := single_class_sklearn).
Proof.
  intros X y P. simpl. destruct X as [|r X]; [done|].
  generalize (r :: X). clear r X. intros X [= <-].
  split; [apply length_fmap|].
  apply Forall_fmap, Forall_forall. intros ? _. simpl. apply length_replicate.
Qed.

Lemma single_class_draw : one_label_per_sample (H := single_class_sklearn).
Proof. intros n. simpl. by rewrite length_replicate. Qed.

Lemma single_class_draw_is_rejected_witness :
  one_column_per_class (H := single_class_sklearn) /\
  nrows example_trip <> 0%nat /\
  (classes (np_random_randint (Sklearn := single_class_sklearn)
              (nrows example_trip)) <= 1)%nat /\
  (exists e, pipeline (H := single_class_sklearn) example_trip = Raise e) /\
  (forall session,
     session_df (main (H := single_class_sklearn) session (Some example_trip))
       = session /\
     stopped (main (H := single_class_sklearn) session (Some example_trip))
       = true /\
     reported (main (H := single_class_sklearn) session (Some example_trip))
       <> None).
Proof.
  split; [exact single_class_shape|].
  split; [done|].
  split; [vm_compute; lia|].
  apply (single_class_draw_is_rejected (H := single_class_sklearn) example_trip).
  - exact single_class_shape.
  - done.
  - vm_compute; lia.
Defined.

Lemma single_sample_trip_is_rejected_witness :
  one_column_per_class (H := single_class_sklearn) /\
  one_label_per_sample (H := single_class_sklearn) /\
  nrows moving_sample = 1%nat /\
  exists e, pipeline (H := single_class_sklearn) moving_sample = Raise e /\
            main (H := single_class_sklearn) None (Some moving_sample)
              = mkRun None (Some e) true.
Proof.
  split; [exact single_class_shape|].
  split; [exact single_class_draw|].
  split; [reflexivity|].
  apply (single_sample_trip_is_rejected (H := single_class_sklearn) moving_sample).
  - exact single_class_shape.
  - exact single_class_draw.
  - reflexivity.
Defined.
(** ** When a recommendation can be given *)

Section RecommendationDomain.

Implicit Types (df : DataFrame) (k : string).

Lemma row_get_Ok_iff df last k :
  iloc_last df = Ok last ->
  (exists v, row_get last k = Ok v) <-> length (DF.labelled k df) = 1%nat.
Proof.
  unfold iloc_last, row_get, DF.labelled.
  destruct (nrows df =? 0)%nat; [done|]. intros [= <-].
  rewrite filter_label_row, length_fmap.
  destruct (filter _ (columns df)) as [|c [|c' r]]; simpl.
  - split; [by intros [v Hv]|done].
  - split; [done|]. intros _. by eexists.
  - split; [by intros [v Hv]|done].
Qed.

Lemma component_actions_reads last items acc acts :
  component_actions last items acc = Ok acts ->
  forall item, item ∈ items -> exists v, row_get last item.1 = Ok v.
Proof.
  revert acc. induction items as [|[metric [[name threshold] todo]] rest IH];
    intros acc Hacts item Hitem; [by apply elem_of_nil in Hitem|].
  cbn [component_actions] in Hacts.
  destruct (row_get last metric) as [v|e] eqn:Ev; [|done].
  cbn [mbind result_bind] in Hacts.
  apply elem_of_cons in Hitem as [->|Hitem]; [by exists v|].
  destruct (F.gt v (Fin threshold)); cbn [mbind result_bind] in Hacts;
    exact (IH _ Hacts item Hitem).
Qed.

Lemma component_actions_total last items acc :
  (forall item, item ∈ items -> exists v, row_get last item.1 = Ok v) ->
  exists acts, component_actions last items acc = Ok acts.
Proof.
  revert acc. induction items as [|[metric [[name threshold] todo]] rest IH];
    intros acc Hall; [by exists acc|].
  cbn [component_actions].
  destruct (Hall (metric, (name, threshold, todo))) as [v Hv];
    [apply elem_of_cons; by left|].
  cbn [fst] in Hv. rewrite Hv. cbn [mbind result_bind].
  destruct (F.gt v (Fin threshold)); cbn [mbind result_bind];
    apply IH; intros item Hitem; apply Hall, elem_of_cons; by right.
Qed.

Lemma bind_Raise {A B} (m : result A) (k : A -> result B) e :
  (x ← m; k x) = Raise e ->
  m = Raise e \/ exists a, m = Ok a /\ k a = Raise e.
Proof. destruct m as [a|e']; simpl; [by eauto|]. intros [= ->]. by left. Qed.

Lemma row_get_no_IndexError (last : list (string * float64)) k :
  row_get last k <> Raise IndexError.
Proof. unfold row_get. by destruct (filter _ last) as [|? [|? ?]]. Qed.

Lemma component_actions_no_IndexError last items acc :
  component_actions last items acc <> Raise IndexError.
Proof.
  revert acc. induction items as [|[metric [[name threshold] todo]] rest IH];
    intros acc; [done|]. cbn [component_actions]. intros Hraise.
  apply bind_Raise in Hraise as [Hraise|(v & _ & Hraise)];
    [by apply row_get_no_IndexError in Hraise|].
  destruct (F.gt v (Fin threshold)); [|by apply IH in Hraise].
  apply bind_Raise in Hraise as [Hraise|(v' & _ & Hraise)];
    [by apply row_get_no_IndexError in Hraise|by apply IH in Hraise].
Qed.

(** X17.  A recommendation is given exactly for the frames that have at
    least one row and exactly one column for each of maintenance_urgency,
    engine_stress, brake_wear and tire_wear; the IndexError of
    [df.iloc[-1]] is raised for the empty frames and for no other. *)
Theorem recommendation_needs_its_four_fields df :
  ((exists rec, get_maintenance_recommendations df = Ok rec) <->
   nrows df <> 0%nat /\
   Forall (fun k => length (DF.labelled k df) = 1%nat) recommendation_fields) /\
  (get_maintenance_recommendations df = Raise IndexError <-> nrows df = 0%nat).
Proof.
  assert (nrows df = 0%nat -> get_maintenance_recommendations df = Raise IndexError)
    as Hempty.
  { intros Hn. unfold get_maintenance_recommendations, iloc_last.
    by rewrite Hn. }
  assert (nrows df <> 0%nat ->
          exists last, iloc_last df = Ok last) as Hlast.
  { intros Hn. unfold iloc_last.
    destruct (Nat.eqb_spec (nrows df) 0%nat); [done|by eexists]. }
  split; [|split; [|exact Hempty]].
  - split.
    + intros [rec Hrec].
      assert (nrows df <> 0%nat) as Hn.
      { intros Hn. rewrite (Hempty Hn) in Hrec. done. }
      split; [exact Hn|].
      unfold get_maintenance_recommendations in Hrec.
      apply bind_Ok in Hrec as (last & El & Hrec).
      apply bind_Ok in Hrec as (u & Hu & Hrec).
      apply bind_Ok in Hrec as (rec0 & _ & Hrec).
      apply bind_Ok in Hrec as (acts & Hacts & _).
      pose proof (component_actions_reads _ _ _ _ Hacts) as Hreads.
      apply Forall_forall in Hreads. unfold components in Hreads.
      apply Forall_cons in Hreads as [He Hreads].
      apply Forall_cons in Hreads as [Hb Hreads].
      apply Forall_cons in Hreads as [Ht _].
      cbn [fst] in He, Hb, Ht.
      unfold recommendation_fields.
      repeat apply Forall_cons_2; [| | | |apply Forall_nil_2];
        apply (row_get_Ok_iff df last); try done.
      by exists u.
    + intros [Hn Hall]. destruct (Hlast Hn) as [last El].
      unfold recommendation_fields in Hall.
      apply Forall_cons in Hall as [Hu Hall].
      apply Forall_cons in Hall as [He Hall].
      apply Forall_cons in Hall as [Hb Hall].
      apply Forall_cons in Hall as [Ht _].
      apply (row_get_Ok_iff df last) in Hu as [u Hu]; [|done].
      apply (row_get_Ok_iff df last) in He as [e He]; [|done].
      apply (row_get_Ok_iff df last) in Hb as [b Hb]; [|done].
      apply (row_get_Ok_iff df last) in Ht as [t Ht]; [|done].
      assert (forall acc, exists acts,
                 component_actions last components acc = Ok acts) as Hacts.
      { intros acc. apply component_actions_total. intros item Hitem.
        unfold components in Hitem.
        repeat (apply elem_of_cons in Hitem as [->|Hitem]); simpl; eauto.
        by apply elem_of_nil in Hitem. }
      unfold get_maintenance_recommendations. rewrite El.
      cbn [mbind result_bind]. rewrite Hu. cbn [mbind result_bind].
      destruct (F.gt u (Fin 75)); cbn [mbind result_bind actions].
      * destruct (Hacts []) as [acts ->]. cbn [mbind result_bind]. by eexists.
      * destruct (F.gt u (Fin 50)); cbn [mbind result_bind actions];
          destruct (Hacts []) as [acts ->]; cbn [mbind result_bind]; by eexists.
  - intros Hraise. destruct (Nat.eq_dec (nrows df) 0%nat) as [|Hn]; [done|].
    exfalso. destruct (Hlast Hn) as [last El].
    unfold get_maintenance_recommendations in Hraise. rewrite El in Hraise.
    cbn [mbind result_bind] in Hraise.
    apply bind_Raise in Hraise as [Hraise|(u & _ & Hraise)];
      [by apply row_get_no_IndexError in Hraise|].
    apply bind_Raise in Hraise as [Hraise|(rec0 & _ & Hraise)].
    + destruct (F.gt u (Fin 75)); [done|].
      apply bind_Raise in Hraise as [Hraise|(u' & _ & Hraise)];
        [by apply row_get_no_IndexError in Hraise|].
      by destruct (F.gt u' (Fin 50)).
    + apply bind_Raise in Hraise as [Hraise|(acts & _ & Hraise)];
        [by apply component_actions_no_IndexError in Hraise|done].
Qed.

End RecommendationDomain.

Lemma recommendation_needs_its_four_fields_witness :
  (exists rec, get_maintenance_recommendations example_processed = Ok rec) /\
  get_maintenance_recommendations (mkFrame 0 (columns example_processed))
    = Raise IndexError.
Proof.
  split.
  - apply (proj1 (recommendation_needs_its_four_fields example_processed)).
    split; [done|]. unfold recommendation_fields.
    repeat first [apply Forall_cons_2 | apply Forall_nil_2]; vm_compute; reflexivity.
  - by apply (proj2 (recommendation_needs_its_four_fields
                       (mkFrame 0 (columns example_processed)))).
Defined.

(** ** The shape of a processed frame *)

Section FrameShape.

Context `{Sklearn}.

(** X18.  Processing neither adds nor drops a sample, and when every
    column of the upload has one cell per sample, so has every column of
    the processed frame. *)
Theorem processed_frame_keeps_its_rows (df df' : DataFrame) :
  pipeline df = Ok df' ->
  nrows df' = nrows df /\ (well_formed df -> well_formed df').
Proof.
  intros Hp. split; [by apply pipeline_nrows|]. intros Hwf.
  apply pipeline_Ok in Hp as (df1 & df2 & Hp1 & Hp2 & Hp3).
  destruct (process_data_well_formed _ _ Hwf Hp1) as [Hwf1 _].
  destruct (calculate_scores_well_formed _ _ Hwf1 Hp2) as [Hwf2 _].
  by destruct (maintenance_system_well_formed _ _ Hwf2 Hp3) as [Hwf3 _].
Qed.

End FrameShape.

Lemma processed_frame_keeps_its_rows_witness :
  pipeline (H := stub_sklearn) example_trip = Ok example_processed /\
  well_formed example_trip /\
  nrows example_processed = nrows example_trip /\
  well_formed example_processed.
Proof.
  assert (pipeline (H := stub_sklearn) example_trip = Ok example_processed) as Hp
    by (vm_compute; reflexivity).
  assert (well_formed example_trip) as Hwf
    by (repeat first [apply Forall_cons_2 | apply Forall_nil_2]; reflexivity).
  split; [exact Hp|]. split; [exact Hwf|].
  destruct (processed_frame_keeps_its_rows (H := stub_sklearn) _ _ Hp) as [Hn Hk].
  split; [exact Hn|exact (Hk Hwf)].
Defined.
(** ** What the pipeline leaves alone *)

Section PassThrough.

Context `{Sklearn}.

Implicit Types (df : DataFrame) (k : string).

Lemma ffill_from_keeps_known last (s : list float64) i x :
  s !! i = Some x -> F.isna x = false -> S.ffill_from last s !! i = Some x.
Proof.
  revert last i. induction s as [|y s IH]; intros last [|i]; simpl; try done.
  - by intros [= ->] ->.
  - apply IH.
Qed.

(** X19.  A column whose label is none of the sixteen the pipeline writes
    (speed, rpm, timestamp, lat, lon, engine_load, ...) reaches the
    processed frame as the upload's column under its lowercased label, with
    as many cells and every known reading in its place unchanged: only the
    gaps are filled. *)
Theorem known_readings_pass_unchanged df df' k (s : list float64) :
  pipeline df = Ok df' ->
  k ∉ feature_columns -> k ∉ score_columns -> k ∉ wear_columns ->
  DF.getitem df' k = Ok s ->
  exists c : string * Series,
    c ∈ columns df /\ lower c.1 = k /\ length s = length c.2 /\
    forall i x, c.2 !! i = Some x -> known x -> s !! i = Some x.
Proof.
  intros Hp Hk1 Hk2 Hk3 Hs.
  apply pipeline_Ok in Hp as (df1 & df2 & Hp1 & Hp2 & Hp3).
  rewrite (pipeline_getitem _ _ _ _ Hp2 Hp3 Hk2 Hk3) in Hs.
  rewrite (process_data_getitem _ _ _ Hp1 Hk1) in Hs.
  apply getitem_prepared in Hs as (raw & Hraw & ->).
  apply list_elem_of_fmap in Hraw as (c & [= Hk ->] & Hc).
  exists c. split; [done|]. split; [done|].
  split; [unfold S.ffill; by rewrite length_ffill_from, length_bfill|].
  intros i x Hx Hknown.
  assert (F.isna x = false) as Hna by (by destruct x).
  apply ffill_from_keeps_known; [|done]. by apply bfill_known.
Qed.

End PassThrough.

Lemma known_readings_pass_unchanged_witness :
  exists c : string * Series,
    c ∈ columns example_trip /\ lower c.1 = "rpm"%string /\
    length [Fin 2000; Fin 1200; Fin 800] = length c.2 /\
    forall i x, c.2 !! i = Some x -> known x ->
                [Fin 2000; Fin 1200; Fin 800] !! i = Some x.
Proof.
  apply (known_readings_pass_unchanged (H := stub_sklearn) example_trip
           example_processed "rpm").
  - vm_compute; reflexivity.
  - unfold feature_columns. notin_columns.
  - unfold score_columns. notin_columns.
  - unfold wear_columns. notin_columns.
  - vm_compute; reflexivity.
Defined.
